(** * Job-lifecycle managers and the review poller

    A shallow embedding of the manager implementations of the repository
    (Go, Java, JavaScript, C++) and of the client-side poller
    ([ApiService.pollReview]), with the properties of the job-lifecycle
    specification settled against them.

    Conventions of the embedding:
    - a mutable object is a record that is passed in and returned;
    - output (logging), the clock and scheduling choices live in a [World]
      that every effectful operation threads through;
    - library functions whose code is not part of the repository
      ([fmt.Sprintf], [JSON.stringify], [Object.toString]) are section
      variables. *)

From Stdlib Require Import ZArith QArith String List Bool Lia Permutation.
Import ListNotations.

Local Open Scope string_scope.
Local Open Scope Z_scope.

(** [s] between double quotes *)
Definition quoted (s : string) : string :=
  let q := String (Ascii.ascii_of_nat 34) EmptyString in
  q ++ s ++ q.

(* ===================================================================== *)
(** ** Effects: a state monad over whatever the code mutates              *)
(* ===================================================================== *)

Definition Eff (S A : Type) : Type := S -> A * S.

Definition ret {S A : Type} (a : A) : Eff S A := fun s => (a, s).

Definition bind {S A B : Type} (c : Eff S A) (k : A -> Eff S B) : Eff S B :=
  fun s => let '(a, s') := c s in k a s'.

Definition gets {S A : Type} (f : S -> A) : Eff S A := fun s => (f s, s).

Definition modify {S : Type} (f : S -> S) : Eff S unit := fun s => (tt, f s).

Declare Scope eff_scope.
Delimit Scope eff_scope with eff.
Notation "x <- c ;; k" := (bind c (fun x => k))
  (at level 61, c at next level, right associativity) : eff_scope.
Notation "c ;; k" := (bind c (fun _ => k))
  (at level 61, right associativity) : eff_scope.
Local Open Scope eff_scope.

(* ===================================================================== *)
(** ** Go: [configuration_manager_54.go]                                  *)
(* ===================================================================== *)

Module Go.

(** [type Status int] with its four [iota] constants. *)
Inductive Status : Type :=
  | StatusPending
  | StatusProcessing
  | StatusCompleted
  | StatusFailed.

Definition Status_String (s : Status) : string :=
  match s with
  | StatusPending => "pending"
  | StatusProcessing => "processing"
  | StatusCompleted => "completed"
  | StatusFailed => "failed"
  end.

(** [time.Duration] is a count of nanoseconds; instants are nanoseconds on
    the same axis. *)
Definition Duration : Type := Z.
Definition Instant : Type := Z.
Definition Millisecond : Duration := 1000000.
Definition Second : Duration := 1000 * Millisecond.

Record Config : Type := mkConfig {
  Enabled : bool;
  Timeout : Duration;
  Retries : Z;
  LogLevel : string
}.

Definition DefaultConfig : Config :=
  {| Enabled := true;
     Timeout := 30 * Second;
     Retries := 3;
     LogLevel := "INFO" |}.

Record Result : Type := mkResult {
  r_Status : string;
  r_ProcessedAt : Instant;
  r_DataSize : Z;
  r_ProcessingTime : Duration;
  r_Message : string
}.

Definition set_ProcessingTime (r : Result) (d : Duration) : Result :=
  {| r_Status := r_Status r;
     r_ProcessedAt := r_ProcessedAt r;
     r_DataSize := r_DataSize r;
     r_ProcessingTime := d;
     r_Message := r_Message r |}.

(** The [error] values the file creates or passes on. [Errorf msg] is
    [fmt.Errorf] of a constant, [Errorf_w prefix e] is
    [fmt.Errorf(prefix + "%w", e)], the last two are [context.Canceled]
    and [context.DeadlineExceeded]. *)
Inductive error : Type :=
  | Errorf (msg : string)
  | Errorf_w (prefix : string) (cause : error)
  | Canceled
  | DeadlineExceeded.

(** [err.Error()] *)
Fixpoint Error (e : error) : string :=
  match e with
  | Errorf msg => msg
  | Errorf_w prefix cause => prefix ++ Error cause
  | Canceled => "context canceled"
  | DeadlineExceeded => "context deadline exceeded"
  end.

(** A [context.Context] as far as this file looks at it: the instant at
    which [Done()] is closed ([None]: never) and the value [Err()] has
    from then on. *)
Record Context : Type := mkContext {
  Done_at : option Instant;
  Err_after : error
}.

Definition Background : Context :=
  {| Done_at := None; Err_after := Canceled |}.

Definition WithDeadline (t : Instant) : Context :=
  {| Done_at := Some t; Err_after := DeadlineExceeded |}.

(** [ctx.Done()] is ready at instant [t] *)
Definition Done_ready (ctx : Context) (t : Instant) : bool :=
  match Done_at ctx with
  | None => false
  | Some d => d <=? t
  end.

(** What the program does to the outside: lines given to the logger and,
    as a call counter, the entries into the two pipeline stages. *)
Inductive Event : Type :=
  | Printf (line : string)
  | Enter (fn : string).

(** The clock moves only where the code waits, and then to the earliest
    instant at which the wait can end: [now] is a lower bound of the time
    a real run reads. [coins] are the picks [select] makes when more than
    one of its cases is ready. *)
Record World : Type := mkWorld {
  now : Instant;
  coins : list bool;
  events : list Event
}.

Record Manager : Type := mkManager {
  config : Config;
  status : Status;
  createdAt : Instant
}.

Definition set_status (m : Manager) (s : Status) : Manager :=
  {| config := config m; status := s; createdAt := createdAt m |}.

(** Methods run on the receiver and the world. All of [Process], [Reset],
    [GetStatus] and [Close] hold [m.mu] for their whole body, so each is
    one atomic transformer. *)
Definition M (A : Type) : Type := Eff (Manager * World) A.

Definition on_world (f : World -> World) : M unit :=
  modify (fun s => (fst s, f (snd s))).

Definition emit (e : Event) : M unit :=
  on_world (fun w =>
    {| now := now w; coins := coins w; events := (events w ++ [e])%list |}).

Definition logger_Printf (line : string) : M unit := emit (Printf line).

Definition time_Now : M Instant := gets (fun s => now (snd s)).

Definition time_Since (start : Instant) : M Duration :=
  gets (fun s => now (snd s) - start).

Definition store_status (st : Status) : M unit :=
  modify (fun s => (set_status (fst s) st, snd s)).

(** A wait that ends at [t] at the earliest *)
Definition sleep_until (t : Instant) : M unit :=
  on_world (fun w =>
    {| now := Z.max (now w) t; coins := coins w; events := events w |}).

(** One pick of [select] among several ready cases; [true] is the first
    case in source order. With no pick left the first case is taken. *)
Definition flip : M bool :=
  fun s =>
    let w := snd s in
    match coins w with
    | [] => (true, s)
    | c :: cs =>
        (c, (fst s, {| now := now w; coins := cs; events := events w |}))
    end.

(** Which case of
    [select { case <-time.After(d): ...; case <-ctx.Done(): ... }]
    runs: the one that becomes ready first; [true] is the timer. *)
Definition select_After_or_Done (d : Duration) (ctx : Context) : M bool :=
  t0 <- time_Now ;;
  match Done_at ctx with
  | None => sleep_until (t0 + d) ;; ret true
  | Some dl =>
      if dl <? t0 + d then sleep_until dl ;; ret false
      else if t0 + d <? dl then sleep_until (t0 + d) ;; ret true
      else sleep_until (t0 + d) ;; flip
  end.

Section Methods.

(** The payload is an [interface{}]: [None] is [nil], [Some d] any other
    value; [fmt_v d] is [fmt.Sprintf("%v", d)]. *)
Variable Data : Type.
Variable fmt_v : Data -> string.

Definition setupLogging : M unit :=
  logger_Printf "Initialized configuration manager with configuration".

Definition NewManager (cfg : option Config) (w : World) : Manager * World :=
  let cfg := match cfg with None => DefaultConfig | Some c => c end in
  let manager :=
    {| config := cfg; status := StatusPending; createdAt := now w |} in
  snd (setupLogging (manager, w)).

Definition Validate (data : option Data) : M (option error) :=
  emit (Enter "Validate") ;;
  match data with
  | None =>
      logger_Printf "Validation failed: data is nil" ;;
      ret (Some (Errorf "data cannot be nil"))
  | Some _ =>
      logger_Printf "Data validation passed" ;;
      ret None
  end.

Definition executeProcessing (ctx : Context) (data : option Data)
  : M (option Result * option error) :=
  emit (Enter "executeProcessing") ;;
  timer <- select_After_or_Done (100 * Millisecond) ctx ;;
  if timer then
    let dataStr := match data with None => "<nil>" | Some d => fmt_v d end in
    t <- time_Now ;;
    ret (Some {| r_Status := "success";
                 r_ProcessedAt := t;
                 r_DataSize := Z.of_nat (String.length dataStr);
                 r_ProcessingTime := 0;
                 r_Message := "Configuration processing completed successfully" |},
         None)
  else ret (None, Some (Err_after ctx)).

Definition Process (ctx : Context) (data : option Data)
  : M (option Result * option error) :=
  start <- time_Now ;;
  logger_Printf "Starting configuration processing" ;;
  store_status StatusProcessing ;;
  verr <- Validate data ;;
  match verr with
  | Some err =>
      store_status StatusFailed ;;
      logger_Printf ("Configuration processing failed: " ++ Error err) ;;
      ret (None, Some (Errorf_w "validation failed: " err))
  | None =>
      out <- executeProcessing ctx data ;;
      match out with
      | (_, Some err) =>
          store_status StatusFailed ;;
          logger_Printf ("Configuration processing failed: " ++ Error err) ;;
          ret (None, Some (Errorf_w "processing failed: " err))
      | (Some result, None) =>
          dt <- time_Since start ;;
          store_status StatusCompleted ;;
          logger_Printf "Configuration processing completed successfully" ;;
          ret (Some (set_ProcessingTime result dt), None)
      | (None, None) =>
          (* [result.ProcessingTime = ...] on a nil pointer; never produced
             by [executeProcessing] (see [executeProcessing_shape]) *)
          ret (None, None)
      end
  end.

(** The value the goroutine of [ProcessAsync] has for the channel: the
    result of [Process], or a result made from its error, whose other
    fields keep their zero values. *)
Definition async_result (out : option Result * option error) : option Result :=
  match out with
  | (_, Some err) =>
      Some {| r_Status := "error";
              r_ProcessedAt := 0;
              r_DataSize := 0;
              r_ProcessingTime := 0;
              r_Message := Error err |}
  | (result, None) => result
  end.

(** What a receive from the channel of [ProcessAsync] yields once the
    goroutine has ended: the value sent, or [nil] when the channel was
    closed empty. The buffer has room for one value, so the send case of
    the final [select] is always ready; [ctx.Done()] is a second ready
    case when the context is done by then. *)
Definition ProcessAsync (ctx : Context) (data : option Data)
  : M (option Result) :=
  out <- Process ctx data ;;
  let result := async_result out in
  t <- time_Now ;;
  if Done_ready ctx t then
    send <- flip ;;
    if send then ret result else ret None
  else ret result.

Definition GetStatus : M Status := gets (fun s => status (fst s)).

Definition Reset : M unit :=
  store_status StatusPending ;;
  logger_Printf "Configuration manager reset completed".

Definition Close : M (option error) :=
  logger_Printf "Configuration manager closing" ;;
  ret None.

End Methods.

Arguments Validate {Data} data.
Arguments executeProcessing {Data} fmt_v ctx data.
Arguments Process {Data} fmt_v ctx data.
Arguments ProcessAsync {Data} fmt_v ctx data.

(** How often [fn] was entered *)
Fixpoint entries (fn : string) (evs : list Event) : nat :=
  match evs with
  | [] => O
  | Enter f :: rest =>
      if String.eqb f fn then S (entries fn rest) else entries fn rest
  | Printf _ :: rest => entries fn rest
  end.

End Go.

(* ===================================================================== *)
(** ** Java: [MonitoringManager] and [ConfigurationManager]               *)
(* ===================================================================== *)

(** The two classes are the same text up to the domain word in their name
    and log lines, which is a parameter here. [status] is a [volatile]
    field written without any lock, so a method is modelled both as a
    whole (run alone) and as the steps between which other threads can
    run. *)
Module Java.

Inductive Status : Type :=
  | PENDING
  | PROCESSING
  | COMPLETED
  | FAILED.

(** A [String] reference: [setLogLevel(String)] takes [null] as well as a
    string. *)
Inductive StringRef : Type :=
  | null
  | ref (s : string).

Record Config : Type := mkConfig {
  enabled : bool;
  timeout : Z;
  retries : Z;
  logLevel : StringRef
}.

(** [new Config()]: the field initialisers *)
Definition new_Config : Config :=
  {| enabled := true; timeout := 30; retries := 3; logLevel := ref "INFO" |}.

(** A thrown object: its class, the text [getMessage()] renders to in a
    string concatenation, and whether it is an instance of
    [java.lang.Exception], which is what [catch (Exception e)] asks: a
    [java.lang.Error] ([StackOverflowError], [OutOfMemoryError], ...) is
    not. *)
Record Throwable : Type := mkThrowable {
  exn_class : string;
  getMessage : string;
  is_Exception : bool
}.

Inductive Exc (A : Type) : Type :=
  | Returned (a : A)
  | Thrown (e : Throwable).
Arguments Returned {A} a.
Arguments Thrown {A} e.

(** The [Map<String, Object>] of [executeProcessing], which always has
    the same four keys. *)
Record Result : Type := mkResult {
  r_status : string;
  r_processedAt : Z;
  r_dataSize : Z;
  r_processingTime : Z
}.

(** [java.util.logging.Level] by its integer value *)
Definition Level : Type := Z.
Definition SEVERE : Level := 1000.
Definition WARNING : Level := 900.
Definition INFO : Level := 800.
Definition FINE : Level := 500.

Inductive Event : Type :=
  | SetLevel (l : Level)
  | Log (l : Level) (msg : string).

Record World : Type := mkWorld {
  now : Z;
  events : list Event
}.

Record Manager : Type := mkManager {
  config : Config;
  status : Status;
  createdAt : Z
}.

Definition set_status (m : Manager) (s : Status) : Manager :=
  {| config := config m; status := s; createdAt := createdAt m |}.

Definition M (A : Type) : Type := Eff (Manager * World) A.

Definition emit (e : Event) : M unit :=
  modify (fun s =>
    (fst s, {| now := now (snd s); events := (events (snd s) ++ [e])%list |})).

Definition LOGGER_log (l : Level) (msg : string) : M unit := emit (Log l msg).

Definition store_status (st : Status) : M unit :=
  modify (fun s => (set_status (fst s) st, snd s)).

Definition LocalDateTime_now : M Z := gets (fun s => now (snd s)).

Section Methods.

(** [Domain] and [domain] are the capitalised and the lower-case domain
    word ("Monitoring"/"monitoring"). The payload is an [Object]: [None]
    is [null]; [toString d] is what evaluating [d.toString().length()]
    does up to the length: it gives the string, or throws, be it an
    exception or an error. [Level_parse_other] is [Level.parse] on a string
    that is none of the standard level names ([None]: it throws
    [IllegalArgumentException]). *)
Variable Domain domain : string.
Variable Data : Type.
Variable toString : Data -> Exc string.
Variable Level_parse_other : string -> option Level.

Definition Level_parse (name : string) : option Level :=
  if String.eqb name "OFF" then Some 2147483647
  else if String.eqb name "SEVERE" then Some SEVERE
  else if String.eqb name "WARNING" then Some WARNING
  else if String.eqb name "INFO" then Some INFO
  else if String.eqb name "CONFIG" then Some 700
  else if String.eqb name "FINE" then Some FINE
  else if String.eqb name "FINER" then Some 400
  else if String.eqb name "FINEST" then Some 300
  else if String.eqb name "ALL" then Some (-2147483648)
  else Level_parse_other name.

(** [Level.parse(null)] throws [NullPointerException] (rendered here with
    no detail message). *)
Definition setupLogging : M (Exc unit) :=
  cfg <- gets (fun s => config (fst s)) ;;
  match logLevel cfg with
  | null =>
      ret (Thrown {| exn_class := "NullPointerException";
                     getMessage := "null";
                     is_Exception := true |})
  | ref name =>
      match Level_parse name with
      | None =>
          ret (Thrown {| exn_class := "IllegalArgumentException";
                         getMessage := "Bad level " ++ quoted name;
                         is_Exception := true |})
      | Some level =>
          emit (SetLevel level) ;;
          LOGGER_log INFO ("Initialized " ++ Domain ++ "Manager with configuration") ;;
          ret (Returned tt)
      end
  end.

(** [new MonitoringManager(config)]; the no-argument constructor passes
    [new Config()]. *)
Definition new_Manager (cfg : option Config) (w : World) : Exc Manager * World :=
  let this :=
    {| config := match cfg with Some c => c | None => new_Config end;
       status := PENDING;
       createdAt := now w |} in
  match setupLogging (this, w) with
  | (Returned _, (this, w)) => (Returned this, w)
  | (Thrown e, (_, w)) => (Thrown e, w)
  end.

Definition validate (data : option Data) : M bool :=
  match data with
  | None => LOGGER_log WARNING "Validation failed: data is null" ;; ret false
  | Some _ => LOGGER_log FINE "Data validation passed" ;; ret true
  end.

Definition executeProcessing (data : option Data) : M (Exc Result) :=
  t <- LocalDateTime_now ;;
  match data with
  | None =>
      ret (Thrown {| exn_class := "NullPointerException";
                     getMessage := "null";
                     is_Exception := true |})
  | Some d =>
      match toString d with
      | Thrown e => ret (Thrown e)
      | Returned s =>
          ret (Returned {| r_status := "success";
                           r_processedAt := t;
                           r_dataSize := Z.of_nat (String.length s);
                           r_processingTime := 100 |})
      end
  end.

(** The [catch (Exception e)] block of [process] *)
Definition process_catch (e : Throwable) : M (Exc Result) :=
  store_status FAILED ;;
  LOGGER_log SEVERE (Domain ++ " processing failed") ;;
  ret (Thrown {| exn_class := "RuntimeException";
                 getMessage := "Processing failed: " ++ getMessage e;
                 is_Exception := true |}).

(** [process] up to and including [status = Status.PROCESSING] *)
Definition process_begin : M unit :=
  LOGGER_log INFO ("Starting " ++ domain ++ " processing") ;;
  store_status PROCESSING.

(** The rest of [process]. It ends in the write of [COMPLETED] or of
    [FAILED], unless what [executeProcessing] throws is no [Exception]:
    the [catch] clause does not take it, and it leaves [process] as it
    is, with nothing written. *)
Definition process_rest (data : option Data) : M (Exc Result) :=
  ok <- validate data ;;
  if negb ok then
    process_catch {| exn_class := "IllegalArgumentException";
                     getMessage := "Data validation failed";
                     is_Exception := true |}
  else
    out <- executeProcessing data ;;
    match out with
    | Thrown e => if is_Exception e then process_catch e else ret (Thrown e)
    | Returned result =>
        store_status COMPLETED ;;
        LOGGER_log INFO (Domain ++ " processing completed successfully") ;;
        ret (Returned result)
    end.

Definition process (data : option Data) : M (Exc Result) :=
  process_begin ;; process_rest data.

Definition getStatus : M Status := gets (fun s => status (fst s)).

Definition reset : M unit :=
  store_status PENDING ;;
  LOGGER_log INFO (Domain ++ " manager reset completed").

(** *** Threads on one manager *)

(** Where a thread that runs one method stands. *)
Inductive Thread : Type :=
  | at_process_begin (data : option Data)
  | at_process_rest (data : option Data)
  | at_reset
  | process_done (out : Exc Result)
  | reset_done.

(** One step of a thread: up to its next write of [status]. *)
Definition step (t : Thread) : M Thread :=
  match t with
  | at_process_begin data => process_begin ;; ret (at_process_rest data)
  | at_process_rest data => out <- process_rest data ;; ret (process_done out)
  | at_reset => reset ;; ret reset_done
  | process_done out => ret (process_done out)
  | reset_done => ret reset_done
  end.

Inductive Op : Type := OpProcess | OpReset.

Definition running (t : Thread) : option Op :=
  match t with
  | at_process_begin _ | at_process_rest _ => Some OpProcess
  | at_reset => Some OpReset
  | process_done _ | reset_done => None
  end.

Record System : Type := mkSystem {
  shared : Manager * World;
  threads : list Thread
}.

Fixpoint set_nth {A : Type} (i : nat) (x : A) (l : list A) : list A :=
  match l, i with
  | [], _ => []
  | _ :: l', O => x :: l'
  | y :: l', S i' => y :: set_nth i' x l'
  end.

(** A status change: who made it, the status before and after. *)
Definition Change : Type := Op * Status * Status.

(** Thread [i] makes its next step; a finished or absent thread makes
    none. *)
Definition schedule1 (i : nat) (sys : System) : System * list Change :=
  match nth_error (threads sys) i with
  | None => (sys, [])
  | Some t =>
      match running t with
      | None => (sys, [])
      | Some op =>
          let '(t', sh') := step t (shared sys) in
          ({| shared := sh'; threads := set_nth i t' (threads sys) |},
           [(op, status (fst (shared sys)), status (fst sh'))])
      end
  end.

(** The threads step in the order the schedule names them. *)
Fixpoint schedule (order : list nat) (sys : System) : System * list Change :=
  match order with
  | [] => (sys, [])
  | i :: rest =>
      let '(sys1, c1) := schedule1 i sys in
      let '(sys2, c2) := schedule rest sys1 in
      (sys2, (c1 ++ c2)%list)
  end.

End Methods.

Arguments at_process_begin {Data} data.
Arguments at_process_rest {Data} data.
Arguments at_reset {Data}.
Arguments process_done {Data} out.
Arguments reset_done {Data}.
Arguments running {Data} t.
Arguments shared {Data} s.
Arguments threads {Data} s.
Arguments mkSystem {Data} shared threads.

(** The status machine as the specification draws it: [process] takes
    [PENDING] to [PROCESSING] and [PROCESSING] to a terminal status,
    [reset] takes a status that is not [PROCESSING] to [PENDING]. *)
Definition spec_allows (op : Op) (before after : Status) : bool :=
  match op, before, after with
  | OpProcess, PENDING, PROCESSING
  | OpProcess, PROCESSING, COMPLETED
  | OpProcess, PROCESSING, FAILED
  | OpReset, PENDING, PENDING
  | OpReset, COMPLETED, PENDING
  | OpReset, FAILED, PENDING => true
  | _, _, _ => false
  end.

End Java.

(* ===================================================================== *)
(** ** JavaScript: [ApiManager] ([api_manager_188.js])                    *)
(* ===================================================================== *)

(** JavaScript runs one task at a time: an [async] method runs without
    interruption up to its [await], and goes on in a later task. The event
    loop below has the manager, the timers set by [executeProcessing] and
    the promises already settled. *)
Module Js.

(** The strings of [API_STATUS] *)
Inductive Status : Type :=
  | PENDING
  | PROCESSING
  | COMPLETED
  | FAILED.

Definition API_STATUS (s : Status) : string :=
  match s with
  | PENDING => "pending"
  | PROCESSING => "processing"
  | COMPLETED => "completed"
  | FAILED => "failed"
  end.

Record Config : Type := mkConfig {
  enabled : bool;
  timeout : Z;
  retries : Z;
  logLevel : string
}.

(** The [config] argument of the constructor: the properties it has *)
Record Options : Type := mkOptions {
  o_enabled : option bool;
  o_timeout : option Z;
  o_retries : option Z;
  o_logLevel : option string
}.

Definition no_options : Options :=
  {| o_enabled := None; o_timeout := None; o_retries := None;
     o_logLevel := None |}.

Definition or_default {A : Type} (o : option A) (d : A) : A :=
  match o with Some a => a | None => d end.

Record Result : Type := mkResult {
  r_status : string;
  r_processedAt : Z;
  r_dataSize : Z;
  r_processingTime : Z
}.

(** [new Error(message)] *)
Record JsError : Type := mkError { message : string }.

Inductive Event : Type :=
  | Console (level : string) (msg : string).

Record World : Type := mkWorld {
  clock : Z;
  console : list Event
}.

Record Manager : Type := mkManager {
  config : Config;
  status : Status
}.

Definition M (A : Type) : Type := Eff (Manager * World) A.

Definition emit (e : Event) : M unit :=
  modify (fun s =>
    (fst s,
     {| clock := clock (snd s); console := (console (snd s) ++ [e])%list |})).

Definition store_status (st : Status) : M unit :=
  modify (fun s => ({| config := config (fst s); status := st |}, snd s)).

Definition logger_info (msg : string) : M unit := emit (Console "INFO" msg).
Definition logger_warn (msg : string) : M unit := emit (Console "WARN" msg).
Definition logger_error (msg : string) : M unit := emit (Console "ERROR" msg).

Definition logger_debug (msg : string) : M unit :=
  cfg <- gets (fun s => config (fst s)) ;;
  if String.eqb (logLevel cfg) "debug" then emit (Console "DEBUG" msg)
  else ret tt.

(** [new ApiManager(config)]; [undefined] takes the default [{}]. *)
Definition new_ApiManager (cfg : option Options) : Manager :=
  let o := or_default cfg no_options in
  {| config := {| enabled := or_default (o_enabled o) true;
                  timeout := or_default (o_timeout o) 30000;
                  retries := or_default (o_retries o) 3;
                  logLevel := or_default (o_logLevel o) "info" |};
     status := PENDING |}.

(** A value of type [any] *)
Inductive Value (Data : Type) : Type :=
  | Null
  | Undefined
  | Val (d : Data).
Arguments Null {Data}.
Arguments Undefined {Data}.
Arguments Val {Data} d.

Section Methods.

(** [JSON_stringify_length d] is [JSON.stringify(d).length], [None] when
    that expression throws ([JSON.stringify] throws or gives
    [undefined]). *)
Variable Data : Type.
Variable JSON_stringify_length : Data -> option Z.

Definition validate (data : Value Data) : M bool :=
  match data with
  | Null | Undefined =>
      logger_warn "Validation failed: data is null or undefined" ;; ret false
  | Val _ => logger_debug "Data validation passed" ;; ret true
  end.

(** [process] from its call to where it first gives up control: it is
    rejected ([Some error]) or waits for [executeProcessing] ([None]). *)
Definition process_begin (data : Value Data) : M (option JsError) :=
  logger_info "Starting api processing" ;;
  store_status PROCESSING ;;
  ok <- validate data ;;
  if negb ok then
    let error := {| message := "Data validation failed" |} in
    store_status FAILED ;;
    logger_error ("Api processing failed: " ++ message error) ;;
    ret (Some error)
  else ret None.

(** The callback [executeProcessing] gives to [setTimeout]: [None] when
    it throws before [resolve] is called, so that the promise is never
    settled. *)
Definition timer_callback (data : Value Data) : M (option Result) :=
  t <- gets (fun s => clock (snd s)) ;;
  let size :=
    match data with
    | Null => Some 4
    | Undefined => None
    | Val d => JSON_stringify_length d
    end in
  match size with
  | None => ret None
  | Some n =>
      ret (Some {| r_status := "success";
                   r_processedAt := t;
                   r_dataSize := n;
                   r_processingTime := 100 |})
  end.

(** [process] after the [await] *)
Definition process_resume (result : Result) : M Result :=
  store_status COMPLETED ;;
  logger_info "Api processing completed successfully" ;;
  ret result.

Definition getStatus : M Status := gets (fun s => status (fst s)).

Definition reset : M unit :=
  store_status PENDING ;;
  logger_info "Api manager reset completed".

(** *** The event loop *)

Inductive Settled : Type :=
  | Resolved (r : Result)
  | Rejected (e : JsError).

Record Timer : Type := mkTimer {
  due : Z;
  owner : nat;
  payload : Value Data
}.

(** [calls] counts the calls of [process] made so far and names them;
    all timers have the same delay, so they are kept, and fire, in the
    order they were set. *)
Record Loop : Type := mkLoop {
  self : Manager * World;
  timers : list Timer;
  settled : list (nat * Settled);
  calls : nat
}.

Definition start (m : Manager) (t0 : Z) : Loop :=
  {| self := (m, {| clock := t0; console := [] |});
     timers := []; settled := []; calls := O |}.

(** A task that calls [manager.process(data)] *)
Definition call_process (data : Value Data) (l : Loop) : Loop :=
  let id := calls l in
  match process_begin data (self l) with
  | (Some error, s) =>
      {| self := s; timers := timers l;
         settled := (settled l ++ [(id, Rejected error)])%list;
         calls := S id |}
  | (None, s) =>
      {| self := s;
         timers := (timers l ++
                    [{| due := clock (snd s) + 100; owner := id;
                        payload := data |}])%list;
         settled := settled l;
         calls := S id |}
  end.

(** A task that calls [manager.reset()] *)
Definition call_reset (l : Loop) : Loop :=
  {| self := snd (reset (self l)); timers := timers l;
     settled := settled l; calls := calls l |}.

(** The next timer fires: time has moved to when it is due, its callback
    runs, and the [process] that awaited it goes on. *)
Definition fire (l : Loop) : Loop :=
  match timers l with
  | [] => l
  | t :: ts =>
      let '(m, w) := self l in
      let s := (m, {| clock := Z.max (clock w) (due t); console := console w |}) in
      match timer_callback (payload t) s with
      | (None, s') =>
          {| self := s'; timers := ts; settled := settled l; calls := calls l |}
      | (Some result, s') =>
          let '(r, s'') := process_resume result s' in
          {| self := s''; timers := ts;
             settled := (settled l ++ [(owner t, Resolved r)])%list;
             calls := calls l |}
      end
  end.

Inductive Task : Type :=
  | CallProcess (data : Value Data)
  | CallReset
  | Fire.

Definition run1 (l : Loop) (t : Task) : Loop :=
  match t with
  | CallProcess data => call_process data l
  | CallReset => call_reset l
  | Fire => fire l
  end.

Definition run (tasks : list Task) (l : Loop) : Loop :=
  fold_left run1 tasks l.

(** How call [id] of [process] ended, if it has *)
Fixpoint outcome (id : nat) (l : list (nat * Settled)) : option Settled :=
  match l with
  | [] => None
  | (i, s) :: rest => if Nat.eqb i id then Some s else outcome id rest
  end.

End Methods.

Arguments mkTimer {Data} due owner payload.
Arguments due {Data} t.
Arguments owner {Data} t.
Arguments payload {Data} t.
Arguments self {Data} l.
Arguments timers {Data} l.
Arguments settled {Data} l.
Arguments calls {Data} l.
Arguments start {Data} m t0.
Arguments CallProcess {Data} data.
Arguments CallReset {Data}.
Arguments Fire {Data}.

End Js.

(* ===================================================================== *)
(** ** C++: [automation::configuration::ConfigurationManager]             *)
(* ===================================================================== *)

Module Cpp.

Inductive Status : Type :=
  | PENDING
  | PROCESSING
  | COMPLETED
  | FAILED.

Record Config : Type := mkConfig {
  enabled : bool;
  timeout : Z;
  retries : Z;
  logLevel : string
}.

(** [Config() = default] *)
Definition Config_default : Config :=
  {| enabled := true; timeout := 30; retries := 3; logLevel := "INFO" |}.

(** A [std::exception]: its class and [what()] *)
Record exception : Type := mkException {
  exn_class : string;
  what : string
}.

Inductive Exc (A : Type) : Type :=
  | Returned (a : A)
  | Thrown (e : exception).
Arguments Returned {A} a.
Arguments Thrown {A} e.

(** The [unordered_map] of [executeProcessing] with its four keys. The
    values of "processedAt" and "dataSize" are [std::to_string] of the
    numbers kept here. *)
Record Result : Type := mkResult {
  r_status : string;
  r_processedAt : Z;
  r_dataSize : Z;
  r_processingTime : string
}.

Inductive Event : Type :=
  | Cout (level : string) (msg : string)
  | Cerr (level : string) (msg : string).

Record World : Type := mkWorld {
  now : Z;
  output : list Event
}.

Record Manager : Type := mkManager {
  config_ : Config;
  status_ : Status;
  createdAt_ : Z
}.

Definition M (A : Type) : Type := Eff (Manager * World) A.

Definition emit (e : Event) : M unit :=
  modify (fun s =>
    (fst s, {| now := now (snd s); output := (output (snd s) ++ [e])%list |})).

Definition store_status (st : Status) : M unit :=
  modify (fun s =>
    ({| config_ := config_ (fst s); status_ := st;
        createdAt_ := createdAt_ (fst s) |}, snd s)).

Definition getCurrentTimestamp : M Z := gets (fun s => now (snd s)).

Definition new_ConfigurationManager (cfg : Config) (w : World)
  : Manager * World :=
  let this := {| config_ := cfg; status_ := PENDING; createdAt_ := now w |} in
  snd (emit (Cout "INFO" "Initialized ConfigurationManager with configuration")
         (this, w)).

Definition validate (data : string) : M bool :=
  if String.eqb data EmptyString then
    emit (Cout "WARN" "Validation failed: data is empty") ;; ret false
  else emit (Cout "DEBUG" "Data validation passed") ;; ret true.

Definition executeProcessing (data : string) : M Result :=
  t <- getCurrentTimestamp ;;
  ret {| r_status := "success";
         r_processedAt := t;
         r_dataSize := Z.of_nat (String.length data);
         r_processingTime := "100" |}.

Definition process (data : string) : M (Exc Result) :=
  emit (Cout "INFO" "Starting configuration processing") ;;
  store_status PROCESSING ;;
  ok <- validate data ;;
  if negb ok then
    let e := {| exn_class := "std::invalid_argument";
                what := "Data validation failed" |} in
    store_status FAILED ;;
    emit (Cerr "ERROR" ("Configuration processing failed: " ++ what e)) ;;
    ret (Thrown e)
  else
    result <- executeProcessing data ;;
    store_status COMPLETED ;;
    emit (Cout "INFO" "Configuration processing completed successfully") ;;
    ret (Returned result).

(** The shared state of a [std::future]: a value or a stored exception,
    which [get()] returns or rethrows. *)
Inductive future (A : Type) : Type :=
  | has_value (a : A)
  | has_exception (e : exception).
Arguments has_value {A} a.
Arguments has_exception {A} e.

Definition future_get {A : Type} (f : future A) : Exc A :=
  match f with
  | has_value a => Returned a
  | has_exception e => Thrown e
  end.

(** [std::async(std::launch::async, [this, data] { return
    this->process(data); })], once the task has run *)
Definition processAsync (data : string) : M (future Result) :=
  out <- process data ;;
  match out with
  | Returned r => ret (has_value r)
  | Thrown e => ret (has_exception e)
  end.

Definition getStatus : M Status := gets (fun s => status_ (fst s)).

Definition reset : M unit :=
  store_status PENDING ;;
  emit (Cout "INFO" "Configuration manager reset completed").

End Cpp.

(* ===================================================================== *)
(** ** TypeScript: [ApiService] (the poller)                              *)
(* ===================================================================== *)

Module Api.

(** [enum ReviewStatus] *)
Inductive ReviewStatus : Type :=
  | PENDING
  | PROCESSING
  | COMPLETED
  | FAILED.

Definition ReviewStatus_value (s : ReviewStatus) : string :=
  match s with
  | PENDING => "pending"
  | PROCESSING => "processing"
  | COMPLETED => "completed"
  | FAILED => "failed"
  end.

(** A value found in a parsed JSON body, as far as the code tells values
    apart: a string, or any other value, of which only its truthiness is
    looked at (an array or an object is truthy; [null], [false] and [0]
    are not). *)
Inductive Json : Type :=
  | JString (s : string)
  | JOther (truthy : bool).

(** What [v || ...] asks of [v]: the empty string is falsy *)
Definition truthy (v : Json) : bool :=
  match v with
  | JString s => negb (String.eqb s EmptyString)
  | JOther b => b
  end.

(** The object [handleResponse] throws. It is declared as an
    [interface ApiError], with a string [error] and an optional string
    [detail]; what its fields hold is what the body of the response has,
    of whatever type. *)
Record ApiError : Type := mkApiError {
  error : Json;
  detail : option Json;
  http_status : Z
}.

(** What a rejected promise carries: the [ApiError] object thrown by
    [handleResponse], or an [Error] (of [fetch], of [response.json()], of
    the progress callback, or the one made by [pollReview]). *)
Inductive Thrown : Type :=
  | ThrowApiError (e : ApiError)
  | ThrowError (message : string).

(** The body of a response that is not [ok], parsed: its [error] and
    [detail] properties, [None] where it has none. The backend's own
    errors have a string [detail]; the validation errors of its
    framework have an array there. *)
Record ErrorData : Type := mkErrorData {
  e_error : option Json;
  e_detail : option Json
}.

(** [API_CONFIG] as far as [ApiService] reads it *)
Record ApiConfig : Type := mkApiConfig {
  BASE_URL : string;
  ENDPOINTS_UPLOAD : string;
  ENDPOINTS_REVIEW : string;
  ENDPOINTS_HEALTH : string;
  POLL_INTERVAL : Z;
  MAX_POLL_ATTEMPTS : Z
}.

(** The constants of the application, [VITE_API_BASE_URL] not set *)
Definition API_CONFIG : ApiConfig :=
  {| BASE_URL := "http://localhost:8000";
     ENDPOINTS_UPLOAD := "/api/upload";
     ENDPOINTS_REVIEW := "/api/review";
     ENDPOINTS_HEALTH := "/api/health";
     POLL_INTERVAL := 2000;
     MAX_POLL_ATTEMPTS := 60 |}.

(** What the service does to the outside *)
Inductive Effect : Type :=
  | Fetch (method : string) (url : string)
  | Progress (s : ReviewStatus)
  | SetTimeout (ms : Z).

(** The number of requests among some effects *)
Fixpoint fetches (l : list Effect) : nat :=
  match l with
  | [] => O
  | Fetch _ _ :: rest => S (fetches rest)
  | _ :: rest => fetches rest
  end.

(** [a || b] on properties that may be absent *)
Definition or_else (a : option Json) (b : option Json) : option Json :=
  match a with
  | Some v => if truthy v then Some v else b
  | None => b
  end.

Section Service.

(** [CVReview] is carried and never looked into. *)
Variable CVReview : Type.

(** [interface ReviewResponse] *)
Record ReviewResponse : Type := mkReviewResponse {
  review_id : string;
  status : ReviewStatus;
  review : option CVReview;
  error_message : option string;
  created_at : string
}.

(** A [Response]: [ok] with its body parsed as JSON ([inl]: the message of
    the error [response.json()] rejects with), or not [ok] with status,
    status text and parsed body. *)
Inductive Response : Type :=
  | Ok (json : string + ReviewResponse)
  | NotOk (code : Z) (statusText : string) (json : option ErrorData).

(** What [fetch] settles to *)
Inductive Fetched : Type :=
  | Rejects (message : string)
  | Responds (r : Response).

(** The backend as the client sees it: what the n-th request gets. *)
Definition Server : Type := nat -> Fetched.

Record World : Type := mkWorld {
  sent : nat;
  effects : list Effect
}.

Definition P (A : Type) : Type := Eff World A.

Definition emit (e : Effect) : P unit :=
  modify (fun w => {| sent := sent w; effects := (effects w ++ [e])%list |}).

Variable cfg : ApiConfig.
Variable server : Server.

Definition fetch (method url : string) : P Fetched :=
  n <- gets sent ;;
  modify (fun w =>
    {| sent := S (sent w);
       effects := (effects w ++ [Fetch method url])%list |}) ;;
  ret (server n).

Definition handleResponse (response : Response) : Thrown + ReviewResponse :=
  match response with
  | NotOk code statusText json =>
      let error0 :=
        {| error := JString statusText; detail := None; http_status := code |} in
      inl (ThrowApiError
        match json with
        | None => error0
        | Some errorData =>
            {| error :=
                 match or_else (or_else (e_error errorData) (e_detail errorData))
                               (Some (JString statusText)) with
                 | Some v => v
                 | None => JString statusText
                 end;
               detail := e_detail errorData;
               http_status := code |}
        end)
  | Ok (inl msg) => inl (ThrowError msg)
  | Ok (inr body) => inr body
  end.

Definition review_url (reviewId : string) : string :=
  BASE_URL cfg ++ ENDPOINTS_REVIEW cfg ++ "/" ++ reviewId.

Definition getReview (reviewId : string) : P (Thrown + ReviewResponse) :=
  f <- fetch "GET" (review_url reviewId) ;;
  match f with
  | Rejects msg => ret (inl (ThrowError msg))
  | Responds r => ret (handleResponse r)
  end.

Definition terminal (s : ReviewStatus) : bool :=
  match s with
  | COMPLETED | FAILED => true
  | PENDING | PROCESSING => false
  end.

(** The optional callback: [None] when it returns, [Some e] when it
    throws [e]. *)
Definition Callback : Type := ReviewStatus -> option Thrown.

Definition call_onProgress (onProgress : option Callback) (s : ReviewStatus)
  : P (option Thrown) :=
  match onProgress with
  | None => ret None
  | Some f => emit (Progress s) ;; ret (f s)
  end.

Definition sleep (ms : Z) : P unit := emit (SetTimeout ms).

(** How [pollReview] ends *)
Inductive Outcome : Type :=
  | Returns (r : ReviewResponse)
  | Throws (e : Thrown).

(** The [while] loop of [pollReview] from the test of its condition, with
    [attempts] the value of the counter; [None] when [fuel] iterations
    were not enough. *)
Fixpoint poll_loop (fuel : nat) (reviewId : string)
    (onProgress : option Callback) (maxAttempts attempts : Z)
    : P (option Outcome) :=
  match fuel with
  | O => ret None
  | S fuel' =>
      if attempts <? maxAttempts then
        let catch (error : Thrown) : P (option Outcome) :=
          if attempts >=? maxAttempts - 1 then ret (Some (Throws error))
          else
            sleep (POLL_INTERVAL cfg) ;;
            poll_loop fuel' reviewId onProgress maxAttempts (attempts + 1) in
        got <- getReview reviewId ;;
        match got with
        | inl error => catch error
        | inr review =>
            thrown <- call_onProgress onProgress (status review) ;;
            match thrown with
            | Some error => catch error
            | None =>
                if terminal (status review) then ret (Some (Returns review))
                else
                  sleep (POLL_INTERVAL cfg) ;;
                  poll_loop fuel' reviewId onProgress maxAttempts (attempts + 1)
            end
        end
      else ret (Some (Throws (ThrowError "Review processing timeout")))
  end.

(** Every iteration adds one to [attempts], so this many suffice. *)
Definition enough_fuel (maxAttempts : Z) : nat := S (Z.to_nat maxAttempts).

Definition pollReview (reviewId : string) (onProgress : option Callback)
  : P (option Outcome) :=
  let maxAttempts := MAX_POLL_ATTEMPTS cfg in
  poll_loop (enough_fuel maxAttempts) reviewId onProgress maxAttempts 0.

(** What the n-th request for a review comes to in [getReview] *)
Definition observe (n : nat) : Thrown + ReviewResponse :=
  match server n with
  | Rejects msg => inl (ThrowError msg)
  | Responds r => handleResponse r
  end.

(** The effects of one round of the loop that sees a status which is not
    terminal: the request, the callback if there is one, the wait. *)
Definition round (reviewId : string) (onProgress : option Callback)
    (r : ReviewResponse) : list Effect :=
  Fetch "GET" (review_url reviewId)
  :: match onProgress with
     | Some _ => [Progress (status r)]
     | None => []
     end
  ++ [SetTimeout (POLL_INTERVAL cfg)].

(** The effects of the round that sees a terminal status *)
Definition last_round (reviewId : string) (onProgress : option Callback)
    (r : ReviewResponse) : list Effect :=
  Fetch "GET" (review_url reviewId)
  :: match onProgress with
     | Some _ => [Progress (status r)]
     | None => []
     end.

(** Requests [n], [n+1], ... are answered with the reviews [revs]. *)
Definition observed (n : nat) (revs : list ReviewResponse) : Prop :=
  forall (i : nat) (r : ReviewResponse),
    nth_error revs i = Some r -> observe (n + i) = inr r.

(** The callback, if there is one, never throws. *)
Definition quiet (onProgress : option Callback) : Prop :=
  match onProgress with
  | None => True
  | Some f => forall s, f s = None
  end.

(** An effect the poller may have: a GET of the review, a progress
    callback, a wait of the configured interval. *)
Definition poll_effect (reviewId : string) (e : Effect) : Prop :=
  match e with
  | Fetch method url => method = "GET" /\ url = review_url reviewId
  | Progress _ => True
  | SetTimeout ms => ms = POLL_INTERVAL cfg
  end.

(** The world after the request [getReview] makes *)
Definition after_get (reviewId : string) (w : World) : World :=
  {| sent := S (sent w);
     effects := (effects w ++ [Fetch "GET" (review_url reviewId)])%list |}.

(** What the loop has done when it ends in the result [res], started in
    [w]: [new] are the effects it added, with at most [bound] requests
    among them. *)
Definition ends_with (reviewId : string) (bound : nat) (w : World)
    (res : option Outcome * World) : Prop :=
  exists (out : Outcome) (new : list Effect),
    res = (Some out,
           {| sent := (sent w + fetches new)%nat;
              effects := (effects w ++ new)%list |}) /\
    (fetches new <= bound)%nat /\
    Forall (poll_effect reviewId) new.

End Service.

Arguments mkReviewResponse {CVReview} review_id status review error_message created_at.
Arguments review_id {CVReview} r.
Arguments status {CVReview} r.
Arguments Ok {CVReview} json.
Arguments NotOk {CVReview} code statusText json.
Arguments Rejects {CVReview} message.
Arguments Responds {CVReview} r.
Arguments Returns {CVReview} r.
Arguments Throws {CVReview} e.

End Api.

(* ===================================================================== *)
(** ** Go: the manager in use                                             *)
(* ===================================================================== *)

(** The rest of [configuration_manager_54.go] and the calls a user makes
    on one manager, one after the other. *)
Module GoUse.

Import Go.

(** [GetConfig] and [GetCreatedAt] read fields that are written once, in
    [NewManager]; they take no lock. *)
Definition GetConfig : M Config := gets (fun s => config (fst s)).

Definition GetCreatedAt : M Instant := gets (fun s => createdAt (fst s)).

Definition CreateConfigurationManager (w : World) : Manager * World :=
  NewManager (Some DefaultConfig) w.

Definition CreateConfigurationManagerWithConfig (cfg : option Config)
    (w : World) : Manager * World :=
  NewManager cfg w.

Section Calls.

Variable Data : Type.
Variable fmt_v : Data -> string.

(** A call on the manager, or time that passes between two calls *)
Inductive Call : Type :=
  | CallProcess (ctx : Context) (data : option Data)
  | CallProcessAsync (ctx : Context) (data : option Data)
  | CallGetStatus
  | CallReset
  | CallClose
  | CallGetConfig
  | CallGetCreatedAt
  | Elapse (d : Duration).

(** What the caller gets back *)
Inductive Reply : Type :=
  | Processed (out : option Result * option error)
  | Received (h : option Result)
  | StatusIs (st : Status)
  | ResetDone
  | Closed (err : option error)
  | ConfigIs (c : Config)
  | CreatedAtIs (t : Instant)
  | Elapsed.

Definition call (c : Call) : M Reply :=
  match c with
  | CallProcess ctx data => out <- Process fmt_v ctx data ;; ret (Processed out)
  | CallProcessAsync ctx data =>
      h <- ProcessAsync fmt_v ctx data ;; ret (Received h)
  | CallGetStatus => st <- GetStatus ;; ret (StatusIs st)
  | CallReset => Reset ;; ret ResetDone
  | CallClose => err <- Close ;; ret (Closed err)
  | CallGetConfig => c <- GetConfig ;; ret (ConfigIs c)
  | CallGetCreatedAt => t <- GetCreatedAt ;; ret (CreatedAtIs t)
  | Elapse d => t <- time_Now ;; sleep_until (t + d) ;; ret Elapsed
  end.

Fixpoint calls (cs : list Call) : M (list Reply) :=
  match cs with
  | [] => ret []
  | c :: rest => r <- call c ;; rs <- calls rest ;; ret (r :: rs)
  end.

End Calls.

Arguments CallProcess {Data} ctx data.
Arguments CallProcessAsync {Data} ctx data.
Arguments CallGetStatus {Data}.
Arguments CallReset {Data}.
Arguments CallClose {Data}.
Arguments CallGetConfig {Data}.
Arguments CallGetCreatedAt {Data}.
Arguments Elapse {Data} d.
Arguments call {Data} fmt_v c.
Arguments calls {Data} fmt_v cs.

End GoUse.

(* ===================================================================== *)
(** ** Java: threads by the steps they were given                         *)
(* ===================================================================== *)

Module JavaUse.

Import Java.

Section Threads.

Variable Domain domain : string.
Variable Data : Type.
Variable toString : Data -> Exc string.

(** What [process] returns for a payload when the clock reads [t], on a
    new manager *)
Definition returns (data : option Data) (t : Z) : Exc Result :=
  fst (process Domain domain Data toString data
         ({| config := new_Config; status := PENDING; createdAt := t |},
          {| now := t; events := [] |})).

(** Where a thread stands after one more step of its own *)
Definition advance1 (clock : Z) (t : Thread Data) : Thread Data :=
  match t with
  | at_process_begin data => at_process_rest data
  | at_process_rest data => process_done (returns data clock)
  | at_reset => reset_done
  | process_done out => process_done out
  | reset_done => reset_done
  end.

(** Where it stands after [k] steps of its own *)
Fixpoint advance (k : nat) (clock : Z) (t : Thread Data) : Thread Data :=
  match k with
  | O => t
  | S k' => advance k' clock (advance1 clock t)
  end.

End Threads.

End JavaUse.

(* ===================================================================== *)
(** ** JavaScript: the calls the event loop knows                         *)
(* ===================================================================== *)

Module JsUse.

Import Js.

(** The calls that wait for their timer, then the calls already settled *)
Definition known {Data : Type} (l : Loop Data) : list nat :=
  (map owner (timers l) ++ map fst (settled l))%list.

(** No call is known twice, and every known call was made. *)
Definition consistent {Data : Type} (l : Loop Data) : Prop :=
  NoDup (known l) /\ Forall (fun id => (id < calls l)%nat) (known l).

End JsUse.

(* ===================================================================== *)
(** ** TypeScript: the shape of what the poller does                      *)
(* ===================================================================== *)

Module ApiUse.

Import Api.

(** The time waited among some effects, in milliseconds *)
Fixpoint total_wait (l : list Effect) : Z :=
  match l with
  | [] => 0
  | SetTimeout ms :: rest => ms + total_wait rest
  | _ :: rest => total_wait rest
  end.

(** The number of waits among some effects *)
Fixpoint waits (l : list Effect) : nat :=
  match l with
  | [] => O
  | SetTimeout _ :: rest => S (waits rest)
  | _ :: rest => waits rest
  end.

(** The callback's part of a round: nothing, or one call *)
Inductive callback_part : list Effect -> Prop :=
  | no_callback : callback_part []
  | one_callback (s : ReviewStatus) : callback_part [Progress s].

(** The effects of a poll, round by round: a round is a GET of the review,
    then the callback; the last round ends there, every other round ends
    in a wait of [interval]. *)
Inductive rounds (url : string) (interval : Z) : list Effect -> Prop :=
  | rounds_none : rounds url interval []
  | rounds_last (cb : list Effect) :
      callback_part cb ->
      rounds url interval (Fetch "GET" url :: cb)
  | rounds_more (cb rest : list Effect) :
      callback_part cb ->
      rounds url interval rest ->
      rounds url interval
        (Fetch "GET" url :: cb ++ SetTimeout interval :: rest).

End ApiUse.

(* ===================================================================== *)
(** ** TypeScript: [utils/helpers.ts]                                     *)
(* ===================================================================== *)

Module Helpers.

(** A [File] as far as [validateFile] reads it *)
Record File : Type := mkFile {
  name : string;
  type : string;
  size : Z
}.

(** [FILE_CONFIG] *)
Record FileConfig : Type := mkFileConfig {
  MAX_SIZE : Z;
  ALLOWED_TYPES : list string;
  ALLOWED_EXTENSIONS : list string
}.

Definition FILE_CONFIG : FileConfig :=
  {| MAX_SIZE := 10 * 1024 * 1024;
     ALLOWED_TYPES := ["application/pdf"];
     ALLOWED_EXTENSIONS := [".pdf"] |}.

(** [Array.prototype.includes] on strings *)
Definition includes (l : list string) (x : string) : bool :=
  existsb (String.eqb x) l.

(** [{ isValid, error? }] *)
Record Validation : Type := mkValidation {
  isValid : bool;
  v_error : option string
}.

Section ValidateFile.

(** [formatFileSize] works on floating point logarithms; it is taken as it
    is. *)
Variable formatFileSize : Z -> string.

Definition validateFile (file : File) : Validation :=
  if negb (includes (ALLOWED_TYPES FILE_CONFIG) (type file)) then
    {| isValid := false; v_error := Some "Please upload a PDF file only." |}
  else if size file >? MAX_SIZE FILE_CONFIG then
    {| isValid := false;
       v_error := Some ("File size exceeds the maximum limit of "
                        ++ formatFileSize (MAX_SIZE FILE_CONFIG) ++ ".") |}
  else {| isValid := true; v_error := None |}.

End ValidateFile.

(** A value caught by a [catch] clause, by what [getErrorMessage] can tell
    apart: an object as [handleResponse] throws it, with [error] and a
    number [status], an [Error], a string, anything else. *)
Inductive Caught : Type :=
  | ApiErrorObject (e : Api.ApiError)
  | ErrorObject (message : string)
  | StringValue (s : string)
  | OtherValue.

(** [error && typeof error.error === 'string' &&
     typeof error.status === 'number'] *)
Definition isApiError (error : Caught) : bool :=
  match error with
  | ApiErrorObject e =>
      match Api.error e with
      | Api.JString _ => true
      | Api.JOther _ => false
      end
  | _ => false
  end.

(** [a || b] where [a] may be absent and the empty string is falsy *)
Definition or_string (a : option string) (b : string) : string :=
  match a with
  | Some s => if String.eqb s EmptyString then b else s
  | None => b
  end.

(** The function is declared to return a string; for an API error it
    returns [error.detail || error.error], whatever that holds. An object
    thrown by [handleResponse] that is no API error is no [Error] and no
    string either. *)
Definition getErrorMessage (error : Caught) : Api.Json :=
  match error with
  | ApiErrorObject e =>
      if isApiError error then
        match Api.or_else (Api.detail e) (Some (Api.error e)) with
        | Some v => v
        | None => Api.error e
        end
      else Api.JString "An unexpected error occurred"
  | ErrorObject message => Api.JString message
  | StringValue s => Api.JString s
  | OtherValue => Api.JString "An unexpected error occurred"
  end.

(** What the service throws, as a caught value *)
Definition caught (t : Api.Thrown) : Caught :=
  match t with
  | Api.ThrowApiError e => ApiErrorObject e
  | Api.ThrowError message => ErrorObject message
  end.

(** The first of some strings that is there and not empty, [last] when
    there is none *)
Fixpoint first_nonempty (l : list (option string)) (last : string) : string :=
  match l with
  | [] => last
  | a :: rest => or_string a (first_nonempty rest last)
  end.

(** A JavaScript number: NaN, an infinity, or a finite double, which is a
    rational. Comparing a double with an integer constant is exact. *)
Inductive number : Type :=
  | NaN
  | NegInfinity
  | Finite (q : Q)
  | PosInfinity.

(** [score >= n] for an integer constant [n] *)
Definition ge (score : number) (n : Z) : bool :=
  match score with
  | NaN | NegInfinity => false
  | Finite q => Qle_bool (inject_Z n) q
  | PosInfinity => true
  end.

Inductive ScoreLevel : Type := POOR | AVERAGE | GOOD | EXCELLENT.

(** [interface ScoreInfo] *)
Record ScoreInfo : Type := mkScoreInfo {
  level : ScoreLevel;
  color : string;
  background : string;
  description : string
}.

(** With the classes of [UI_CONFIG.SCORE_COLORS] and
    [UI_CONFIG.SCORE_BACKGROUNDS] *)
Definition getScoreInfo (score : number) : ScoreInfo :=
  if ge score 8 then
    {| level := EXCELLENT; color := "text-green-600";
       background := "bg-green-100"; description := "Excellent" |}
  else if ge score 6 then
    {| level := GOOD; color := "text-blue-600";
       background := "bg-blue-100"; description := "Good" |}
  else if ge score 4 then
    {| level := AVERAGE; color := "text-yellow-600";
       background := "bg-yellow-100"; description := "Average" |}
  else
    {| level := POOR; color := "text-red-600";
       background := "bg-red-100"; description := "Needs Improvement" |}.

(** The levels in their order *)
Definition rank (l : ScoreLevel) : nat :=
  match l with
  | POOR => 0
  | AVERAGE => 1
  | GOOD => 2
  | EXCELLENT => 3
  end.

(** The order of numbers that are not NaN *)
Definition number_le (a b : number) : Prop :=
  match a, b with
  | NaN, _ | _, NaN => False
  | NegInfinity, _ => True
  | _, PosInfinity => True
  | Finite p, Finite q => Qle p q
  | _, _ => False
  end.

End Helpers.

(** *** [debounce] *)

(** The debounced function keeps one timer. A call clears it and sets a
    new one, [wait] from now, with its own arguments. A timer that is due
    runs when the event loop is next free, not before. *)
Module Debounce.

Section Debounced.

Variable Args : Type.
Variable wait : Z.

Record State : Type := mkState {
  clock : Z;
  timeout : option (Z * Args);
  ran : list Args
}.

(** The debounced function is called at time [t]. *)
Definition invoke (t : Z) (args : Args) (s : State) : State :=
  let now := Z.max (clock s) t in
  {| clock := now; timeout := Some (now + wait, args); ran := ran s |}.

(** The event loop is free at time [t]: the timer, if due, calls
    [func]. *)
Definition idle (t : Z) (s : State) : State :=
  let now := Z.max (clock s) t in
  match timeout s with
  | Some (due, args) =>
      if due <=? now
      then {| clock := now; timeout := None; ran := (ran s ++ [args])%list |}
      else {| clock := now; timeout := timeout s; ran := ran s |}
  | None => {| clock := now; timeout := None; ran := ran s |}
  end.

Inductive Event : Type :=
  | Invoke (t : Z) (args : Args)
  | Idle (t : Z).

Definition run1 (s : State) (e : Event) : State :=
  match e with
  | Invoke t args => invoke t args s
  | Idle t => idle t s
  end.

Definition run (events : list Event) (s : State) : State :=
  fold_left run1 events s.

(** The arguments of the calls among some events *)
Fixpoint passed (events : list Event) : list Args :=
  match events with
  | [] => []
  | Invoke _ args :: rest => args :: passed rest
  | Idle _ :: rest => passed rest
  end.

(** The events of some calls made one after the other, each with its
    time *)
Definition burst (calls : list (Z * Args)) : list Event :=
  map (fun c => Invoke (fst c) (snd c)) calls.

End Debounced.

Arguments clock {Args} s.
Arguments timeout {Args} s.
Arguments ran {Args} s.
Arguments Invoke {Args} t args.
Arguments Idle {Args} t.

End Debounce.

(* ===================================================================== *)
(** ** TypeScript: the handlers of [App.tsx]                              *)
(* ===================================================================== *)

Module App.

(** [enum AppStep] *)
Inductive AppStep : Type :=
  | UPLOAD
  | PROCESSING
  | RESULTS
  | ERROR.

(** Of [APP_STRINGS] *)
Definition ERROR_UPLOAD : string :=
  "Failed to upload your CV. Please try again.".
Definition ERROR_PROCESSING : string :=
  "Failed to process your CV. Our roaster might be taking a coffee break!".

(** [interface UploadResponse] *)
Record UploadResponse : Type := mkUploadResponse {
  u_review_id : string;
  u_message : string;
  u_status : Api.ReviewStatus
}.

(** What the POST of the file settles to *)
Inductive Uploaded : Type :=
  | UploadRejects (message : string)
  | UploadOk (json : string + UploadResponse)
  | UploadNotOk (code : Z) (statusText : string)
      (json : option Api.ErrorData).

(** The progress callback of [handleFileUpload]: 15 more, up to 90 *)
Definition bump (p : Z) : Z := Z.min (p + 15) 90.

(** [uploadProgress] after the callbacks among some effects *)
Definition progress_after (new : list Api.Effect) (p : Z) : Z :=
  fold_left (fun p e => match e with Api.Progress _ => bump p | _ => p end)
    new p.

(** The number of callbacks among some effects *)
Fixpoint callbacks (new : list Api.Effect) : Z :=
  match new with
  | [] => 0
  | Api.Progress _ :: rest => 1 + callbacks rest
  | _ :: rest => callbacks rest
  end.

(** A request other than a POST *)
Definition reads_only (e : Api.Effect) : Prop :=
  match e with
  | Api.Fetch method _ => method = "GET"
  | _ => True
  end.

Section Handlers.

Variable CVReview : Type.
Variable formatFileSize : Z -> string.
Variable cfg : Api.ApiConfig.

(** [interface AppState] *)
Record AppState : Type := mkAppState {
  currentStep : AppStep;
  reviewId : option string;
  review : option (Api.ReviewResponse CVReview);
  isLoading : bool;
  error : option Api.Json;
  uploadProgress : Z
}.

Definition initial : AppState :=
  {| currentStep := UPLOAD; reviewId := None; review := None;
     isLoading := false; error := None; uploadProgress := 0 |}.

Definition resetApp (_ : AppState) : AppState := initial.

(** [apiService.uploadCV]: one POST, then [handleResponse] *)
Definition uploadCV (reply : Uploaded) (file : Helpers.File)
  : Api.P (Api.Thrown + UploadResponse) :=
  modify (fun w =>
    {| Api.sent := S (Api.sent w);
       Api.effects :=
         (Api.effects w
          ++ [Api.Fetch "POST" (Api.BASE_URL cfg ++ Api.ENDPOINTS_UPLOAD cfg)])%list |}) ;;
  ret match reply with
      | UploadRejects message => inl (Api.ThrowError message)
      | UploadOk (inl message) => inl (Api.ThrowError message)
      | UploadOk (inr body) => inr body
      | UploadNotOk code statusText json =>
          match Api.handleResponse CVReview (Api.NotOk code statusText json) with
          | inl thrown => inl thrown
          | inr _ => inl (Api.ThrowError statusText)
          end
      end.

(** The [catch] of [handleFileUpload] *)
Definition upload_failed (e : Helpers.Caught) (st : AppState) : AppState :=
  {| currentStep := ERROR; reviewId := reviewId st; review := review st;
     isLoading := false; error := Some (Helpers.getErrorMessage e);
     uploadProgress := 0 |}.

(** The progress callback:
    [setAppState(prev => ({ ...prev, uploadProgress: ... }))] *)
Definition progress_callback (prev : AppState) : AppState :=
  {| currentStep := currentStep prev; reviewId := reviewId prev;
     review := review prev; isLoading := isLoading prev;
     error := error prev; uploadProgress := bump (uploadProgress prev) |}.

(** The states the progress callback sets one after the other, one for
    each callback among some effects, from the state [prev] *)
Fixpoint polling_states (new : list Api.Effect) (prev : AppState)
  : list AppState :=
  match new with
  | [] => []
  | Api.Progress _ :: rest =>
      progress_callback prev :: polling_states rest (progress_callback prev)
  | _ :: rest => polling_states rest prev
  end.

(** [handleFileUpload], with the states its calls of [setAppState] set,
    in their order. *)
Definition handleFileUpload_states (server : Api.Server CVReview)
    (reply : Uploaded) (file : Helpers.File) (st : AppState) (w : Api.World)
  : list AppState * Api.World :=
  let validation := Helpers.validateFile formatFileSize file in
  if negb (Helpers.isValid validation) then
    ([{| currentStep := ERROR; reviewId := reviewId st; review := review st;
         isLoading := isLoading st;
         error := Some (Api.JString
                          (Helpers.or_string (Helpers.v_error validation)
                             ERROR_UPLOAD));
         uploadProgress := uploadProgress st |}], w)
  else
    let st1 :=
      {| currentStep := PROCESSING; reviewId := reviewId st;
         review := review st; isLoading := true; error := None;
         uploadProgress := 0 |} in
    match uploadCV reply file w with
    | (inl thrown, w1) =>
        ([st1; upload_failed (Helpers.caught thrown) st1], w1)
    | (inr uploadResponse, w1) =>
        let st2 :=
          {| currentStep := PROCESSING;
             reviewId := Some (u_review_id uploadResponse);
             review := review st; isLoading := true; error := None;
             uploadProgress := 20 |} in
        let '(polled, w2) :=
          Api.pollReview CVReview cfg server (u_review_id uploadResponse)
            (Some (fun _ => None)) w1 in
        let new := skipn (length (Api.effects w1)) (Api.effects w2) in
        let during := polling_states new st2 in
        let st3 := last during st2 in
        (st1 :: st2 :: during
           ++ match polled with
              | None => []
              | Some (Api.Throws e) => [upload_failed (Helpers.caught e) st3]
              | Some (Api.Returns r) =>
                  match Api.status r, Api.review CVReview r with
                  | Api.FAILED, _ =>
                      [upload_failed
                         (Helpers.ErrorObject
                            (Helpers.or_string (Api.error_message CVReview r)
                               ERROR_PROCESSING)) st3]
                  | Api.COMPLETED, Some _ =>
                      [{| currentStep := RESULTS; reviewId := reviewId st3;
                          review := Some r; isLoading := false; error := None;
                          uploadProgress := 100 |}]
                  | _, _ =>
                      [upload_failed (Helpers.ErrorObject ERROR_PROCESSING)
                         st3]
                  end
              end, w2)
    end.

(** The state and the world [handleFileUpload] leaves *)
Definition handleFileUpload (server : Api.Server CVReview) (reply : Uploaded)
    (file : Helpers.File) (st : AppState) (w : Api.World)
  : AppState * Api.World :=
  let '(states, w') := handleFileUpload_states server reply file st w in
  (last states st, w').

(** The [catch] of [handleRetry], which leaves [uploadProgress] alone *)
Definition retry_failed (e : Helpers.Caught) (st : AppState) : AppState :=
  {| currentStep := ERROR; reviewId := reviewId st; review := review st;
     isLoading := false; error := Some (Helpers.getErrorMessage e);
     uploadProgress := uploadProgress st |}.

Definition handleRetry (server : Api.Server CVReview) (st : AppState)
    (w : Api.World) : AppState * Api.World :=
  match reviewId st with
  | Some id =>
      if String.eqb id EmptyString then (resetApp st, w)
      else
        let st1 :=
          {| currentStep := PROCESSING; reviewId := reviewId st;
             review := review st; isLoading := true; error := None;
             uploadProgress := 50 |} in
        match Api.pollReview CVReview cfg server id None w with
        | (None, w1) => (st1, w1)
        | (Some (Api.Throws e), w1) =>
            (retry_failed (Helpers.caught e) st1, w1)
        | (Some (Api.Returns r), w1) =>
            match Api.status r, Api.review CVReview r with
            | Api.COMPLETED, Some _ =>
                ({| currentStep := RESULTS; reviewId := reviewId st1;
                    review := Some r; isLoading := false; error := None;
                    uploadProgress := 100 |}, w1)
            | _, _ =>
                (retry_failed
                   (Helpers.ErrorObject
                      (Helpers.or_string (Api.error_message CVReview r)
                         ERROR_PROCESSING)) st1, w1)
            end
        end
  | None => (resetApp st, w)
  end.

End Handlers.

End App.

(* ===================================================================== *)
(** * Inputs to run the code on                                           *)
(* ===================================================================== *)

Definition go_world (t : Z) : Go.World :=
  {| Go.now := t; Go.coins := []; Go.events := [] |}.

Definition go_fresh : Go.Manager * Go.World := Go.NewManager None (go_world 0).

Definition fmt_string (s : string) : string := s.

Definition java_world (t : Z) : Java.World :=
  {| Java.now := t; Java.events := [] |}.

Definition java_toString (s : string) : Java.Exc string := Java.Returned s.

(** A payload whose [toString()] recurses without end, and one whose
    [toString()] throws an exception *)
Definition java_toString_overflows (_ : string) : Java.Exc string :=
  Java.Thrown {| Java.exn_class := "StackOverflowError";
                 Java.getMessage := "null";
                 Java.is_Exception := false |}.

Definition java_toString_throws (_ : string) : Java.Exc string :=
  Java.Thrown {| Java.exn_class := "IllegalStateException";
                 Java.getMessage := "closed";
                 Java.is_Exception := true |}.

Definition no_other_level (_ : string) : option Java.Level := None.

(** A new [MonitoringManager] with the default configuration *)
Definition java_fresh : Java.Manager * Java.World :=
  ({| Java.config := Java.new_Config; Java.status := Java.PENDING;
      Java.createdAt := 0 |},
   java_world 0).

(** [JSON.stringify(s).length] of a string that needs no escapes *)
Definition plain_string_length (s : string) : option Z :=
  Some (Z.of_nat (String.length s) + 2).

(** A Go manager whose configured timeout, 50 ms, is shorter than the
    100 ms the Worker takes *)
Definition go_hasty : Go.Manager :=
  {| Go.config := {| Go.Enabled := true;
                     Go.Timeout := 50 * Go.Millisecond;
                     Go.Retries := 3;
                     Go.LogLevel := "INFO" |};
     Go.status := Go.StatusPending;
     Go.createdAt := 0 |}.

(** A context that is cancelled from the start, and a world in which the
    next [select] with two ready cases takes the second *)
Definition go_canceled : Go.Context :=
  {| Go.Done_at := Some 0; Go.Err_after := Go.Canceled |}.

Definition go_world_second (t : Z) : Go.World :=
  {| Go.now := t; Go.coins := [false]; Go.events := [] |}.

(** The handle as the specification has it: it resolves to the pair a
    direct run returns. *)
Definition spec_Submit {Data : Type} (fmt_v : Data -> string)
    (ctx : Go.Context) (data : option Data) (s : Go.Manager * Go.World)
  : option Go.Result * option Go.error :=
  fst (Go.Process fmt_v ctx data s).

(** What the reader of the Go channel holds as a pair: the channel carries
    a [*Result] and nothing else. *)
Definition received_pair (h : option Go.Result)
  : option Go.Result * option Go.error :=
  (h, None).

(** Three Java threads on one new manager: two callers of [process] and
    one of [reset] *)
Definition java_system : Java.System string :=
  {| Java.shared := java_fresh;
     Java.threads := [Java.at_process_begin (Some "a");
                      Java.at_reset;
                      Java.at_process_begin (Some "b")] |}.

(** The event loop with a new [ApiManager] and nothing pending *)
Definition js_loop0 : Js.Loop string :=
  Js.start (Js.new_ApiManager None) 0.

(** A poller configured with [interval = 50] and [maxAttempts = 3] *)
Definition quick_poll : Api.ApiConfig :=
  {| Api.BASE_URL := "http://localhost:8000";
     Api.ENDPOINTS_UPLOAD := "/api/upload";
     Api.ENDPOINTS_REVIEW := "/api/review";
     Api.ENDPOINTS_HEALTH := "/api/health";
     Api.POLL_INTERVAL := 50;
     Api.MAX_POLL_ATTEMPTS := 3 |}.

Definition review_in (st : Api.ReviewStatus) : Api.ReviewResponse unit :=
  {| Api.review_id := "r1";
     Api.status := st;
     Api.review := None;
     Api.error_message := None;
     Api.created_at := "2025-07-04T11:23:06" |}.

(** A backend on which the review never leaves [PROCESSING] *)
Definition server_stuck : Api.Server unit :=
  fun _ => Api.Responds (Api.Ok (inr (review_in Api.PROCESSING))).

(** A backend that answers [PROCESSING] once and [COMPLETED] from then
    on *)
Definition server_done_second : Api.Server unit :=
  fun n =>
    match n with
    | O => Api.Responds (Api.Ok (inr (review_in Api.PROCESSING)))
    | S _ => Api.Responds (Api.Ok (inr (review_in Api.COMPLETED)))
    end.

(** A backend that answers [PENDING], then [PROCESSING], and [FAILED]
    from then on *)
Definition server_failed_third : Api.Server unit :=
  fun n =>
    match n with
    | O => Api.Responds (Api.Ok (inr (review_in Api.PENDING)))
    | S O => Api.Responds (Api.Ok (inr (review_in Api.PROCESSING)))
    | S (S _) => Api.Responds (Api.Ok (inr (review_in Api.FAILED)))
    end.

Definition not_found : Api.Response unit :=
  Api.NotOk 404 "Not Found"
    (Some {| Api.e_error := None;
             Api.e_detail := Some (Api.JString "Review not found") |}).

(** A backend that answers the first request with 404 and [COMPLETED]
    from then on *)
Definition server_404_first : Api.Server unit :=
  fun n =>
    match n with
    | O => Api.Responds not_found
    | S _ => Api.Responds (Api.Ok (inr (review_in Api.COMPLETED)))
    end.

(** A backend that answers [PROCESSING] twice and 404 from then on *)
Definition server_404_third : Api.Server unit :=
  fun n =>
    match n with
    | O | S O => Api.Responds (Api.Ok (inr (review_in Api.PROCESSING)))
    | S (S _) => Api.Responds not_found
    end.

Definition api_world0 : Api.World := {| Api.sent := O; Api.effects := [] |}.

(** A payload that is a string, or ([None]) a function, for which
    [JSON.stringify] gives [undefined] *)
Definition string_or_function_length (d : option string) : option Z :=
  match d with
  | Some str => plain_string_length str
  | None => None
  end.

(** A callback that always throws *)
Definition throwing_callback : Api.Callback :=
  fun _ => Some (Api.ThrowError "callback failed").

(** A completed review that has its content, and a backend that answers
    with it from the first request on *)
Definition review_full : Api.ReviewResponse unit :=
  {| Api.review_id := "r1";
     Api.status := Api.COMPLETED;
     Api.review := Some tt;
     Api.error_message := None;
     Api.created_at := "2025-07-04T11:23:06" |}.

Definition server_full : Api.Server unit :=
  fun _ => Api.Responds (Api.Ok (inr review_full)).

(** A backend that takes the upload and answers the first two requests
    for the review with [PROCESSING], the later ones with the review *)
Definition server_slow : Api.Server unit :=
  fun n =>
    match n with
    | O | S O | S (S O) =>
        Api.Responds
          (Api.Ok (inr {| Api.review_id := "r1";
                          Api.status := Api.PROCESSING;
                          Api.review := None;
                          Api.error_message := None;
                          Api.created_at := "2025-07-04T11:23:06" |}))
    | _ => Api.Responds (Api.Ok (inr review_full))
    end.

(** Files to upload, and the text of the size limit *)
Definition pdf_file : Helpers.File :=
  {| Helpers.name := "resume.pdf"; Helpers.type := "application/pdf";
     Helpers.size := 204800 |}.

Definition png_file : Helpers.File :=
  {| Helpers.name := "resume.png"; Helpers.type := "image/png";
     Helpers.size := 204800 |}.

Definition ten_megabytes (_ : Z) : string := "10 MB".

Definition upload_accepted : App.Uploaded :=
  App.UploadOk
    (inr {| App.u_review_id := "r1";
            App.u_message := "CV uploaded successfully";
            App.u_status := Api.PENDING |}).

(** A debounced function before its first call *)
Definition debounce_start : Debounce.State string :=
  {| Debounce.clock := 0; Debounce.timeout := None; Debounce.ran := [] |}.

(* ===================================================================== *)
(** * Properties                                                          *)
(* ===================================================================== *)

(** Case analysis on the next condition the code tests *)
Ltac case_if :=
  match goal with
  | |- context [if ?c then _ else _] =>
      let E := fresh "E" in destruct c eqn:E
  end.

Section GoProperties.

Context {Data : Type} (fmt_v : Data -> string).

Import Go.

Lemma entries_app (fn : string) (a b : list Event) :
  entries fn (a ++ b) = (entries fn a + entries fn b)%nat.
Proof.
  induction a as [| e a IH]; simpl; [reflexivity |].
  destruct e as [line | f]; [exact IH |].
  destruct (String.eqb f fn); simpl; rewrite IH; reflexivity.
Qed.

(** C3. A payload that [Validate] refuses (the nil payload) makes
    [Process] set the status to [StatusFailed] and return, with no result,
    the error "validation failed: ..." that wraps the validator's error;
    [executeProcessing] is not entered. *)
Theorem Process_validation_failure (ctx : Context) (data : option Data)
    (s : Manager * World) (verr : error) :
  fst (Validate data s) = Some verr ->
  let '(out, (m', w')) := Process fmt_v ctx data s in
  out = (None, Some (Errorf_w "validation failed: " verr)) /\
  Error (Errorf_w "validation failed: " verr)
    = "validation failed: " ++ Error verr /\
  status m' = StatusFailed /\
  entries "executeProcessing" (events w')
    = entries "executeProcessing" (events (snd s)).
Proof.
  destruct s as [m w]. destruct data as [d |]; cbn; intros H.
  - discriminate H.
  - injection H as <-. repeat split.
    rewrite !entries_app. cbn. lia.
Qed.

(** [executeProcessing] looks at the clock and the picks only: what it
    returns from the state in which [Process] calls it is what it returns
    from the state in which [Process] was called. *)
Lemma executeProcessing_in_Process (ctx : Context) (d : Data)
    (m : Manager) (w : World) :
  let s1 := snd ((logger_Printf "Starting configuration processing" ;;
                  store_status StatusProcessing ;;
                  Validate (Some d)) (m, w)) in
  fst (executeProcessing fmt_v ctx (Some d) s1)
    = fst (executeProcessing fmt_v ctx (Some d) (m, w)) /\
  now (snd (snd (executeProcessing fmt_v ctx (Some d) s1)))
    = now (snd (snd (executeProcessing fmt_v ctx (Some d) (m, w)))).
Proof.
  cbn. unfold executeProcessing, select_After_or_Done, bind, time_Now, gets.
  cbn. destruct (Done_at ctx) as [dl |]; cbn; [| split; reflexivity].
  repeat (case_if; cbn); try (split; reflexivity).
  destruct (coins w) as [| [] cs]; cbn; split; reflexivity.
Qed.

(** [executeProcessing] returns a result or an error, never both or
    neither. *)
Lemma executeProcessing_shape (ctx : Context) (data : option Data)
    (s : Manager * World) :
  (exists r, fst (executeProcessing fmt_v ctx data s) = (Some r, None)) \/
  fst (executeProcessing fmt_v ctx data s) = (None, Some (Err_after ctx)).
Proof.
  destruct s as [m w].
  unfold executeProcessing, select_After_or_Done, bind, time_Now, gets. cbn.
  destruct (Done_at ctx) as [dl |]; cbn; [| left; eexists; reflexivity].
  repeat (case_if; cbn);
    try first [left; eexists; reflexivity | right; reflexivity].
  destruct (coins w) as [| [] cs]; cbn;
    first [left; eexists; reflexivity | right; reflexivity].
Qed.

(** Unfolding of the Go pipeline down to the conditions it tests *)
Ltac go_unfold :=
  unfold Process, ProcessAsync, executeProcessing, Validate,
    select_After_or_Done, Reset, logger_Printf, emit, on_world, store_status,
    time_Now, time_Since, sleep_until, flip, Done_ready, bind, ret, gets,
    modify;
  cbn.

(** C6. When the payload is not nil and the Worker ([executeProcessing])
    returns a result [r0] and no error, [Process] returns that result, with
    the elapsed time written into it, and no error, and leaves the status
    [StatusCompleted]. *)
Theorem Process_success (ctx : Context) (d : Data) (s : Manager * World)
    (r0 : Result) :
  fst (executeProcessing fmt_v ctx (Some d) s) = (Some r0, None) ->
  let '(out, (m', w')) := Process fmt_v ctx (Some d) s in
  out = (Some (set_ProcessingTime r0 (now w' - now (snd s))), None) /\
  status m' = StatusCompleted /\
  r_Status r0 = "success" /\
  r_DataSize r0 = Z.of_nat (String.length (fmt_v d)) /\
  entries "executeProcessing" (events w')
    = S (entries "executeProcessing" (events (snd s))).
Proof.
  destruct s as [m w]. go_unfold.
  destruct (Done_at ctx) as [dl |]; cbn.
  - repeat (case_if; cbn); try discriminate;
      try (destruct (coins w) as [| [] cs]; cbn; try discriminate);
      intros H; injection H as <-; cbn; rewrite !entries_app; cbn;
      repeat split; lia.
  - intros H; injection H as <-; cbn; rewrite !entries_app; cbn;
      repeat split; lia.
Qed.


(** [Process] does not look at the status it finds. *)
Lemma Process_ignores_status (ctx : Context) (data : option Data)
    (m : Manager) (w : World) (st : Status) :
  Process fmt_v ctx data (set_status m st, w) = Process fmt_v ctx data (m, w).
Proof.
  go_unfold. destruct data as [d |]; cbn; [| reflexivity].
  destruct (Done_at ctx) as [dl |]; cbn; [| reflexivity].
  repeat (case_if; cbn); reflexivity.
Qed.

(** What the channel of [ProcessAsync] delivers, next to what [Process]
    returns from the same state: the manager ends the same; with the
    context not done at the send, the channel has [async_result] of the
    pair and the world ends the same; with the context done, it has that
    or nothing. *)
Lemma ProcessAsync_delivers (ctx : Context) (data : option Data)
    (s : Manager * World) :
  let '(out, s1) := Process fmt_v ctx data s in
  let '(h, s2) := ProcessAsync fmt_v ctx data s in
  fst s2 = fst s1 /\
  if Done_ready ctx (now (snd s1))
  then h = async_result out \/ h = None
  else h = async_result out /\ s2 = s1.
Proof.
  unfold ProcessAsync, bind.
  destruct (Process fmt_v ctx data s) as [out [m1 w1]].
  unfold time_Now, gets. cbn.
  destruct (Done_ready ctx (now w1)); cbn.
  - unfold flip. cbn. destruct (coins w1) as [| [] cs]; cbn; auto.
  - auto.
Qed.

(** [Reset] from any status *)
Lemma Reset_spec (m : Manager) (w : World) :
  Reset (m, w)
  = (tt, (set_status m StatusPending,
          {| now := now w; coins := coins w;
             events := events w
                        ++ [Printf "Configuration manager reset completed"] |})).
Proof. reflexivity. Qed.

End GoProperties.

Section JavaProperties.

Context (Domain domain : string) {Data : Type} (toString : Data -> Java.Exc string).

Import Java.

Local Abbreviation process := (Java.process Domain domain Data toString).
Local Abbreviation process_rest := (Java.process_rest Domain Data toString).
Local Abbreviation step := (Java.step Domain domain Data toString).
Local Abbreviation schedule := (Java.schedule Domain domain Data toString).
Local Abbreviation reset := (Java.reset Domain).

Ltac java_unfold :=
  unfold Java.process, Java.process_begin, Java.process_rest,
    Java.process_catch, Java.validate, Java.executeProcessing, Java.reset,
    Java.step, LOGGER_log, emit, store_status, LocalDateTime_now,
    bind, ret, gets, modify;
  cbn.

(** What the second step of [process] leaves in [status]: a terminal
    status, or, when [toString()] throws what is no [Exception], the
    status it found. *)
Lemma process_rest_status (data : option Data) (s : Manager * World) :
  status (fst (snd (process_rest data s)))
  = match data with
    | None => FAILED
    | Some d =>
        match toString d with
        | Returned _ => COMPLETED
        | Thrown e => if is_Exception e then FAILED else status (fst s)
        end
    end.
Proof.
  destruct s as [m w]. java_unfold.
  destruct data as [d |]; cbn; [| reflexivity].
  destruct (toString d) as [text | e]; cbn; [reflexivity |].
  destruct (is_Exception e); reflexivity.
Qed.

(** What each step writes to [status], whatever it finds there *)
Lemma step_writes (t : Thread Data) (s : Manager * World) :
  let st' := status (fst (snd (step t s))) in
  match t with
  | at_process_begin _ => st' = PROCESSING
  | at_process_rest None => st' = FAILED
  | at_process_rest (Some d) =>
      match toString d with
      | Returned _ => st' = COMPLETED
      | Thrown e => if is_Exception e then st' = FAILED else st' = status (fst s)
      end
  | at_reset => st' = PENDING
  | process_done _ | reset_done => st' = status (fst s)
  end.
Proof.
  destruct t as [data | data | | out |]; cbn; try reflexivity.
  pose proof (process_rest_status data s) as H.
  unfold Java.step, bind.
  destruct (process_rest data s) as [out s'] eqn:E; cbn in *.
  destruct data as [d |]; [| exact H].
  destruct (toString d) as [text | e]; [exact H |].
  destruct (is_Exception e); exact H.
Qed.

(** [reset] from any status *)
Lemma reset_spec (m : Manager) (w : World) :
  reset (m, w)
  = (tt, (set_status m PENDING,
          {| now := now w;
             events := events w
                        ++ [Log INFO (Domain ++ " manager reset completed")] |})).
Proof. reflexivity. Qed.

(** Run alone, thread 0 of a system makes the two steps of [process]. *)
Lemma process_alone (data : option Data) (s : Manager * World) :
  let sys := {| shared := s; threads := [at_process_begin data] |} in
  let '(out, s') := process data s in
  let mid := status (fst (snd (Java.process_begin domain s))) in
  schedule [0; 0]%nat sys
  = ({| shared := s'; threads := [process_done out] |},
     [(OpProcess, status (fst s), mid); (OpProcess, mid, status (fst s'))]).
Proof.
  destruct s as [m w]. cbn.
  unfold Java.process, Java.schedule1, Java.step, bind. cbn.
  destruct (process_rest data _) as [out s'] eqn:E. cbn.
  reflexivity.
Qed.

(** C1, as the code has it. A [process] call run alone on a [PENDING]
    manager takes the status from [PENDING] to [PROCESSING], and from
    there to [COMPLETED] when [toString()] returns, to [FAILED] for the
    [null] payload or when [toString()] throws an [Exception], both of
    which the specification's machine allows; when [toString()] throws
    what is no [Exception] (a [java.lang.Error]), the status stays
    [PROCESSING]. No step looks at the status it finds: the first step of
    [process] writes [PROCESSING], its second step [COMPLETED] or [FAILED]
    (or nothing, in the case of the error), and [reset] writes [PENDING],
    from any status. *)
Theorem status_progress_as_coded (data : option Data) (m : Manager)
    (w : World) :
  status m = PENDING ->
  (exists final : Status,
     snd (schedule [0; 0]%nat
            {| shared := (m, w); threads := [at_process_begin data] |})
     = [(OpProcess, PENDING, PROCESSING); (OpProcess, PROCESSING, final)] /\
     final = match data with
             | None => FAILED
             | Some d =>
                 match toString d with
                 | Returned _ => COMPLETED
                 | Thrown e => if is_Exception e then FAILED else PROCESSING
                 end
             end /\
     (final = COMPLETED \/ final = FAILED \/ final = PROCESSING) /\
     spec_allows OpProcess PENDING PROCESSING = true /\
     (final <> PROCESSING -> spec_allows OpProcess PROCESSING final = true)) /\
  (forall (t : Thread Data) (s : Manager * World),
     let st' := status (fst (snd (step t s))) in
     match t with
     | at_process_begin _ => st' = PROCESSING
     | at_process_rest None => st' = FAILED
     | at_process_rest (Some d) =>
         match toString d with
         | Returned _ => st' = COMPLETED
         | Thrown e =>
             if is_Exception e then st' = FAILED else st' = status (fst s)
         end
     | at_reset => st' = PENDING
     | process_done _ | reset_done => st' = status (fst s)
     end).
Proof.
  intros Hp. split; [| exact step_writes].
  pose proof (process_alone data (m, w)) as H. cbn zeta in H.
  pose proof (process_rest_status data
                (snd (Java.process_begin domain (m, w)))) as Hw.
  unfold Java.process, bind in H.
  destruct (Java.process_begin domain (m, w)) as [[] s1] eqn:E1.
  assert (Hs1 : status (fst s1) = PROCESSING).
  { unfold Java.process_begin, bind, LOGGER_log, emit, store_status, modify
      in E1. cbn in E1. injection E1 as <-. reflexivity. }
  cbn [snd fst] in *.
  destruct (process_rest data s1) as [out s2] eqn:E2.
  cbn [snd fst] in *. rewrite H. cbn [snd fst]. rewrite Hp, Hs1.
  rewrite Hs1 in Hw.
  exists (status (fst s2)). split; [reflexivity |].
  split; [exact Hw |].
  rewrite Hw.
  destruct data as [d |]; [destruct (toString d) as [text | e];
                           [| destruct (is_Exception e)] |];
    (split; [auto |]); (split; [reflexivity |]);
    intros Hn; try reflexivity; contradiction Hn; reflexivity.
Qed.

End JavaProperties.

Section JsProperties.

Context {Data : Type} (JSON_stringify_length : Data -> option Z).

Import Js.

Local Abbreviation call_process := (Js.call_process Data).
Local Abbreviation fire := (Js.fire Data JSON_stringify_length).
Local Abbreviation run := (Js.run Data JSON_stringify_length).

Ltac js_unfold :=
  unfold Js.call_process, Js.fire, Js.process_begin, Js.process_resume,
    Js.timer_callback, Js.validate, Js.logger_info, Js.logger_warn,
    Js.logger_error, Js.logger_debug, Js.emit, Js.store_status,
    bind, ret, gets, modify;
  cbn.

(** A call of [process] with a payload that is neither [null] nor
    [undefined], whatever the status: the status becomes [PROCESSING], a
    timer is set for the call, and the call is not settled. *)
Lemma call_process_valid (d : Data) (l : Loop Data) :
  let l' := call_process (Val d) l in
  status (fst (self l')) = PROCESSING /\
  clock (snd (self l')) = clock (snd (self l)) /\
  config (fst (self l')) = config (fst (self l)) /\
  timers l'
    = (timers l ++ [{| due := clock (snd (self l)) + 100;
                       owner := calls l;
                       payload := Val d |}])%list /\
  settled l' = settled l /\
  calls l' = S (calls l).
Proof.
  destruct l as [[m w] ts st n]. js_unfold.
  case_if; cbn; repeat split; reflexivity.
Qed.

(** The timer of a serialisable payload fires: the call that set it is
    resolved and the status becomes [COMPLETED]. *)
Lemma fire_resolves (d : Data) (n : Z) (t : Timer Data) (ts : list (Timer Data))
    (l : Loop Data) :
  timers l = t :: ts ->
  payload t = Val d ->
  JSON_stringify_length d = Some n ->
  let l' := fire l in
  status (fst (self l')) = COMPLETED /\
  clock (snd (self l')) = Z.max (clock (snd (self l))) (due t) /\
  config (fst (self l')) = config (fst (self l)) /\
  timers l' = ts /\
  settled l'
    = (settled l ++
       [(owner t,
         Resolved {| r_status := "success";
                     r_processedAt := Z.max (clock (snd (self l))) (due t);
                     r_dataSize := n;
                     r_processingTime := 100 |})])%list /\
  calls l' = calls l.
Proof.
  destruct l as [[m w] ts0 st k]. cbn. intros -> Hp Hn.
  js_unfold. rewrite Hp, Hn. cbn. repeat split; reflexivity.
Qed.

(** Two calls of [process] made one after the other, before the timer of
    the first has fired, are both resolved. *)
Lemma race_both_resolved (d1 d2 : Data) (n1 n2 : Z) (l : Loop Data) :
  timers l = [] ->
  JSON_stringify_length d1 = Some n1 ->
  JSON_stringify_length d2 = Some n2 ->
  let t := clock (snd (self l)) + 100 in
  let l' := run [CallProcess (Val d1); CallProcess (Val d2); Fire; Fire] l in
  status (fst (self (run [CallProcess (Val d1)] l))) = PROCESSING /\
  settled l'
    = (settled l ++
       [(calls l,
         Resolved {| r_status := "success"; r_processedAt := Z.max (clock (snd (self l))) t;
                     r_dataSize := n1; r_processingTime := 100 |});
        (S (calls l),
         Resolved {| r_status := "success"; r_processedAt := Z.max (clock (snd (self l))) t;
                     r_dataSize := n2; r_processingTime := 100 |})])%list /\
  status (fst (self l')) = COMPLETED /\
  timers l' = [].
Proof.
  intros Ht H1 H2. cbn zeta. unfold Js.run. cbn [fold_left Js.run1].
  pose proof (call_process_valid d1 l) as A. cbn zeta in A.
  set (la := call_process (Val d1) l) in *.
  destruct A as (A1 & A2 & A3 & A4 & A5 & A6).
  pose proof (call_process_valid d2 la) as B. cbn zeta in B.
  set (lb := call_process (Val d2) la) in *.
  destruct B as (B1 & B2 & B3 & B4 & B5 & B6).
  rewrite A4, Ht in B4. cbn in B4. rewrite A2, A6 in B4.
  pose proof (fire_resolves d1 n1 _ _ lb B4 eq_refl H1) as C. cbn zeta in C.
  set (lc := fire lb) in *.
  destruct C as (C1 & C2 & C3 & C4 & C5 & C6). cbn in C2, C5.
  pose proof (fire_resolves d2 n2 _ _ lc C4 eq_refl H2) as D. cbn zeta in D.
  set (ld := fire lc) in *.
  destruct D as (D1 & D2 & D3 & D4 & D5 & D6). cbn in D2, D5.
  split; [exact A1 |]. split; [| split; [exact D1 | exact D4]].
  rewrite D5, C5, C2, B5, A5, B2, A2.
  rewrite <- app_assoc. cbn.
  replace (Z.max (Z.max (clock (snd (self l))) (clock (snd (self l)) + 100))
             (clock (snd (self l)) + 100))
    with (Z.max (clock (snd (self l))) (clock (snd (self l)) + 100)) by lia.
  reflexivity.
Qed.

End JsProperties.

Section ApiProperties.

Context {CVReview : Type} (cfg : Api.ApiConfig) (server : Api.Server CVReview).

Import Api.

Local Abbreviation getReview := (Api.getReview CVReview cfg server).
Local Abbreviation poll_loop := (Api.poll_loop CVReview cfg server).
Local Abbreviation pollReview := (Api.pollReview CVReview cfg server).
Local Abbreviation observe := (Api.observe CVReview server).
Local Abbreviation observed := (Api.observed CVReview server).
Local Abbreviation round := (Api.round CVReview cfg).
Local Abbreviation last_round := (Api.last_round CVReview cfg).
Local Abbreviation poll_effect := (Api.poll_effect cfg).
Local Abbreviation ends_with := (Api.ends_with CVReview cfg).

Local Abbreviation after_get := (Api.after_get cfg).

Lemma getReview_observe (reviewId : string) (w : World) :
  getReview reviewId w = (observe (sent w), after_get reviewId w).
Proof.
  unfold Api.getReview, Api.fetch, Api.observe, Api.after_get, bind, gets,
    modify, ret.
  cbn. destruct (server (sent w)) as [msg | r]; reflexivity.
Qed.

Lemma observed_tail (n : nat) (r : ReviewResponse CVReview)
    (revs : list (ReviewResponse CVReview)) :
  observed n (r :: revs) -> observe n = inr r /\ observed (S n) revs.
Proof.
  intros H. split.
  - specialize (H O r eq_refl). rewrite Nat.add_0_r in H. exact H.
  - intros i r' Hi. specialize (H (S i) r' Hi).
    rewrite Nat.add_succ_r in H. exact H.
Qed.

Ltac api_unfold :=
  unfold Api.call_onProgress, Api.sleep, Api.emit, bind, ret, gets, modify;
  cbn.

(** While the reviews seen are not terminal, the loop goes round: one
    request, one callback, one wait each. *)
Lemma poll_pending_prefix (reviewId : string) (onProgress : option (Callback))
    (maxAttempts : Z) (revs : list (ReviewResponse CVReview)) :
  quiet onProgress ->
  Forall (fun r => terminal (status r) = false) revs ->
  forall (fuel : nat) (attempts : Z) (w : World),
    observed (sent w) revs ->
    attempts + Z.of_nat (length revs) <= maxAttempts ->
    (length revs <= fuel)%nat ->
    poll_loop fuel reviewId onProgress maxAttempts attempts w
    = poll_loop (fuel - length revs) reviewId onProgress maxAttempts
        (attempts + Z.of_nat (length revs))
        {| sent := sent w + length revs;
           effects := effects w ++ flat_map (round reviewId onProgress) revs |}.
Proof.
  intros Hq Hall. induction Hall as [| r revs Hr Hall IH];
    intros fuel attempts w Hobs Hle Hfuel.
  - cbn. rewrite Nat.sub_0_r, Z.add_0_r, Nat.add_0_r, app_nil_r.
    destruct w; reflexivity.
  - destruct fuel as [| fuel]; [cbn in Hfuel; lia |].
    apply observed_tail in Hobs. destruct Hobs as [Hobs0 Hobs].
    cbn [length] in *.
    cbn [Api.poll_loop].
    assert (E : (attempts <? maxAttempts) = true) by (apply Z.ltb_lt; lia).
    rewrite E. unfold bind at 1. rewrite getReview_observe, Hobs0.
    assert (Ecb : call_onProgress onProgress (status r)
                    (after_get reviewId w)
                  = (None,
                     {| sent := S (sent w);
                        effects := effects w
                          ++ last_round reviewId onProgress r |})).
    { unfold Api.last_round. destruct onProgress as [f |]; api_unfold.
      - rewrite (Hq (status r)). rewrite <- app_assoc. reflexivity.
      - reflexivity. }
    unfold bind at 1. rewrite Ecb. rewrite Hr.
    unfold bind at 1. unfold Api.sleep, Api.emit, modify. cbn [sent effects].
    rewrite IH.
    + cbn [sent effects flat_map Nat.sub].
      replace (attempts + 1 + Z.of_nat (length revs))
        with (attempts + Z.of_nat (S (length revs))) by lia.
      replace (S (sent w) + length revs)%nat
        with (sent w + S (length revs))%nat by lia.
      unfold Api.round, Api.last_round.
      rewrite <- !app_assoc. cbn. rewrite <- !app_assoc. reflexivity.
    + exact Hobs.
    + lia.
    + lia.
Qed.

Lemma callback_quiet (reviewId : string) (onProgress : option Callback)
    (r : ReviewResponse CVReview) (w : World) :
  Api.quiet onProgress ->
  call_onProgress onProgress (status r) (after_get reviewId w)
  = (None,
     {| sent := S (sent w);
        effects := effects w ++ last_round reviewId onProgress r |}).
Proof.
  intros Hq. unfold Api.last_round, Api.after_get.
  destruct onProgress as [f |]; api_unfold.
  - rewrite (Hq (status r)). rewrite <- app_assoc. reflexivity.
  - reflexivity.
Qed.

(** The round that sees a terminal status returns the review at once. *)
Lemma poll_terminal_round (reviewId : string) (onProgress : option Callback)
    (maxAttempts attempts : Z) (fuel : nat) (w : World)
    (r : ReviewResponse CVReview) :
  Api.quiet onProgress ->
  attempts < maxAttempts ->
  observe (sent w) = inr r ->
  terminal (status r) = true ->
  poll_loop (S fuel) reviewId onProgress maxAttempts attempts w
  = (Some (Returns r),
     {| sent := S (sent w);
        effects := effects w ++ last_round reviewId onProgress r |}).
Proof.
  intros Hq Hlt Hobs Ht. cbn [Api.poll_loop].
  assert (E : (attempts <? maxAttempts) = true) by (apply Z.ltb_lt; lia).
  rewrite E. unfold bind at 1. rewrite getReview_observe, Hobs.
  unfold bind at 1. rewrite (callback_quiet reviewId onProgress r w Hq).
  rewrite Ht. reflexivity.
Qed.

(** With the attempts used up the loop ends in the timeout error. *)
Lemma poll_exhausted (reviewId : string) (onProgress : option Callback)
    (maxAttempts attempts : Z) (fuel : nat) (w : World) :
  maxAttempts <= attempts ->
  poll_loop (S fuel) reviewId onProgress maxAttempts attempts w
  = (Some (Throws (ThrowError "Review processing timeout")), w).
Proof.
  intros Hle. cbn [Api.poll_loop].
  assert (E : (attempts <? maxAttempts) = false) by (apply Z.ltb_ge; lia).
  rewrite E. reflexivity.
Qed.

(** The round in which [getReview] fails: the error is thrown on the last
    attempt only; before that the loop waits and goes on. *)
Lemma poll_error_round (reviewId : string) (onProgress : option Callback)
    (maxAttempts attempts : Z) (fuel : nat) (w : World) (e : Thrown) :
  attempts < maxAttempts ->
  observe (sent w) = inl e ->
  poll_loop (S fuel) reviewId onProgress maxAttempts attempts w
  = if attempts >=? maxAttempts - 1
    then (Some (Throws e), after_get reviewId w)
    else poll_loop fuel reviewId onProgress maxAttempts (attempts + 1)
           {| sent := S (sent w);
              effects := effects w
                ++ [Fetch "GET" (review_url cfg reviewId);
                    SetTimeout (POLL_INTERVAL cfg)] |}.
Proof.
  intros Hlt Hobs. cbn [Api.poll_loop].
  assert (E : (attempts <? maxAttempts) = true) by (apply Z.ltb_lt; lia).
  rewrite E. unfold bind at 1. rewrite getReview_observe, Hobs.
  destruct (attempts >=? maxAttempts - 1); [reflexivity |].
  api_unfold. unfold Api.after_get. cbn. rewrite <- app_assoc. reflexivity.
Qed.

Lemma fetches_app (a b : list Effect) :
  fetches (a ++ b) = (fetches a + fetches b)%nat.
Proof.
  induction a as [| e a IH]; [reflexivity |].
  destruct e; cbn; rewrite IH; reflexivity.
Qed.

(** After a round of effects [pre] with one request in it, what the rest
    of the loop does adds up. *)
Lemma ends_with_step (reviewId : string) (bound : nat) (w : World)
    (pre : list Effect) (res : option (Outcome CVReview) * World) :
  fetches pre = 1%nat ->
  Forall (poll_effect reviewId) pre ->
  ends_with reviewId bound
    {| sent := S (sent w); effects := effects w ++ pre |} res ->
  ends_with reviewId (S bound) w res.
Proof.
  intros Hf Hpre (out & new & -> & Hb & Hall).
  exists out, (pre ++ new)%list. cbn [sent effects].
  rewrite fetches_app, Hf, <- app_assoc. split; [| split].
  - f_equal. f_equal. lia.
  - lia.
  - apply Forall_app. split; assumption.
Qed.

Lemma ends_with_now (reviewId : string) (bound : nat) (w : World)
    (pre : list Effect) (out : Outcome CVReview) :
  (fetches pre <= bound)%nat ->
  Forall (poll_effect reviewId) pre ->
  ends_with reviewId bound w
    (Some out, {| sent := sent w + fetches pre; effects := effects w ++ pre |}).
Proof. intros Hf Hpre. exists out, pre. auto. Qed.

(** The loop has ended, with the effects [l] added *)
Ltac end_now l :=
  eexists; exists l;
  split; [unfold ret; cbn; f_equal; f_equal; lia
         | split; [cbn; lia | repeat constructor; auto]].

(** The loop goes on after one more round *)
Ltac go_on :=
  match goal with
  | Hnext : forall w', ends_with _ _ w' _ |- _ =>
      eapply ends_with_step; [| | apply Hnext];
      [reflexivity | repeat constructor; auto]
  end.

(** The loop ends, whatever the server answers and whatever the callback
    does: it makes at most as many requests as attempts are left, and
    does nothing but GET the review, call back and wait. *)
Lemma poll_loop_ends (reviewId : string) (onProgress : option Callback)
    (maxAttempts : Z) :
  forall (fuel : nat) (attempts : Z) (w : World),
    (Z.to_nat (maxAttempts - attempts) < fuel)%nat ->
    ends_with reviewId (Z.to_nat (maxAttempts - attempts)) w
      (poll_loop fuel reviewId onProgress maxAttempts attempts w).
Proof.
  induction fuel as [| fuel IH]; intros attempts w Hfuel; [lia |].
  destruct (Z.ltb_spec attempts maxAttempts) as [Hlt | Hge].
  - (* one more round *)
    assert (Hb : Z.to_nat (maxAttempts - attempts)
                 = S (Z.to_nat (maxAttempts - (attempts + 1)))) by lia.
    assert (Hnext : forall w',
              ends_with reviewId (Z.to_nat (maxAttempts - (attempts + 1))) w'
                (poll_loop fuel reviewId onProgress maxAttempts
                   (attempts + 1) w'))
      by (intros w'; apply IH; lia).
    assert (Hget : poll_effect reviewId
                     (Fetch "GET" (review_url cfg reviewId)))
      by (split; reflexivity).
    assert (Hwait : poll_effect reviewId (SetTimeout (POLL_INTERVAL cfg)))
      by reflexivity.
    rewrite Hb.
    cbn [Api.poll_loop].
    assert (E : (attempts <? maxAttempts) = true) by (apply Z.ltb_lt; lia).
    rewrite E. unfold bind at 1. rewrite getReview_observe.
    unfold Api.after_get.
    destruct (observe (sent w)) as [e | r].
    + (* the request failed *)
      destruct (attempts >=? maxAttempts - 1).
      * end_now [Fetch "GET" (review_url cfg reviewId)].
      * api_unfold. rewrite <- app_assoc. cbn [app]. go_on.
    + (* a review came back *)
      destruct onProgress as [f |].
      * api_unfold. rewrite <- app_assoc. cbn [app].
        destruct (f (status r)) as [e |].
        -- destruct (attempts >=? maxAttempts - 1).
           ++ end_now [Fetch "GET" (review_url cfg reviewId);
                       Progress (status r)].
           ++ cbn. rewrite <- app_assoc. cbn [app]. go_on.
        -- destruct (terminal (status r)).
           ++ end_now [Fetch "GET" (review_url cfg reviewId);
                       Progress (status r)].
           ++ cbn. rewrite <- app_assoc. cbn [app]. go_on.
      * api_unfold.
        destruct (terminal (status r)).
        -- end_now [Fetch "GET" (review_url cfg reviewId)].
        -- cbn. rewrite <- app_assoc. cbn [app]. go_on.
  - (* no attempt left *)
    rewrite poll_exhausted by lia.
    replace w with {| sent := sent w + fetches []; effects := effects w ++ [] |}
      at 2
      by (destruct w; cbn; rewrite Nat.add_0_r, app_nil_r; reflexivity).
    apply ends_with_now; [cbn; lia | constructor].
Qed.

Lemma observed_app (n : nat) (revs : list (ReviewResponse CVReview))
    (r : ReviewResponse CVReview) :
  observed n (revs ++ [r]) ->
  observed n revs /\ observe (n + length revs) = inr r.
Proof.
  intros H. split.
  - intros i r' Hi. apply H. rewrite nth_error_app1; [exact Hi |].
    apply nth_error_Some. congruence.
  - apply H. rewrite nth_error_app2 by lia. rewrite Nat.sub_diag. reflexivity.
Qed.

(** [pollReview] up to the request after the reviews [revs], none of them
    terminal *)
Lemma pollReview_prefix (reviewId : string) (onProgress : option Callback)
    (w : World) (revs : list (ReviewResponse CVReview)) :
  Api.quiet onProgress ->
  Forall (fun r => terminal (status r) = false) revs ->
  observed (sent w) revs ->
  Z.of_nat (length revs) <= Z.max 0 (MAX_POLL_ATTEMPTS cfg) ->
  pollReview reviewId onProgress w
  = poll_loop (S (Z.to_nat (MAX_POLL_ATTEMPTS cfg) - length revs)) reviewId
      onProgress (MAX_POLL_ATTEMPTS cfg) (Z.of_nat (length revs))
      {| sent := sent w + length revs;
         effects := effects w ++ flat_map (round reviewId onProgress) revs |}.
Proof.
  intros Hq Hall Hobs Hlen. unfold Api.pollReview, enough_fuel.
  destruct revs as [| r0 revs'].
  - cbn. rewrite Nat.sub_0_r, Nat.add_0_r, app_nil_r. destruct w; reflexivity.
  - rewrite (poll_pending_prefix reviewId onProgress _ (r0 :: revs') Hq Hall);
      [| exact Hobs | cbn [length] in *; lia | cbn [length] in *; lia].
    rewrite Z.add_0_l. f_equal. cbn [length] in *. lia.
Qed.

(** A status that is neither [COMPLETED] nor [FAILED] *)
Lemma not_terminal (revs : list (ReviewResponse CVReview)) :
  Forall (fun r => status r = PENDING \/ status r = PROCESSING) revs ->
  Forall (fun r => terminal (status r) = false) revs.
Proof.
  apply Forall_impl. intros r [-> | ->]; reflexivity.
Qed.

(** C7. [pollReview] always ends, after at most [MAX_POLL_ATTEMPTS]
    requests, and does nothing to the server but GET the review. It asks
    for the review in every round; as soon as the status it sees is
    [COMPLETED] or [FAILED] it returns that review, without a further wait;
    after [PENDING] or [PROCESSING] it waits [POLL_INTERVAL] and asks
    again; after [MAX_POLL_ATTEMPTS] such rounds it throws the error
    "Review processing timeout". *)
Theorem pollReview_bounded (reviewId : string) (onProgress : option Callback)
    (w : World) :
  (exists (out : Outcome CVReview) (new : list Effect),
     pollReview reviewId onProgress w
     = (Some out,
        {| sent := sent w + fetches new; effects := effects w ++ new |}) /\
     (fetches new <= Z.to_nat (MAX_POLL_ATTEMPTS cfg))%nat /\
     Forall (poll_effect reviewId) new) /\
  (forall (revs : list (ReviewResponse CVReview)) (r : ReviewResponse CVReview),
     Api.quiet onProgress ->
     Forall (fun r => status r = PENDING \/ status r = PROCESSING) revs ->
     observed (sent w) (revs ++ [r]) ->
     status r = COMPLETED \/ status r = FAILED ->
     Z.of_nat (length revs) < MAX_POLL_ATTEMPTS cfg ->
     pollReview reviewId onProgress w
     = (Some (Returns r),
        {| sent := sent w + length revs + 1;
           effects := effects w
             ++ flat_map (round reviewId onProgress) revs
             ++ last_round reviewId onProgress r |})) /\
  (forall (revs : list (ReviewResponse CVReview)),
     Api.quiet onProgress ->
     Forall (fun r => status r = PENDING \/ status r = PROCESSING) revs ->
     observed (sent w) revs ->
     Z.of_nat (length revs) = Z.max 0 (MAX_POLL_ATTEMPTS cfg) ->
     pollReview reviewId onProgress w
     = (Some (Throws (ThrowError "Review processing timeout")),
        {| sent := sent w + length revs;
           effects := effects w
             ++ flat_map (round reviewId onProgress) revs |})).
Proof.
  split; [| split].
  - pose proof (poll_loop_ends reviewId onProgress (MAX_POLL_ATTEMPTS cfg)
                  (enough_fuel (MAX_POLL_ATTEMPTS cfg)) 0 w) as H.
    rewrite Z.sub_0_r in H. apply H. unfold enough_fuel. lia.
  - intros revs r Hq Hall Hobs Ht Hlen.
    apply not_terminal in Hall.
    assert (Ht' : terminal (status r) = true)
      by (destruct Ht as [-> | ->]; reflexivity).
    apply observed_app in Hobs. destruct Hobs as [Hobs Hr].
    rewrite (pollReview_prefix reviewId onProgress w revs Hq Hall Hobs)
      by lia.
    rewrite poll_terminal_round with (r := r); auto.
    cbn [sent effects]. rewrite <- app_assoc. f_equal. f_equal. lia.
  - intros revs Hq Hall Hobs Hlen.
    apply not_terminal in Hall.
    rewrite (pollReview_prefix reviewId onProgress w revs Hq Hall Hobs)
      by lia.
    apply poll_exhausted. lia.
Qed.

(** C8, as the code has it. An error of [getReview] is thrown to the
    caller only when it comes on the last attempt. On an earlier attempt
    it is caught: the loop waits [POLL_INTERVAL], counts the attempt and
    asks again, and when the next answer is a review with a terminal
    status that review is returned and the error is gone. *)
Theorem getReview_error_retried (reviewId : string)
    (onProgress : option Callback) (w : World)
    (revs : list (ReviewResponse CVReview)) (e : Thrown) :
  Api.quiet onProgress ->
  Forall (fun r => terminal (status r) = false) revs ->
  observed (sent w) revs ->
  observe (sent w + length revs) = inl e ->
  Z.of_nat (length revs) < MAX_POLL_ATTEMPTS cfg ->
  let w1 :=
    {| sent := sent w + length revs + 1;
       effects := effects w
         ++ flat_map (round reviewId onProgress) revs
         ++ [Fetch "GET" (review_url cfg reviewId)] |} in
  let w2 :=
    {| sent := sent w1;
       effects := effects w1 ++ [SetTimeout (POLL_INTERVAL cfg)] |} in
  (Z.of_nat (length revs) = MAX_POLL_ATTEMPTS cfg - 1 ->
   pollReview reviewId onProgress w = (Some (Throws e), w1)) /\
  (Z.of_nat (length revs) < MAX_POLL_ATTEMPTS cfg - 1 ->
   pollReview reviewId onProgress w
   = poll_loop (Z.to_nat (MAX_POLL_ATTEMPTS cfg) - length revs) reviewId
       onProgress (MAX_POLL_ATTEMPTS cfg) (Z.of_nat (length revs) + 1) w2 /\
   forall r : ReviewResponse CVReview,
     observe (sent w + length revs + 1) = inr r ->
     terminal (status r) = true ->
     pollReview reviewId onProgress w
     = (Some (Returns r),
        {| sent := sent w2 + 1;
           effects := effects w2 ++ last_round reviewId onProgress r |})).
Proof.
  intros Hq Hall Hobs He Hlen w1 w2.
  rewrite (pollReview_prefix reviewId onProgress w revs Hq Hall Hobs) by lia.
  rewrite poll_error_round with (e := e); [| lia | exact He].
  assert (Hw1 : after_get reviewId
                  {| sent := sent w + length revs;
                     effects := effects w
                       ++ flat_map (round reviewId onProgress) revs |} = w1).
  { unfold Api.after_get, w1. cbn [sent effects]. rewrite <- app_assoc.
    f_equal. lia. }
  assert (Hw2 : {| sent := S (sent w + length revs);
                   effects := (effects w
                       ++ flat_map (round reviewId onProgress) revs)
                     ++ [Fetch "GET" (review_url cfg reviewId);
                         SetTimeout (POLL_INTERVAL cfg)] |} = w2).
  { unfold w2, w1. cbn [sent effects]. rewrite <- !app_assoc. cbn [app].
    f_equal. lia. }
  cbn [sent effects]. rewrite Hw1, Hw2. split.
  - intros Hlast.
    assert (E : (Z.of_nat (length revs) >=? MAX_POLL_ATTEMPTS cfg - 1) = true)
      by (apply Z.geb_le; lia).
    rewrite E. reflexivity.
  - intros Hearly.
    assert (E : (Z.of_nat (length revs) >=? MAX_POLL_ATTEMPTS cfg - 1) = false).
    { destruct (Z.geb_spec (Z.of_nat (length revs)) (MAX_POLL_ATTEMPTS cfg - 1));
        [lia | reflexivity]. }
    rewrite E. split; [reflexivity |].
    intros r Hr Ht.
    destruct (Z.to_nat (MAX_POLL_ATTEMPTS cfg) - length revs)%nat
      as [| fuel] eqn:Ef; [lia |].
    rewrite poll_terminal_round with (r := r); auto; [| lia].
    f_equal. f_equal. lia.
Qed.

End ApiProperties.

(* ===================================================================== *)
(** * Properties across the implementations                               *)
(* ===================================================================== *)

(** C2, as the code has it. No implementation looks at the status before
    it starts: there is no "already running" error. A JavaScript
    [process] call made while the status is [PROCESSING] sets
    [PROCESSING] again, sets a timer of its own for a second
    [executeProcessing] and is not rejected; two calls that race this way
    are both resolved. The Go [Process] does on a manager it finds in
    [StatusProcessing] what it does on the same manager in
    [StatusPending]. *)
Theorem process_has_no_running_guard
    (Data : Type) (JSON_stringify_length : Data -> option Z)
    (l : Js.Loop Data) (d : Data)
    (GoData : Type) (fmt_v : GoData -> string) (ctx : Go.Context)
    (data : option GoData) (gm : Go.Manager) (gw : Go.World) :
  Js.status (fst (Js.self l)) = Js.PROCESSING ->
  Go.status gm = Go.StatusProcessing ->
  (let l' := Js.call_process Data (Js.Val d) l in
   Js.status (fst (Js.self l')) = Js.PROCESSING /\
   Js.timers l'
     = (Js.timers l ++ [{| Js.due := Js.clock (snd (Js.self l)) + 100;
                           Js.owner := Js.calls l;
                           Js.payload := Js.Val d |}])%list /\
   Js.settled l' = Js.settled l) /\
  (forall (l0 : Js.Loop Data) (d1 d2 : Data) (n1 n2 : Z),
     Js.timers l0 = [] ->
     JSON_stringify_length d1 = Some n1 ->
     JSON_stringify_length d2 = Some n2 ->
     let l1 := Js.run Data JSON_stringify_length [Js.CallProcess (Js.Val d1)] l0 in
     let l4 := Js.run Data JSON_stringify_length
                 [Js.CallProcess (Js.Val d2); Js.Fire; Js.Fire] l1 in
     Js.status (fst (Js.self l1)) = Js.PROCESSING /\
     exists r1 r2 : Js.Result,
       Js.settled l4
       = (Js.settled l0 ++ [(Js.calls l0, Js.Resolved r1);
                            (S (Js.calls l0), Js.Resolved r2)])%list) /\
  Go.Process fmt_v ctx data (gm, gw)
  = Go.Process fmt_v ctx data (Go.set_status gm Go.StatusPending, gw).
Proof.
  intros _ _. split; [| split].
  - pose proof (call_process_valid d l) as H. cbn zeta in H. cbn zeta.
    destruct H as (H1 & _ & _ & H4 & H5 & _). auto.
  - intros l0 d1 d2 n1 n2 Ht H1 H2.
    pose proof (race_both_resolved JSON_stringify_length d1 d2 n1 n2 l0
                  Ht H1 H2) as H.
    cbn zeta in H. destruct H as (Ha & Hb & _ & _).
    cbn zeta. split; [exact Ha |]. do 2 eexists. exact Hb.
  - symmetry. apply Process_ignores_status.
Qed.

(** C5, as the code has it. [Reset] has no way to fail and tests nothing:
    from every status, [PROCESSING] included, it sets the status to
    pending, leaves configuration and creation time as they are, and
    writes its log line. Repeating it leaves the manager as the first
    [Reset] left it. *)
Theorem Reset_from_every_status
    (m : Go.Manager) (w : Go.World)
    (Domain : string) (jm : Java.Manager) (jw : Java.World) :
  (Go.Reset (m, w)
   = (tt, (Go.set_status m Go.StatusPending,
           {| Go.now := Go.now w; Go.coins := Go.coins w;
              Go.events := (Go.events w
                ++ [Go.Printf "Configuration manager reset completed"])%list |})) /\
   fst (snd (Go.Reset (snd (Go.Reset (m, w)))))
   = fst (snd (Go.Reset (m, w)))) /\
  (Java.reset Domain (jm, jw)
   = (tt, (Java.set_status jm Java.PENDING,
           {| Java.now := Java.now jw;
              Java.events := (Java.events jw
                ++ [Java.Log Java.INFO
                      (Domain ++ " manager reset completed")])%list |})) /\
   fst (snd (Java.reset Domain (snd (Java.reset Domain (jm, jw)))))
   = fst (snd (Java.reset Domain (jm, jw)))).
Proof. repeat split. Qed.

(** C9, as the code has it. The C++ future holds the outcome of
    [process]: [get()] returns its value or throws its exception. The Go
    channel carries a result only. When [Process] returns a result, that
    result is delivered; when [Process] returns an error, a result with
    status "error" and the error's text as message is delivered in place
    of the pair; and when the context is done at the time of the send,
    the channel may be closed with nothing in it. The manager ends as
    after a direct [Process]. *)
Theorem ProcessAsync_outcome
    (Data : Type) (fmt_v : Data -> string) (ctx : Go.Context)
    (data : option Data) (s : Go.Manager * Go.World)
    (cdata : string) (cs : Cpp.Manager * Cpp.World) :
  (let '(out, s1) := Go.Process fmt_v ctx data s in
   let '(h, s2) := Go.ProcessAsync fmt_v ctx data s in
   fst s2 = fst s1 /\
   Go.async_result out
   = match out with
     | (_, Some err) =>
         Some {| Go.r_Status := "error"; Go.r_ProcessedAt := 0;
                 Go.r_DataSize := 0; Go.r_ProcessingTime := 0;
                 Go.r_Message := Go.Error err |}
     | (r, None) => r
     end /\
   if Go.Done_ready ctx (Go.now (snd s1))
   then h = Go.async_result out \/ h = None
   else h = Go.async_result out /\ s2 = s1) /\
  (Cpp.future_get (fst (Cpp.processAsync cdata cs)) = fst (Cpp.process cdata cs) /\
   snd (Cpp.processAsync cdata cs) = snd (Cpp.process cdata cs)).
Proof.
  split.
  - pose proof (ProcessAsync_delivers fmt_v ctx data s) as H.
    destruct (Go.Process fmt_v ctx data s) as [out s1].
    destruct (Go.ProcessAsync fmt_v ctx data s) as [h s2].
    destruct H as [H1 H2]. split; [exact H1 | split; [| exact H2]].
    destruct out as [r [err |]]; reflexivity.
  - unfold Cpp.processAsync, bind.
    destruct (Cpp.process cdata cs) as [[r | e] s']; split; reflexivity.
Qed.

(** C10. A manager made without a configuration gets the default one
    (enabled, timeout 30 seconds, 3 retries, log level "INFO") and starts
    pending; the constructor does not fail. *)
Theorem new_manager_without_config
    (w : Go.World)
    (Domain : string) (Level_parse_other : string -> option Java.Level)
    (jw : Java.World) :
  (Go.NewManager None w
   = ({| Go.config := {| Go.Enabled := true;
                         Go.Timeout := 30 * Go.Second;
                         Go.Retries := 3;
                         Go.LogLevel := "INFO" |};
         Go.status := Go.StatusPending;
         Go.createdAt := Go.now w |},
      {| Go.now := Go.now w; Go.coins := Go.coins w;
         Go.events := (Go.events w
           ++ [Go.Printf
                 "Initialized configuration manager with configuration"])%list |}) /\
   30 * Go.Second = 30000000000) /\
  Java.new_Manager Domain Level_parse_other None jw
  = (Java.Returned
       {| Java.config := {| Java.enabled := true;
                            Java.timeout := 30;
                            Java.retries := 3;
                            Java.logLevel := Java.ref "INFO" |};
          Java.status := Java.PENDING;
          Java.createdAt := Java.now jw |},
     {| Java.now := Java.now jw;
        Java.events := (Java.events jw
          ++ [Java.SetLevel Java.INFO;
              Java.Log Java.INFO
                ("Initialized " ++ Domain ++ "Manager with configuration")])%list |}).
Proof.
  split; [split; reflexivity |].
  unfold Java.new_Manager, Java.setupLogging, bind, gets. cbn.
  rewrite <- app_assoc. reflexivity.
Qed.

(* ===================================================================== *)
(** * The code on concrete inputs                                         *)
(* ===================================================================== *)

(** The status machine of the specification is not kept by the Java
    manager: [reset], run by a second thread between the two writes of
    [process], takes the status from [PROCESSING] to [PENDING]; and a
    second [process] takes it from [COMPLETED] back to [PROCESSING]. *)
Lemma status_machine_not_kept :
  snd (Java.schedule "Monitoring" "monitoring" string java_toString
         [0; 1]%nat java_system)
  = [(Java.OpProcess, Java.PENDING, Java.PROCESSING);
     (Java.OpReset, Java.PROCESSING, Java.PENDING)] /\
  Java.spec_allows Java.OpReset Java.PROCESSING Java.PENDING = false /\
  snd (Java.schedule "Monitoring" "monitoring" string java_toString
         [0; 0; 2]%nat java_system)
  = [(Java.OpProcess, Java.PENDING, Java.PROCESSING);
     (Java.OpProcess, Java.PROCESSING, Java.COMPLETED);
     (Java.OpProcess, Java.COMPLETED, Java.PROCESSING)] /\
  Java.spec_allows Java.OpProcess Java.COMPLETED Java.PROCESSING = false.
Proof. repeat split. Qed.

Lemma status_progress_as_coded_witness :
  Java.status (fst java_fresh) = Java.PENDING /\
  snd (Java.schedule "Monitoring" "monitoring" string java_toString
         [0; 0]%nat
         {| Java.shared := java_fresh;
            Java.threads := [Java.at_process_begin (Some "a")] |})
  = [(Java.OpProcess, Java.PENDING, Java.PROCESSING);
     (Java.OpProcess, Java.PROCESSING, Java.COMPLETED)] /\
  snd (Java.schedule "Monitoring" "monitoring" string java_toString_throws
         [0; 0]%nat
         {| Java.shared := java_fresh;
            Java.threads := [Java.at_process_begin (Some "a")] |})
  = [(Java.OpProcess, Java.PENDING, Java.PROCESSING);
     (Java.OpProcess, Java.PROCESSING, Java.FAILED)] /\
  snd (Java.schedule "Monitoring" "monitoring" string java_toString_overflows
         [0; 0]%nat
         {| Java.shared := java_fresh;
            Java.threads := [Java.at_process_begin (Some "a")] |})
  = [(Java.OpProcess, Java.PENDING, Java.PROCESSING);
     (Java.OpProcess, Java.PROCESSING, Java.PROCESSING)].
Proof.
  split; [reflexivity |].
  destruct (status_progress_as_coded "Monitoring" "monitoring" java_toString
              (Some "a") (fst java_fresh) (snd java_fresh) eq_refl)
    as [(f1 & H1 & Hf1 & _) _].
  destruct (status_progress_as_coded "Monitoring" "monitoring"
              java_toString_throws
              (Some "a") (fst java_fresh) (snd java_fresh) eq_refl)
    as [(f2 & H2 & Hf2 & _) _].
  destruct (status_progress_as_coded "Monitoring" "monitoring"
              java_toString_overflows
              (Some "a") (fst java_fresh) (snd java_fresh) eq_refl)
    as [(f3 & H3 & Hf3 & _) _].
  cbn in Hf1, Hf2, Hf3. subst f1 f2 f3.
  split; [exact H1 |]. split; [exact H2 | exact H3].
Defined.

(** A second [process] call on a manager that is [PROCESSING] is not
    refused: it sets a second timer, and both calls are resolved. *)
Lemma second_process_call_not_refused :
  let l1 := Js.run string plain_string_length
              [Js.CallProcess (Js.Val "resume.pdf")] js_loop0 in
  let l2 := Js.run string plain_string_length
              [Js.CallProcess (Js.Val "resume.pdf")] l1 in
  let l4 := Js.run string plain_string_length [Js.Fire; Js.Fire] l2 in
  let result :=
    {| Js.r_status := "success"; Js.r_processedAt := 100;
       Js.r_dataSize := 12; Js.r_processingTime := 100 |} in
  Js.status (fst (Js.self l1)) = Js.PROCESSING /\
  length (Js.timers l2) = 2%nat /\
  Js.outcome 1 (Js.settled l2) = None /\
  Js.outcome 0 (Js.settled l4) = Some (Js.Resolved result) /\
  Js.outcome 1 (Js.settled l4) = Some (Js.Resolved result) /\
  (* Go: the second of two calls, run when the mutex is free again *)
  let '(out1, s1) :=
    Go.Process fmt_string Go.Background (Some "resume.pdf") go_fresh in
  let '(out2, s2) :=
    Go.Process fmt_string Go.Background (Some "resume.pdf") s1 in
  snd out1 = None /\ snd out2 = None /\
  Go.status (fst s2) = Go.StatusCompleted /\
  Go.entries "executeProcessing" (Go.events (snd s2)) = 2%nat.
Proof. cbn. repeat split. Qed.

Lemma process_has_no_running_guard_witness :
  let l1 := Js.run string plain_string_length
              [Js.CallProcess (Js.Val "resume.pdf")] js_loop0 in
  let gm := Go.set_status (fst go_fresh) Go.StatusProcessing in
  Js.status (fst (Js.self l1)) = Js.PROCESSING /\
  Go.status gm = Go.StatusProcessing /\
  Js.timers (Js.call_process string (Js.Val "resume.pdf") l1)
  = (Js.timers l1 ++ [{| Js.due := 100; Js.owner := 1%nat;
                         Js.payload := Js.Val "resume.pdf" |}])%list /\
  Go.Process fmt_string Go.Background (Some "resume.pdf") (gm, snd go_fresh)
  = Go.Process fmt_string Go.Background (Some "resume.pdf")
      (Go.set_status gm Go.StatusPending, snd go_fresh).
Proof.
  cbn zeta.
  pose proof (process_has_no_running_guard string plain_string_length
                (Js.run string plain_string_length
                   [Js.CallProcess (Js.Val "resume.pdf")] js_loop0)
                "resume.pdf" string fmt_string Go.Background
                (Some "resume.pdf")
                (Go.set_status (fst go_fresh) Go.StatusProcessing)
                (snd go_fresh) eq_refl eq_refl) as [(_ & H & _) [_ G]].
  split; [reflexivity |]. split; [reflexivity |].
  split; [exact H | exact G].
Defined.



Lemma Process_validation_failure_witness :
  fst (Go.Validate (Data := string) None go_fresh)
  = Some (Go.Errorf "data cannot be nil") /\
  let '(out, (m', w')) :=
    Go.Process fmt_string Go.Background None go_fresh in
  out = (None, Some (Go.Errorf_w "validation failed: "
                       (Go.Errorf "data cannot be nil"))) /\
  Go.Error (Go.Errorf_w "validation failed: " (Go.Errorf "data cannot be nil"))
  = "validation failed: data cannot be nil" /\
  Go.status m' = Go.StatusFailed /\
  Go.entries "executeProcessing" (Go.events w') = O.
Proof.
  split; [reflexivity |].
  exact (Process_validation_failure fmt_string Go.Background None go_fresh
           (Go.Errorf "data cannot be nil") eq_refl).
Defined.

Lemma Process_success_witness :
  let r0 :=
    {| Go.r_Status := "success";
       Go.r_ProcessedAt := 100 * Go.Millisecond;
       Go.r_DataSize := 10;
       Go.r_ProcessingTime := 0;
       Go.r_Message := "Configuration processing completed successfully" |} in
  fst (Go.executeProcessing fmt_string Go.Background (Some "resume.pdf")
         go_fresh) = (Some r0, None) /\
  let '(out, (m', w')) :=
    Go.Process fmt_string Go.Background (Some "resume.pdf") go_fresh in
  out = (Some (Go.set_ProcessingTime r0 (100 * Go.Millisecond)), None) /\
  Go.status m' = Go.StatusCompleted.
Proof.
  cbn zeta. split; [reflexivity |].
  pose proof (Process_success fmt_string Go.Background "resume.pdf" go_fresh
                _ eq_refl) as H.
  destruct (Go.Process fmt_string Go.Background (Some "resume.pdf") go_fresh)
    as [out [m' w']] eqn:E.
  destruct H as (H1 & H2 & _).
  split; [| exact H2].
  rewrite H1. vm_compute in E. injection E as _ _ <-. reflexivity.
Defined.

(** [reset] called while the status is [PROCESSING] does not fail and does
    not leave the manager as it was: in Java, where a second thread can
    get there, the status goes to [PENDING] and [reset] returns; the Go
    [Reset], given a manager in [StatusProcessing], does the same. *)
Lemma Reset_while_processing_goes_through :
  let sys1 :=
    fst (Java.schedule "Configuration" "configuration" string java_toString
           [0]%nat java_system) in
  let sys2 :=
    fst (Java.schedule "Configuration" "configuration" string java_toString
           [1]%nat sys1) in
  let gm := Go.set_status (fst go_fresh) Go.StatusProcessing in
  Java.status (fst (Java.shared sys1)) = Java.PROCESSING /\
  Java.status (fst (Java.shared sys2)) = Java.PENDING /\
  nth_error (Java.threads sys2) 1 = Some Java.reset_done /\
  Java.shared sys2 <> Java.shared sys1 /\
  Go.status gm = Go.StatusProcessing /\
  Go.status (fst (snd (Go.Reset (gm, snd go_fresh)))) = Go.StatusPending /\
  fst (snd (Go.Reset (gm, snd go_fresh))) <> gm.
Proof.
  cbn. repeat split; discriminate.
Qed.

(** A 404 on the first request is not given to the caller: the poller
    waits, asks again and returns the completed review. *)
Lemma NotFound_mid_poll_swallowed :
  Api.observe unit server_404_first 0
  = inl (Api.ThrowApiError
           {| Api.error := Api.JString "Review not found";
              Api.detail := Some (Api.JString "Review not found");
              Api.http_status := 404 |}) /\
  Api.pollReview unit quick_poll server_404_first "r1" None api_world0
  = (Some (Api.Returns (review_in Api.COMPLETED)),
     {| Api.sent := 2;
        Api.effects :=
          [Api.Fetch "GET" "http://localhost:8000/api/review/r1";
           Api.SetTimeout 50;
           Api.Fetch "GET" "http://localhost:8000/api/review/r1"] |}).
Proof. split; reflexivity. Qed.

Lemma getReview_error_retried_witness :
  (* the error comes on the last of the three attempts: it is thrown *)
  fst (Api.pollReview unit quick_poll server_404_third "r1" None api_world0)
  = Some (Api.Throws
            (Api.ThrowApiError
               {| Api.error := Api.JString "Review not found";
                  Api.detail := Some (Api.JString "Review not found");
                  Api.http_status := 404 |})) /\
  (* the error comes on the first attempt: the next answer is returned *)
  fst (Api.pollReview unit quick_poll server_404_first "r1" None api_world0)
  = Some (Api.Returns (review_in Api.COMPLETED)).
Proof.
  assert (Hp : Forall (fun r : Api.ReviewResponse unit =>
                         Api.terminal (Api.status r) = false)
                 [review_in Api.PROCESSING; review_in Api.PROCESSING])
    by (repeat constructor).
  assert (Ho : Api.observed unit server_404_third (Api.sent api_world0)
                 [review_in Api.PROCESSING; review_in Api.PROCESSING]).
  { intros i r H. destruct i as [| [| i]]; cbn in H.
    - injection H as <-. reflexivity.
    - injection H as <-. reflexivity.
    - destruct i; discriminate H. }
  assert (Ho0 : Api.observed unit server_404_first (Api.sent api_world0) [])
    by (intros i r H; destruct i; discriminate H).
  split.
  - pose proof (getReview_error_retried quick_poll server_404_third "r1" None
                  api_world0 _ _ I Hp Ho eq_refl eq_refl) as [H _].
    rewrite (H eq_refl). reflexivity.
  - pose proof (getReview_error_retried quick_poll server_404_first "r1" None
                  api_world0 [] _ I (Forall_nil _) Ho0 eq_refl eq_refl)
      as [_ H].
    destruct (H eq_refl) as [_ Hr].
    rewrite (Hr (review_in Api.COMPLETED) eq_refl eq_refl). reflexivity.
Defined.

Lemma pollReview_bounded_witness :
  (* three rounds of [PROCESSING]: the timeout error, after three requests
     and three waits *)
  Api.pollReview unit quick_poll server_stuck "r1" None api_world0
  = (Some (Api.Throws (Api.ThrowError "Review processing timeout")),
     {| Api.sent := 3;
        Api.effects :=
          [Api.Fetch "GET" "http://localhost:8000/api/review/r1";
           Api.SetTimeout 50;
           Api.Fetch "GET" "http://localhost:8000/api/review/r1";
           Api.SetTimeout 50;
           Api.Fetch "GET" "http://localhost:8000/api/review/r1";
           Api.SetTimeout 50] |}) /\
  (* [COMPLETED] on the second request: returned, with no wait after it *)
  Api.pollReview unit quick_poll server_done_second "r1" None api_world0
  = (Some (Api.Returns (review_in Api.COMPLETED)),
     {| Api.sent := 2;
        Api.effects :=
          [Api.Fetch "GET" "http://localhost:8000/api/review/r1";
           Api.SetTimeout 50;
           Api.Fetch "GET" "http://localhost:8000/api/review/r1"] |}) /\
  (* [PENDING], [PROCESSING], then [FAILED] on the third and last attempt:
     returned as well, with no wait after it *)
  Api.pollReview unit quick_poll server_failed_third "r1" None api_world0
  = (Some (Api.Returns (review_in Api.FAILED)),
     {| Api.sent := 3;
        Api.effects :=
          [Api.Fetch "GET" "http://localhost:8000/api/review/r1";
           Api.SetTimeout 50;
           Api.Fetch "GET" "http://localhost:8000/api/review/r1";
           Api.SetTimeout 50;
           Api.Fetch "GET" "http://localhost:8000/api/review/r1"] |}).
Proof.
  split; [| split].
  - refine (proj2 (proj2 (pollReview_bounded quick_poll server_stuck "r1"
                            None api_world0))
              [review_in Api.PROCESSING; review_in Api.PROCESSING;
               review_in Api.PROCESSING] I _ _ eq_refl).
    + repeat constructor; right; reflexivity.
    + intros i r H. destruct i as [| [| [| i]]]; cbn in H;
        try (injection H as <-; reflexivity).
      destruct i; discriminate H.
  - refine (proj1 (proj2 (pollReview_bounded quick_poll server_done_second
                            "r1" None api_world0))
              [review_in Api.PROCESSING] (review_in Api.COMPLETED)
              I _ _ (or_introl eq_refl) eq_refl).
    + repeat constructor; right; reflexivity.
    + intros i r H. destruct i as [| [| i]]; cbn in H;
        try (injection H as <-; reflexivity).
      destruct i; discriminate H.
  - refine (proj1 (proj2 (pollReview_bounded quick_poll server_failed_third
                            "r1" None api_world0))
              [review_in Api.PENDING; review_in Api.PROCESSING]
              (review_in Api.FAILED)
              I _ _ (or_intror eq_refl) eq_refl).
    + constructor; [left; reflexivity |].
      constructor; [right; reflexivity | constructor].
    + intros i r H. destruct i as [| [| [| i]]]; cbn in H;
        try (injection H as <-; reflexivity).
      destruct i; discriminate H.
Defined.

(** The channel of [ProcessAsync] does not resolve to the pair a direct
    [Process] returns. For the nil payload [Process] returns no result and
    the error "validation failed: ...", the channel delivers a result and
    no error. With a context that is already cancelled [Process] returns
    the error "processing failed: context canceled" and the channel can be
    closed with nothing in it. *)
Lemma channel_differs_from_direct_call :
  let direct := spec_Submit fmt_string Go.Background None go_fresh in
  let handle := fst (Go.ProcessAsync fmt_string Go.Background None go_fresh) in
  direct = (None, Some (Go.Errorf_w "validation failed: "
                          (Go.Errorf "data cannot be nil"))) /\
  handle = Some {| Go.r_Status := "error";
                   Go.r_ProcessedAt := 0;
                   Go.r_DataSize := 0;
                   Go.r_ProcessingTime := 0;
                   Go.r_Message := "validation failed: data cannot be nil" |} /\
  received_pair handle <> direct /\
  let s := (fst go_fresh, go_world_second 0) in
  spec_Submit fmt_string go_canceled (Some "resume.pdf") s
  = (None, Some (Go.Errorf_w "processing failed: " Go.Canceled)) /\
  fst (Go.ProcessAsync fmt_string go_canceled (Some "resume.pdf") s) = None.
Proof.
  cbn. repeat split. discriminate.
Qed.

(* ===================================================================== *)
(** * Further properties of the Go manager                                *)
(* ===================================================================== *)

Section GoUseProperties.

Context {Data : Type} (fmt_v : Data -> string).

Import Go GoUse.

Ltac go_run :=
  unfold Process, ProcessAsync, executeProcessing, Validate,
    select_After_or_Done, Reset, Close, GetStatus, GetConfig, GetCreatedAt,
    logger_Printf, emit, on_world, store_status, time_Now, time_Since,
    sleep_until, flip, Done_ready, bind, ret, gets, modify;
  cbn.


(** [time.After] fires no earlier than after its duration, and a result
    is made only once it has fired: the [ProcessingTime] a successful
    [Process] reports is never less than the Worker's 100 ms, under any
    context. The clock never goes back. *)
Theorem Process_duration (ctx : Context) (data : option Data)
    (m : Manager) (w : World) :
  let '(out, (m', w')) := Process fmt_v ctx data (m, w) in
  now w <= now w' /\
  (forall r, fst out = Some r ->
             100 * Millisecond <= r_ProcessingTime r /\
             now w + 100 * Millisecond <= now w').
Proof.
  destruct data as [d |]; go_run.
  - destruct (Done_at ctx) as [dl |]; cbn.
    + destruct (Z.ltb_spec dl (now w + 100000000)); cbn.
      * split; [lia | intros r Q; discriminate].
      * destruct (Z.ltb_spec (now w + 100000000) dl); cbn.
        -- split; [lia |]. intros r Q. injection Q as <-. cbn.
           unfold Millisecond. lia.
        -- destruct (coins w) as [| [] cs]; cbn;
             (split; [lia |]); intros r Q; try discriminate;
             injection Q as <-; cbn; unfold Millisecond; lia.
    + split; [lia |]. intros r Q. injection Q as <-. cbn.
      unfold Millisecond. lia.
  - split; [lia | intros r Q; discriminate].
Qed.

(** [Process] keeps configuration and creation time and leaves a
    terminal status. *)
Lemma Process_leaves (ctx : Context) (data : option Data)
    (m : Manager) (w : World) :
  let m' := fst (snd (Process fmt_v ctx data (m, w))) in
  config m' = config m /\
  createdAt m' = createdAt m /\
  (status m' = StatusCompleted \/ status m' = StatusFailed).
Proof.
  cbn zeta. destruct data as [d |]; go_run.
  - destruct (Done_at ctx) as [dl |]; cbn;
      repeat (case_if; cbn);
      try (destruct (coins w) as [| [] cs]; cbn);
      repeat split; auto.
  - repeat split; auto.
Qed.

(** One call keeps the configuration and the creation time, and leaves a
    status other than processing when it found one. *)
Lemma call_keeps (c : Call Data) (s : Manager * World) :
  let '(r, s') := call fmt_v c s in
  config (fst s') = config (fst s) /\
  createdAt (fst s') = createdAt (fst s) /\
  (status (fst s) <> StatusProcessing ->
   status (fst s') <> StatusProcessing /\ r <> StatusIs StatusProcessing).
Proof.
  destruct s as [m w]. destruct c as [ctx data | ctx data | | | | | | d].
  - pose proof (Process_leaves ctx data m w) as H. cbn zeta in H.
    unfold call, bind.
    destruct (Process fmt_v ctx data (m, w)) as [out [m' w']].
    cbn in *. destruct H as (K1 & K2 & K3). repeat split; auto.
    + destruct K3 as [K3 | K3]; rewrite K3; discriminate.
    + discriminate.
  - pose proof (ProcessAsync_delivers fmt_v ctx data (m, w)) as D.
    pose proof (Process_leaves ctx data m w) as H. cbn zeta in H.
    unfold call, bind.
    destruct (Process fmt_v ctx data (m, w)) as [out [m' w']].
    destruct (ProcessAsync fmt_v ctx data (m, w)) as [h [m2 w2]].
    cbn in *. destruct D as [D _]. subst m2.
    destruct H as (K1 & K2 & K3). repeat split; auto.
    + destruct K3 as [K3 | K3]; rewrite K3; discriminate.
    + discriminate.
  - cbn. repeat split; auto. intros E. injection E as E. auto.
  - cbn. repeat split; discriminate.
  - cbn. repeat split; auto. discriminate.
  - cbn. repeat split; auto. discriminate.
  - cbn. repeat split; auto. discriminate.
  - cbn. repeat split; auto. discriminate.
Qed.

(** Whatever calls are made on a manager, in whatever order and with
    whatever pauses: its configuration and creation time stay what they
    were, and between calls the status is never processing, so that
    [GetStatus] never reports it. *)
Theorem calls_keep (cs : list (Call Data)) (s : Manager * World) :
  status (fst s) <> StatusProcessing ->
  let '(rs, s') := calls fmt_v cs s in
  config (fst s') = config (fst s) /\
  createdAt (fst s') = createdAt (fst s) /\
  status (fst s') <> StatusProcessing /\
  ~ In (StatusIs StatusProcessing) rs.
Proof.
  revert s. induction cs as [| c cs IH]; intros s Hs.
  - cbn. auto.
  - cbn [calls]. unfold bind at 1.
    pose proof (call_keeps c s) as Hc.
    destruct (call fmt_v c s) as [r s1].
    destruct Hc as (C1 & C2 & C3). destruct (C3 Hs) as [C4 C5].
    specialize (IH s1 C4). unfold bind at 1.
    destruct (calls fmt_v cs s1) as [rs s2].
    destruct IH as (I1 & I2 & I3 & I4). cbn.
    repeat split; try congruence.
    intros [H | H]; [exact (C5 H) | exact (I4 H)].
Qed.

(** [Close] returns no error and closes nothing: it leaves the manager as
    it is, and a [Process] made after it returns what it returns without
    it and leaves the same manager. *)
Theorem Close_changes_nothing (ctx : Context) (data : option Data)
    (s : Manager * World) :
  fst (Close s) = None /\
  fst (snd (Close s)) = fst s /\
  fst (Process fmt_v ctx data (snd (Close s))) = fst (Process fmt_v ctx data s) /\
  fst (snd (Process fmt_v ctx data (snd (Close s))))
  = fst (snd (Process fmt_v ctx data s)).
Proof.
  destruct s as [m w]. split; [reflexivity |]. split; [reflexivity |].
  destruct data as [d |]; go_run.
  - destruct (Done_at ctx) as [dl |]; cbn;
      repeat (case_if; cbn);
      try (destruct (coins w) as [| [] cs]; cbn);
      split; reflexivity.
  - split; reflexivity.
Qed.

(** Under a context that is never done, the channel of [ProcessAsync]
    always delivers a result: with status text "success" for a payload
    that is not nil, and for the nil payload with status text "error" and
    the text of the validation error as message. *)
Theorem ProcessAsync_live (ctx : Context) (data : option Data)
    (s : Manager * World) :
  Done_at ctx = None ->
  exists r : Result,
    fst (ProcessAsync fmt_v ctx data s) = Some r /\
    match data with
    | Some _ => r_Status r = "success"
    | None =>
        r_Status r = "error" /\
        r_Message r = "validation failed: data cannot be nil"
    end.
Proof.
  intros Hd. destruct s as [m w]. destruct ctx as [da ea]. cbn in Hd.
  subst da. destruct data as [d |]; go_run; eexists; split; try reflexivity.
  split; reflexivity.
Qed.

End GoUseProperties.

(* ===================================================================== *)
(** * Further properties of the Java managers                             *)
(* ===================================================================== *)

Section JavaUseProperties.

Context (Domain domain : string) {Data : Type}
        (toString : Data -> Java.Exc string)
        (Level_parse_other : string -> option Java.Level).

Import Java JavaUse.

Local Abbreviation process := (Java.process Domain domain Data toString).
Local Abbreviation process_rest := (Java.process_rest Domain Data toString).
Local Abbreviation step := (Java.step Domain domain Data toString).
Local Abbreviation schedule1 := (Java.schedule1 Domain domain Data toString).
Local Abbreviation schedule := (Java.schedule Domain domain Data toString).
Local Abbreviation returns := (JavaUse.returns Domain domain Data toString).
Local Abbreviation advance1 := (JavaUse.advance1 Domain domain Data toString).
Local Abbreviation advance := (JavaUse.advance Domain domain Data toString).
Local Abbreviation new_Manager := (Java.new_Manager Domain Level_parse_other).

Ltac java_run :=
  unfold Java.process, Java.process_begin, Java.process_rest,
    Java.process_catch, Java.validate, Java.executeProcessing, Java.reset,
    Java.step, Java.new_Manager, Java.setupLogging, JavaUse.returns,
    LOGGER_log, emit, store_status, LocalDateTime_now,
    bind, ret, gets, modify;
  cbn.

(** [process] has three outcomes. It returns the result map and leaves
    [COMPLETED] when [toString()] returns. For the [null] payload, and
    when [toString()] throws an [Exception], it leaves [FAILED], logs at
    [SEVERE] and throws a [RuntimeException] with the message
    "Processing failed: " followed by the cause's message: the
    [IllegalArgumentException] of a failed validation never reaches the
    caller. When [toString()] throws what is no [Exception], that object
    reaches the caller as it is, the status stays [PROCESSING] and
    nothing more is logged. The configuration, the creation time and the
    clock stay as they are. *)
Theorem Java_process_outcomes (data : option Data) (s : Manager * World) :
  let '(out, (m', w')) := process data s in
  let started := Log INFO ("Starting " ++ domain ++ " processing") in
  let failed := Log SEVERE (Domain ++ " processing failed") in
  match data with
  | None =>
      out = Thrown {| exn_class := "RuntimeException";
                      getMessage := "Processing failed: Data validation failed";
                      is_Exception := true |} /\
      status m' = FAILED /\
      events w'
      = (events (snd s)
          ++ [started; Log WARNING "Validation failed: data is null"; failed])%list
  | Some d =>
      match toString d with
      | Returned text =>
          out = Returned {| r_status := "success";
                            r_processedAt := now (snd s);
                            r_dataSize := Z.of_nat (String.length text);
                            r_processingTime := 100 |} /\
          status m' = COMPLETED /\
          events w'
          = (events (snd s)
              ++ [started; Log FINE "Data validation passed";
                  Log INFO (Domain ++ " processing completed successfully")%string])%list
      | Thrown e =>
          if is_Exception e then
            out = Thrown {| exn_class := "RuntimeException";
                            getMessage := "Processing failed: " ++ getMessage e;
                            is_Exception := true |} /\
            status m' = FAILED /\
            events w'
            = (events (snd s)
                ++ [started; Log FINE "Data validation passed"; failed])%list
          else
            out = Thrown e /\
            status m' = PROCESSING /\
            events w'
            = (events (snd s)
                ++ [started; Log FINE "Data validation passed"])%list
      end
  end /\
  config m' = config (fst s) /\
  createdAt m' = createdAt (fst s) /\
  now w' = now (snd s).
Proof.
  destruct s as [m w]. destruct data as [d |]; java_run.
  - destruct (toString d) as [text | e]; cbn;
      [| destruct (is_Exception e); cbn];
      repeat rewrite <- app_assoc; repeat split.
  - repeat rewrite <- app_assoc. repeat split.
Qed.

(** The constructor and the configured log level. With the level [null]
    it throws [NullPointerException], with a string [Level.parse] does
    not know [IllegalArgumentException], and in both cases nothing is
    logged and no level is set; with a string [Level.parse] knows it
    sets that level, logs one line and returns a [PENDING] manager that
    holds the given configuration. Every standard level name is known,
    so that [setLogLevel(null)] and an unknown name are the only ways to
    make the constructor fail. *)
Theorem new_Manager_log_level (c : Config) (w : World) :
  match logLevel c with
  | null =>
      exists e, new_Manager (Some c) w = (Thrown e, w) /\
                exn_class e = "NullPointerException"
  | ref name =>
      match Java.Level_parse Level_parse_other name with
      | Some level =>
          new_Manager (Some c) w
          = (Returned {| config := c; status := PENDING; createdAt := now w |},
             {| now := now w;
                events := events w
                  ++ [SetLevel level;
                      Log INFO ("Initialized " ++ Domain
                                ++ "Manager with configuration")] |})
      | None =>
          exists e, new_Manager (Some c) w = (Thrown e, w) /\
                    exn_class e = "IllegalArgumentException"
      end
  end /\
  (forall name,
     In name ["OFF"; "SEVERE"; "WARNING"; "INFO"; "CONFIG"; "FINE"; "FINER";
              "FINEST"; "ALL"] ->
     Java.Level_parse Level_parse_other name <> None) /\
  ((exists e, fst (new_Manager (Some c) w) = Thrown e) <->
   match logLevel c with
   | null => True
   | ref name => Java.Level_parse Level_parse_other name = None
   end).
Proof.
  split; [| split].
  - java_run. destruct (logLevel c) as [| name]; cbn.
    + eexists. split; reflexivity.
    + destruct (Java.Level_parse Level_parse_other name) as [l |]; cbn.
      * rewrite <- app_assoc. reflexivity.
      * eexists. split; reflexivity.
  - intros name H. unfold Java.Level_parse. cbn in H.
    repeat (destruct H as [<- | H]; [cbn; discriminate |]).
    destruct H.
  - java_run. destruct (logLevel c) as [| name]; cbn.
    + split; [trivial | intros _; eexists; reflexivity].
    + destruct (Java.Level_parse Level_parse_other name) as [l |]; cbn.
      * split; [intros [e He]; discriminate | discriminate].
      * split; [reflexivity | intros _; eexists; reflexivity].
Qed.

Lemma nth_error_set_nth_eq {A : Type} (l : list A) (i : nat) (x y : A) :
  nth_error l i = Some y -> nth_error (set_nth i x l) i = Some x.
Proof.
  revert i. induction l as [| z l IH]; intros [| i] H; cbn in *;
    try discriminate; auto.
Qed.

Lemma nth_error_set_nth_ne {A : Type} (l : list A) (i j : nat) (x : A) :
  i <> j -> nth_error (set_nth i x l) j = nth_error l j.
Proof.
  revert i j. induction l as [| z l IH]; intros [| i] [| j] H; cbn;
    try reflexivity; try congruence.
  apply IH. congruence.
Qed.

(** What the second step of [process] returns depends on the payload and
    the clock only. *)
Lemma process_rest_returns (data : option Data) (s : Manager * World) :
  fst (process_rest data s) = returns data (now (snd s)).
Proof.
  destruct s as [m w]. unfold JavaUse.returns.
  destruct data as [d |]; java_run; [| reflexivity].
  destruct (toString d) as [text | e]; [reflexivity |].
  destruct (is_Exception e); reflexivity.
Qed.

Lemma step_advance1 (t : Thread Data) (s : Manager * World) :
  fst (step t s) = advance1 (now (snd s)) t /\
  now (snd (snd (step t s))) = now (snd s) /\
  config (fst (snd (step t s))) = config (fst s) /\
  createdAt (fst (snd (step t s))) = createdAt (fst s).
Proof.
  destruct t as [data | data | | out |]; try (repeat split; fail).
  pose proof (process_rest_returns data s) as H.
  unfold Java.step, bind.
  destruct (process_rest data s) as [out s'] eqn:E. cbn [fst snd] in *.
  unfold JavaUse.advance1. rewrite <- H. split; [reflexivity |].
  revert E. destruct s as [m w]. destruct data as [d |]; java_run.
  - destruct (toString d) as [text | e]; cbn;
      [| destruct (is_Exception e); cbn];
      intros Q; injection Q as _ <-; repeat split.
  - intros Q; injection Q as _ <-; repeat split.
Qed.

(** One scheduling step: the thread that steps advances by one, the
    others stay, clock, configuration and creation time stay. *)
Lemma schedule1_advance (j : nat) (sys : System Data) :
  let sys' := fst (schedule1 j sys) in
  (forall i,
     nth_error (threads sys') i
     = if Nat.eqb j i
       then option_map (advance1 (now (snd (shared sys))))
              (nth_error (threads sys) i)
       else nth_error (threads sys) i) /\
  now (snd (shared sys')) = now (snd (shared sys)) /\
  config (fst (shared sys')) = config (fst (shared sys)) /\
  createdAt (fst (shared sys')) = createdAt (fst (shared sys)).
Proof.
  cbn zeta. unfold Java.schedule1.
  destruct (nth_error (threads sys) j) as [t |] eqn:Et.
  - destruct (running t) as [op |] eqn:Er.
    + pose proof (step_advance1 t (shared sys)) as (S1 & S2 & S3 & S4).
      destruct (step t (shared sys)) as [t' sh'] eqn:Es. cbn [fst snd] in *.
      split; [| auto]. intros i.
      destruct (Nat.eqb_spec j i) as [<- | Hne].
      * rewrite Et. cbn. rewrite <- S1.
        eapply nth_error_set_nth_eq; eauto.
      * apply nth_error_set_nth_ne; assumption.
    + cbn [fst]. split; [| auto]. intros i.
      destruct (Nat.eqb_spec j i) as [<- | Hne]; [| reflexivity].
      rewrite Et. cbn. destruct t; cbn in Er; try discriminate; reflexivity.
  - cbn [fst]. split; [| auto]. intros i.
    destruct (Nat.eqb_spec j i) as [<- | Hne]; [| reflexivity].
    rewrite Et. reflexivity.
Qed.

(** Under every interleaving, where a thread stands, and what its
    [process] has returned, depends only on its own payload, the clock
    and the number of steps it was given: not on what the other threads
    did to the status in between. No interleaving changes the
    configuration or the creation time. *)
Theorem threads_advance (order : list nat) (sys : System Data) :
  let sys' := fst (schedule order sys) in
  (forall i,
     nth_error (threads sys') i
     = option_map (advance (count_occ Nat.eq_dec order i)
                     (now (snd (shared sys))))
         (nth_error (threads sys) i)) /\
  config (fst (shared sys')) = config (fst (shared sys)) /\
  createdAt (fst (shared sys')) = createdAt (fst (shared sys)).
Proof.
  cbn zeta.
  assert (G : forall order sys,
             (forall i,
                nth_error (threads (fst (schedule order sys))) i
                = option_map (advance (count_occ Nat.eq_dec order i)
                                (now (snd (shared sys))))
                    (nth_error (threads sys) i)) /\
             now (snd (shared (fst (schedule order sys))))
             = now (snd (shared sys)) /\
             config (fst (shared (fst (schedule order sys))))
             = config (fst (shared sys)) /\
             createdAt (fst (shared (fst (schedule order sys))))
             = createdAt (fst (shared sys))).
  { clear order sys. induction order as [| j rest IH]; intros sys.
    - cbn. split; [| auto]. intros i.
      destruct (nth_error (threads sys) i); reflexivity.
    - cbn [Java.schedule].
      pose proof (schedule1_advance j sys) as (A1 & A2 & A3 & A4).
      destruct (schedule1 j sys) as [sys1 c1]. cbn [fst] in *.
      specialize (IH sys1). destruct IH as (B1 & B2 & B3 & B4).
      destruct (schedule rest sys1) as [sys2 c2]. cbn [fst] in *.
      split; [| repeat split; congruence].
      intros i. rewrite B1, A1, A2. cbn [count_occ].
      destruct (Nat.eq_dec j i) as [<- | Hne].
      + rewrite Nat.eqb_refl.
        destruct (nth_error (threads sys) j); reflexivity.
      + destruct (Nat.eqb_spec j i); [contradiction | reflexivity]. }
  destruct (G order sys) as (G1 & _ & G3 & G4). auto.
Qed.

End JavaUseProperties.

(* ===================================================================== *)
(** * Further properties of the JavaScript manager                        *)
(* ===================================================================== *)


Section JsUseProperties.

Context {Data : Type} (JSON_stringify_length : Data -> option Z).

Import Js JsUse.

Local Abbreviation call_process := (Js.call_process Data).
Local Abbreviation fire := (Js.fire Data JSON_stringify_length).
Local Abbreviation run1 := (Js.run1 Data JSON_stringify_length).
Local Abbreviation run := (Js.run Data JSON_stringify_length).

Ltac js_run :=
  unfold Js.call_process, Js.call_reset, Js.fire, Js.process_begin,
    Js.process_resume, Js.timer_callback, Js.validate, Js.reset,
    Js.logger_info, Js.logger_warn, Js.logger_error, Js.logger_debug,
    Js.emit, Js.store_status, bind, ret, gets, modify;
  cbn.

(** What a call of [process] does to the timers and the settled calls:
    a payload that is [null] or [undefined] is rejected in the call itself
    and sets no timer; any other payload sets a timer and settles
    nothing. *)
Lemma call_process_lists (v : Value Data) (l : Loop Data) :
  let l' := call_process v l in
  calls l' = S (calls l) /\
  match v with
  | Val d =>
      status (fst (self l')) = PROCESSING /\
      timers l'
      = (timers l ++ [{| due := clock (snd (self l)) + 100;
                         owner := calls l; payload := v |}])%list /\
      settled l' = settled l
  | _ =>
      status (fst (self l')) = FAILED /\
      timers l' = timers l /\
      settled l'
      = (settled l
         ++ [(calls l, Rejected {| message := "Data validation failed" |})])%list
  end.
Proof.
  destruct l as [[m w] ts st n]. destruct v as [| | d]; js_run;
    try (repeat split; reflexivity).
  case_if; cbn; repeat split; reflexivity.
Qed.

(** What the firing of a timer does to the timers and the settled calls:
    the first timer goes, and its owner is resolved or, when the payload
    cannot be serialised, left as it is. *)
Lemma fire_lists (l : Loop Data) :
  let l' := fire l in
  calls l' = calls l /\
  match timers l with
  | [] => l' = l
  | t :: ts =>
      timers l' = ts /\
      (settled l' = settled l \/
       exists r, settled l' = (settled l ++ [(owner t, Resolved r)])%list /\
                 status (fst (self l')) = COMPLETED)
  end.
Proof.
  destruct l as [[m w] ts st n]. unfold Js.fire. cbn [timers self].
  destruct ts as [| t ts]; [split; reflexivity |].
  js_run.
  destruct (payload t) as [| | d]; cbn.
  - repeat split. right. eexists. split; reflexivity.
  - repeat split. left. reflexivity.
  - destruct (JSON_stringify_length d) as [k |]; cbn.
    + repeat split. right. eexists. split; reflexivity.
    + repeat split. left. reflexivity.
Qed.

Lemma known_call_process (v : Value Data) (l : Loop Data) :
  Permutation (known (call_process v l)) (calls l :: known l).
Proof.
  pose proof (call_process_lists v l) as [_ H]. cbn zeta in H.
  unfold known. destruct v as [| | d].
  - destruct H as (_ & -> & ->). rewrite map_app. cbn.
    rewrite app_assoc. symmetry. apply Permutation_cons_append.
  - destruct H as (_ & -> & ->). rewrite map_app. cbn.
    rewrite app_assoc. symmetry. apply Permutation_cons_append.
  - destruct H as (_ & -> & ->). rewrite map_app. cbn.
    rewrite <- app_assoc. cbn. symmetry. apply Permutation_middle.
Qed.

Lemma known_fire (l : Loop Data) :
  (exists id, known l = id :: known (fire l)) \/
  Permutation (known (fire l)) (known l).
Proof.
  pose proof (fire_lists l) as [_ H]. cbn zeta in H. unfold known.
  destruct (timers l) as [| t ts] eqn:Et.
  - right. rewrite H, Et. apply Permutation_refl.
  - destruct H as [-> [-> | (r & -> & _)]].
    + left. exists (owner t). reflexivity.
    + right. rewrite map_app. cbn. rewrite app_assoc.
      symmetry. apply Permutation_cons_append.
Qed.

Lemma calls_run1 (t : Task Data) (l : Loop Data) :
  (calls l <= calls (run1 l t))%nat.
Proof.
  destruct t as [v | |]; cbn.
  - pose proof (call_process_lists v l) as [H _]. cbn zeta in H. lia.
  - reflexivity.
  - pose proof (fire_lists l) as [H _]. cbn zeta in H. lia.
Qed.

(** Every task keeps the loop consistent, and a call that was made and is
    not known stays unknown. *)
Lemma run1_consistent (t : Task Data) (l : Loop Data) :
  consistent l ->
  consistent (run1 l t) /\
  forall id, (id < calls l)%nat -> ~ In id (known l) ->
             ~ In id (known (run1 l t)).
Proof.
  intros [Hnd Hlt]. destruct t as [v | |]; cbn [Js.run1].
  - pose proof (known_call_process v l) as P.
    pose proof (call_process_lists v l) as [Hc _]. cbn zeta in Hc.
    assert (Hfresh : ~ In (calls l) (known l)).
    { intros Hin. rewrite Forall_forall in Hlt. specialize (Hlt _ Hin). lia. }
    split; [split |].
    + eapply Permutation_NoDup; [symmetry; exact P |].
      constructor; assumption.
    + eapply Permutation_Forall; [symmetry; exact P |].
      constructor; [lia |].
      eapply Forall_impl; [| exact Hlt]. cbn. intros; lia.
    + intros id Hid Hn Hin.
      eapply Permutation_in in Hin; [| exact P].
      destruct Hin as [<- | Hin]; [lia | contradiction].
  - split; [split; assumption | auto].
  - pose proof (fire_lists l) as [Hc _]. cbn zeta in Hc.
    destruct (known_fire l) as [[id0 E] | P].
    + rewrite E in Hnd, Hlt. split; [split |].
      * inversion Hnd; assumption.
      * rewrite Hc. inversion Hlt; assumption.
      * intros id Hid Hn Hin. apply Hn. rewrite E. right. exact Hin.
    + split; [split |].
      * eapply Permutation_NoDup; [symmetry; exact P | assumption].
      * rewrite Hc. eapply Permutation_Forall; [symmetry; exact P | assumption].
      * intros id Hid Hn Hin. apply Hn.
        eapply Permutation_in; [exact P | exact Hin].
Qed.

Lemma run_consistent (tasks : list (Task Data)) (l : Loop Data) :
  consistent l ->
  consistent (run tasks l) /\
  forall id, (id < calls l)%nat -> ~ In id (known l) ->
             ~ In id (known (run tasks l)).
Proof.
  revert l. induction tasks as [| t tasks IH]; intros l Hl.
  - cbn. auto.
  - unfold Js.run. cbn [fold_left].
    destruct (run1_consistent t l Hl) as [H1 H2].
    destruct (IH _ H1) as [H3 H4]. split; [exact H3 |].
    intros id Hid Hn. apply H4; [| apply H2; assumption].
    pose proof (calls_run1 t l). lia.
Qed.

Lemma outcome_None (id : nat) (st : list (nat * Settled)) :
  ~ In id (map fst st) -> outcome id st = None.
Proof.
  induction st as [| [i x] st IH]; cbn; [reflexivity |].
  intros H. destruct (Nat.eqb_spec i id) as [-> | Hne].
  - exfalso. apply H. left. reflexivity.
  - apply IH. intros Hin. apply H. right. exact Hin.
Qed.

(** Whatever tasks run on the loop of a new manager: no call is settled
    twice, no call is settled that was not made, and a call that still
    waits for its timer is not settled. *)
Theorem calls_settle_once (tasks : list (Task Data)) (m : Manager) (t0 : Z) :
  let l := run tasks (start m t0) in
  NoDup (map fst (settled l)) /\
  Forall (fun id => (id < calls l)%nat) (map fst (settled l)) /\
  NoDup (map owner (timers l)) /\
  forall id, In id (map owner (timers l)) -> outcome id (settled l) = None.
Proof.
  cbn zeta.
  assert (H0 : consistent (start (Data := Data) m t0))
    by (split; constructor).
  destruct (run_consistent tasks _ H0) as [[Hnd Hlt] _].
  unfold known in *.
  split; [eapply NoDup_app_remove_l; exact Hnd |].
  split; [apply Forall_app in Hlt; apply Hlt |].
  split; [eapply NoDup_app_remove_r; exact Hnd |].
  intros id Hin. apply outcome_None. intros Hs.
  revert Hnd Hin Hs. generalize (map owner (timers (run tasks (start m t0)))).
  generalize (map fst (settled (run tasks (start m t0)))).
  intros b a. induction a as [| x a IH]; intros Hnd Hin Hs; [destruct Hin |].
  inversion Hnd as [| ? ? Hx Ha]; subst.
  destruct Hin as [-> | Hin].
  - apply Hx. apply in_or_app. right. exact Hs.
  - apply IH; assumption.
Qed.

(** A payload that passes validation and that [JSON.stringify] cannot
    serialise: its timer fires, the callback throws before it resolves
    the promise, and the call is never settled, whatever runs afterwards;
    when the timer has fired the status is still [PROCESSING]. *)
Theorem unserialisable_never_settles (d : Data) (l : Loop Data)
    (tasks : list (Task Data)) :
  consistent l ->
  timers l = [] ->
  JSON_stringify_length d = None ->
  let l2 := run [CallProcess (Val d); Fire] l in
  status (fst (self l2)) = PROCESSING /\
  timers l2 = [] /\
  outcome (calls l) (settled (run tasks l2)) = None.
Proof.
  intros Hl Ht Hd. cbn zeta. unfold Js.run at 2 3 4. cbn [fold_left Js.run1].
  pose proof (call_process_lists (Val d) l) as (A0 & A1 & A2 & A3).
  cbn zeta in *. set (l1 := call_process (Val d) l) in *.
  rewrite Ht in A2. cbn in A2.
  assert (Hf : status (fst (self (fire l1))) = PROCESSING /\
               timers (fire l1) = [] /\
               settled (fire l1) = settled l /\
               calls (fire l1) = S (calls l)).
  { clearbody l1. destruct l1 as [[m1 w1] ts1 st1 n1]. cbn in *. subst.
    js_run. rewrite Hd. cbn. auto. }
  destruct Hf as (F1 & F2 & F3 & F4).
  split; [exact F1 |]. split; [exact F2 |].
  apply outcome_None.
  assert (Hc1 : consistent l1)
    by (apply (run1_consistent (CallProcess (Val d)) l Hl)).
  assert (Hc2 : consistent (fire l1))
    by (apply (run1_consistent Fire l1 Hc1)).
  destruct (run_consistent tasks _ Hc2) as [_ Hstay].
  intros Hin. apply (Hstay (calls l)).
  - rewrite F4. lia.
  - unfold known. rewrite F2, F3. cbn. intros Hk.
    destruct Hl as [_ Hlt]. unfold known in Hlt. rewrite Ht in Hlt. cbn in Hlt.
    rewrite Forall_forall in Hlt. specialize (Hlt _ Hk). lia.
  - unfold known. apply in_or_app. right. exact Hin.
Qed.

(** [reset] does not cancel a call that is under way: the status is
    [PENDING] after it, the timer of the call still fires, the call is
    resolved and the status becomes [COMPLETED]. *)
Theorem reset_does_not_cancel (d : Data) (n : Z) (l : Loop Data) :
  timers l = [] ->
  JSON_stringify_length d = Some n ->
  let l2 := run [CallProcess (Val d); CallReset] l in
  let l3 := run [Fire] l2 in
  status (fst (self l2)) = PENDING /\
  length (timers l2) = 1%nat /\
  status (fst (self l3)) = COMPLETED /\
  settled l3
  = (settled l
     ++ [(calls l,
          Resolved {| r_status := "success";
                      r_processedAt := clock (snd (self l)) + 100;
                      r_dataSize := n;
                      r_processingTime := 100 |})])%list.
Proof.
  intros Ht Hd. destruct l as [[m w] ts st k]. cbn in Ht. subst ts.
  cbn zeta. unfold Js.run. cbn [fold_left Js.run1]. js_run.
  case_if; cbn; rewrite Hd; cbn;
    (replace (Z.max (clock w) (clock w + 100)) with (clock w + 100) by lia);
    repeat split; reflexivity.
Qed.

End JsUseProperties.

(* ===================================================================== *)
(** * Further properties of the C++ manager and of the poller             *)
(* ===================================================================== *)

(** The C++ [process] throws exactly for the empty string, and what it
    throws is the [std::invalid_argument] of the validation, rethrown as
    it is, with the status [FAILED]; for any other string it returns the
    result map with the length of the data and leaves [COMPLETED]. The
    configuration and the creation time stay as they are. *)
Theorem Cpp_process_outcomes (data : string) (s : Cpp.Manager * Cpp.World) :
  let '(out, (m', w')) := Cpp.process data s in
  match data with
  | EmptyString =>
      out = Cpp.Thrown {| Cpp.exn_class := "std::invalid_argument";
                          Cpp.what := "Data validation failed" |} /\
      Cpp.status_ m' = Cpp.FAILED
  | String _ _ =>
      out = Cpp.Returned
              {| Cpp.r_status := "success";
                 Cpp.r_processedAt := Cpp.now (snd s);
                 Cpp.r_dataSize := Z.of_nat (String.length data);
                 Cpp.r_processingTime := "100" |} /\
      Cpp.status_ m' = Cpp.COMPLETED
  end /\
  Cpp.config_ m' = Cpp.config_ (fst s) /\
  Cpp.createdAt_ m' = Cpp.createdAt_ (fst s).
Proof.
  destruct s as [m w].
  unfold Cpp.process, Cpp.validate, Cpp.executeProcessing, Cpp.emit,
    Cpp.store_status, Cpp.getCurrentTimestamp, bind, ret, gets, modify.
  destruct data as [| c data]; cbn; repeat split.
Qed.

Section ApiUseProperties.

Context {CVReview : Type} (cfg : Api.ApiConfig) (server : Api.Server CVReview).

Import Api ApiUse.

Local Abbreviation getReview := (Api.getReview CVReview cfg server).
Local Abbreviation poll_loop := (Api.poll_loop CVReview cfg server).
Local Abbreviation pollReview := (Api.pollReview CVReview cfg server).
Local Abbreviation observe := (Api.observe CVReview server).
Local Abbreviation after_get := (Api.after_get cfg).

Ltac api_run :=
  unfold Api.call_onProgress, Api.sleep, Api.emit, Api.after_get,
    bind, ret, gets, modify;
  cbn.

(** The loop's result and the effects it added, round by round *)
Lemma poll_loop_rounds (reviewId : string) (onProgress : option Callback)
    (maxAttempts : Z) :
  forall (fuel : nat) (attempts : Z) (w : World),
    (Z.to_nat (maxAttempts - attempts) < fuel)%nat ->
    exists (out : Outcome CVReview) (new : list Effect),
      poll_loop fuel reviewId onProgress maxAttempts attempts w
      = (Some out,
         {| sent := sent w + fetches new; effects := effects w ++ new |}) /\
      rounds (review_url cfg reviewId) (POLL_INTERVAL cfg) new.
Proof.
  induction fuel as [| fuel IH]; intros attempts w Hfuel; [lia |].
  destruct (Z.ltb_spec attempts maxAttempts) as [Hlt | Hge].
  - assert (Hnext : forall cb,
              callback_part cb ->
              exists out new,
                poll_loop fuel reviewId onProgress maxAttempts (attempts + 1)
                  {| sent := S (sent w);
                     effects := effects w
                       ++ Fetch "GET" (review_url cfg reviewId)
                          :: cb ++ [SetTimeout (POLL_INTERVAL cfg)] |}
                = (Some out,
                   {| sent := sent w + fetches new;
                      effects := effects w ++ new |}) /\
                rounds (review_url cfg reviewId) (POLL_INTERVAL cfg) new).
    { intros cb Hcb.
      set (pre := Fetch "GET" (review_url cfg reviewId)
                  :: cb ++ [SetTimeout (POLL_INTERVAL cfg)]).
      assert (Hf : fetches pre = 1%nat) by (destruct Hcb; reflexivity).
      destruct (IH (attempts + 1)
                  {| sent := S (sent w); effects := effects w ++ pre |})
        as (out & new & E & R); [lia |].
      exists out, (pre ++ new)%list. rewrite E. cbn [sent effects].
      rewrite fetches_app, Hf, <- app_assoc. split.
      - f_equal. f_equal. lia.
      - unfold pre. cbn [app]. rewrite <- app_assoc. cbn [app].
        apply rounds_more; assumption. }
    cbn [Api.poll_loop].
    assert (E : (attempts <? maxAttempts) = true) by (apply Z.ltb_lt; lia).
    rewrite E. unfold bind at 1. rewrite getReview_observe.
    unfold Api.after_get.
    destruct (observe (sent w)) as [e | r].
    + destruct (attempts >=? maxAttempts - 1).
      * exists (Throws e), [Fetch "GET" (review_url cfg reviewId)].
        split; [unfold ret; cbn; f_equal; f_equal; lia |].
        apply rounds_last. constructor.
      * api_run. rewrite <- app_assoc. cbn [app].
        apply (Hnext [] no_callback).
    + destruct onProgress as [f |].
      * api_run. rewrite <- app_assoc. cbn [app].
        destruct (f (status r)) as [e |].
        -- destruct (attempts >=? maxAttempts - 1).
           ++ exists (Throws e),
                [Fetch "GET" (review_url cfg reviewId); Progress (status r)].
              split; [unfold ret; cbn; f_equal; f_equal; lia |].
              apply rounds_last. constructor.
           ++ cbn. rewrite <- app_assoc. cbn [app].
              apply (Hnext _ (one_callback (status r))).
        -- destruct (terminal (status r)).
           ++ exists (Returns r),
                [Fetch "GET" (review_url cfg reviewId); Progress (status r)].
              split; [unfold ret; cbn; f_equal; f_equal; lia |].
              apply rounds_last. constructor.
           ++ cbn. rewrite <- app_assoc. cbn [app].
              apply (Hnext _ (one_callback (status r))).
      * api_run.
        destruct (terminal (status r)).
        -- exists (Returns r), [Fetch "GET" (review_url cfg reviewId)].
           split; [unfold ret; cbn; f_equal; f_equal; lia |].
           apply rounds_last. constructor.
        -- cbn. rewrite <- app_assoc. cbn [app].
           apply (Hnext [] no_callback).
  - rewrite poll_exhausted by lia.
    exists (Throws (ThrowError "Review processing timeout")), [].
    split; [| constructor].
    destruct w; cbn. rewrite Nat.add_0_r, app_nil_r. reflexivity.
Qed.

Lemma rounds_count (url : string) (interval : Z) (l : list Effect) :
  rounds url interval l ->
  (waits l <= fetches l)%nat /\
  total_wait l = Z.of_nat (waits l) * interval.
Proof.
  induction 1 as [| cb Hcb | cb rest Hcb Hr [IH1 IH2]].
  - split; reflexivity.
  - destruct Hcb; cbn; split; lia.
  - destruct Hcb; cbn [app fetches waits total_wait]; split; lia.
Qed.

(** [pollReview] waits only after a request, so at most
    [MAX_POLL_ATTEMPTS] times, each time [POLL_INTERVAL]: in all it waits
    no longer than their product, which the constants of the application
    make 120000 ms, the "2 minutes total" of the configuration. *)
Theorem pollReview_total_wait (reviewId : string)
    (onProgress : option Callback) (w : World) :
  0 <= POLL_INTERVAL cfg ->
  exists (out : Outcome CVReview) (new : list Effect),
    pollReview reviewId onProgress w
    = (Some out,
       {| sent := sent w + fetches new; effects := effects w ++ new |}) /\
    rounds (review_url cfg reviewId) (POLL_INTERVAL cfg) new /\
    (waits new <= fetches new <= Z.to_nat (MAX_POLL_ATTEMPTS cfg))%nat /\
    total_wait new = Z.of_nat (waits new) * POLL_INTERVAL cfg /\
    total_wait new <= Z.max 0 (MAX_POLL_ATTEMPTS cfg) * POLL_INTERVAL cfg /\
    (POLL_INTERVAL cfg = POLL_INTERVAL API_CONFIG ->
     MAX_POLL_ATTEMPTS cfg = MAX_POLL_ATTEMPTS API_CONFIG ->
     total_wait new <= 120000).
Proof.
  intros Hiv. unfold Api.pollReview.
  assert (Hfuel : (Z.to_nat (MAX_POLL_ATTEMPTS cfg - 0)
                   < enough_fuel (MAX_POLL_ATTEMPTS cfg))%nat)
    by (unfold enough_fuel; lia).
  destruct (poll_loop_rounds reviewId onProgress (MAX_POLL_ATTEMPTS cfg)
              _ 0 w Hfuel) as (out & new & E & R).
  pose proof (poll_loop_ends cfg server reviewId onProgress
                (MAX_POLL_ATTEMPTS cfg) _ 0 w Hfuel)
    as (out' & new' & E' & B & _).
  rewrite E in E'. injection E' as _ _ Heff.
  apply app_inv_head in Heff. subst new'.
  rewrite Z.sub_0_r in B.
  destruct (rounds_count _ _ _ R) as [C1 C2].
  exists out, new. split; [exact E |]. split; [exact R |].
  split; [lia |]. split; [exact C2 |].
  assert (Hb : total_wait new
               <= Z.max 0 (MAX_POLL_ATTEMPTS cfg) * POLL_INTERVAL cfg).
  { rewrite C2. apply Z.mul_le_mono_nonneg_r; lia. }
  split; [exact Hb |].
  intros Hi Hm. rewrite Hi, Hm in Hb. cbn in Hb. exact Hb.
Qed.

(** A review [poll_loop] returns has a terminal status and is one the
    server sent in answer to a request of this poll. *)
Lemma poll_loop_returns (reviewId : string) (onProgress : option Callback)
    (maxAttempts : Z) :
  forall (fuel : nat) (attempts : Z) (w w' : World)
         (r : ReviewResponse CVReview),
    poll_loop fuel reviewId onProgress maxAttempts attempts w
    = (Some (Returns r), w') ->
    terminal (status r) = true /\
    exists n, (sent w <= n < sent w')%nat /\ observe n = inr r.
Proof.
  induction fuel as [| fuel IH]; intros attempts w w' r H;
    [discriminate H |].
  cbn [Api.poll_loop] in H.
  destruct (attempts <? maxAttempts); [| discriminate H].
  unfold bind at 1 in H. rewrite getReview_observe in H.
  unfold Api.after_get in H.
  assert (Hgo : forall w1,
            (S (sent w) <= sent w1)%nat ->
            poll_loop fuel reviewId onProgress maxAttempts (attempts + 1) w1
            = (Some (Returns r), w') ->
            terminal (status r) = true /\
            exists n, (sent w <= n < sent w')%nat /\ observe n = inr r).
  { intros w1 Hs Hl. destruct (IH _ _ _ _ Hl) as [Ht (n & Hn & Ho)].
    split; [exact Ht |]. exists n. split; [lia | exact Ho]. }
  destruct (observe (sent w)) as [e | r0] eqn:Eo.
  - destruct (attempts >=? maxAttempts - 1); [discriminate H |].
    revert H. api_run. apply Hgo. cbn. lia.
  - destruct onProgress as [f |].
    + revert H. api_run. destruct (f (status r0)) as [e |].
      * destruct (attempts >=? maxAttempts - 1); [discriminate |].
        cbn. apply Hgo. cbn. lia.
      * destruct (terminal (status r0)) eqn:Et.
        -- intros H. injection H as <- <-. split; [exact Et |].
           exists (sent w). cbn. split; [lia | exact Eo].
        -- cbn. apply Hgo. cbn. lia.
    + revert H. api_run. destruct (terminal (status r0)) eqn:Et.
      * intros H. injection H as <- <-. split; [exact Et |].
        exists (sent w). cbn. split; [lia | exact Eo].
      * cbn. apply Hgo. cbn. lia.
Qed.

(** [pollReview] never returns a review that is still pending or
    processing: what it returns has status [COMPLETED] or [FAILED], and is
    the answer to one of the requests it made. *)
Theorem pollReview_returns_terminal (reviewId : string)
    (onProgress : option Callback) (w w' : World)
    (r : ReviewResponse CVReview) :
  pollReview reviewId onProgress w = (Some (Returns r), w') ->
  (status r = COMPLETED \/ status r = FAILED) /\
  exists n, (sent w <= n < sent w')%nat /\ observe n = inr r.
Proof.
  intros H. unfold Api.pollReview in H.
  destruct (poll_loop_returns _ _ _ _ _ _ _ _ H) as [Ht Hn].
  split; [| exact Hn].
  destruct (status r); cbn in Ht; try discriminate Ht; auto.
Qed.

(** The progress callback runs inside the [try]: when it throws, the
    loop treats it as it treats a failed request, also when the review it
    was called with is terminal. On the last attempt the callback's error
    is thrown to the caller; before that the review is dropped, the loop
    waits and asks again. *)
Theorem callback_error_retried (reviewId : string) (f : Callback)
    (maxAttempts attempts : Z) (fuel : nat) (w : World)
    (r : ReviewResponse CVReview) (e : Thrown) :
  attempts < maxAttempts ->
  observe (sent w) = inr r ->
  f (status r) = Some e ->
  let w1 :=
    {| sent := S (sent w);
       effects := effects w
         ++ [Fetch "GET" (review_url cfg reviewId); Progress (status r)] |} in
  poll_loop (S fuel) reviewId (Some f) maxAttempts attempts w
  = if attempts >=? maxAttempts - 1
    then (Some (Throws e), w1)
    else poll_loop fuel reviewId (Some f) maxAttempts (attempts + 1)
           {| sent := sent w1;
              effects := effects w1 ++ [SetTimeout (POLL_INTERVAL cfg)] |}.
Proof.
  intros Hlt Hobs Hf. cbn zeta. cbn [Api.poll_loop].
  assert (E : (attempts <? maxAttempts) = true) by (apply Z.ltb_lt; lia).
  rewrite E. unfold bind at 1. rewrite getReview_observe, Hobs.
  api_run. rewrite Hf, <- app_assoc. cbn [app].
  destruct (attempts >=? maxAttempts - 1); reflexivity.
Qed.

End ApiUseProperties.

(* ===================================================================== *)
(** * Properties of the helpers                                           *)
(* ===================================================================== *)

Section HelpersProperties.

Context (formatFileSize : Z -> string).

Import Helpers.

(** [validateFile] accepts a file exactly when its type is
    "application/pdf" and its size is at most 10485760 bytes. A rejected
    file always comes with a message, an accepted one with none, and a
    wrong type is what is reported also when the file is too large as
    well. *)
Theorem validateFile_accepts (file : File) :
  let v := validateFile formatFileSize file in
  (isValid v = true <->
   type file = "application/pdf" /\ size file <= 10485760) /\
  (isValid v = true -> v_error v = None) /\
  (isValid v = false -> exists msg, v_error v = Some msg) /\
  (type file <> "application/pdf" ->
   v_error v = Some "Please upload a PDF file only.").
Proof.
  cbn zeta. unfold validateFile, includes. cbn.
  destruct (String.eqb_spec (type file) "application/pdf") as [Ht | Ht]; cbn.
  - destruct (Z.gtb_spec (size file) 10485760) as [Hs | Hs]; cbn.
    + repeat split; try discriminate; try lia; try (intros [_ H]; lia).
      * intros _. eexists. reflexivity.
      * intros H. contradiction.
    + repeat split; try discriminate; try assumption; try lia.
      intros H. contradiction.
  - repeat split; try discriminate; try (intros [H _]; contradiction).
    intros _. eexists. reflexivity.
Qed.

Lemma ge_mono (a b : number) (n : Z) :
  number_le a b -> ge a n = true -> ge b n = true.
Proof.
  destruct a as [| | p |], b as [| | q |]; cbn; try tauto; try discriminate.
  intros Hle H. apply Qle_bool_iff in H. apply Qle_bool_iff.
  eapply Qle_trans; eassumption.
Qed.

(** [getScoreInfo] never gives a higher score a lower level; a score is
    excellent exactly from 8, poor exactly below 4, and NaN is poor. *)
Theorem getScoreInfo_monotone (a b : number) :
  (number_le a b ->
   (rank (level (getScoreInfo a)) <= rank (level (getScoreInfo b)))%nat) /\
  (level (getScoreInfo a) = EXCELLENT <-> ge a 8 = true) /\
  (level (getScoreInfo a) = POOR <-> ge a 4 = false) /\
  level (getScoreInfo NaN) = POOR.
Proof.
  assert (H84 : forall x, ge x 8 = true -> ge x 6 = true /\ ge x 4 = true).
  { intros [| | q |]; cbn; try discriminate; auto.
    intros H. apply Qle_bool_iff in H.
    split; apply Qle_bool_iff; (eapply Qle_trans; [| exact H]);
      unfold Qle; cbn; lia. }
  assert (H64 : forall x, ge x 6 = true -> ge x 4 = true).
  { intros [| | q |]; cbn; try discriminate; auto.
    intros H. apply Qle_bool_iff in H.
    apply Qle_bool_iff; (eapply Qle_trans; [| exact H]);
      unfold Qle; cbn; lia. }
  split; [| split; [| split]].
  - intros Hle. unfold getScoreInfo.
    pose proof (ge_mono a b 8 Hle) as M8.
    pose proof (ge_mono a b 6 Hle) as M6.
    pose proof (ge_mono a b 4 Hle) as M4.
    destruct (ge a 8) eqn:A8.
    + rewrite (M8 eq_refl). cbn. lia.
    + destruct (ge a 6) eqn:A6.
      * rewrite (M6 eq_refl). destruct (ge b 8); cbn; lia.
      * destruct (ge a 4) eqn:A4.
        -- rewrite (M4 eq_refl).
           destruct (ge b 8); [cbn; lia |]. destruct (ge b 6); cbn; lia.
        -- destruct (ge b 8); [cbn; lia |].
           destruct (ge b 6); [cbn; lia |]. destruct (ge b 4); cbn; lia.
  - unfold getScoreInfo. destruct (ge a 8); [split; auto |].
    destruct (ge a 6); [split; discriminate |].
    destruct (ge a 4); split; discriminate.
  - unfold getScoreInfo. destruct (ge a 8) eqn:A8.
    + destruct (H84 a A8) as [_ ->]. split; discriminate.
    + destruct (ge a 6) eqn:A6.
      * rewrite (H64 a A6). split; discriminate.
      * destruct (ge a 4); split; auto; discriminate.
  - reflexivity.
Qed.

(** Computes through the tests for the empty string, of a string known
    not to be empty *)
Ltac by_emptiness :=
  repeat match goal with
         | H : _ <> EmptyString |- _ => apply String.eqb_neq in H
         end;
  cbn;
  repeat (match goal with
          | H : String.eqb ?x _ = false |- context [String.eqb ?x _] =>
              rewrite H
          end; cbn).


End HelpersProperties.

(* ===================================================================== *)
(** * Properties of the handlers of the application                       *)
(* ===================================================================== *)

Section AppProperties.

Context {CVReview : Type} (formatFileSize : Z -> string)
        (cfg : Api.ApiConfig) (server : Api.Server CVReview).

Import App.

Local Abbreviation AppState := (App.AppState CVReview).
Local Abbreviation handleFileUpload :=
  (App.handleFileUpload CVReview formatFileSize cfg server).
Local Abbreviation handleFileUpload_states :=
  (App.handleFileUpload_states CVReview formatFileSize cfg server).
Local Abbreviation handleRetry := (App.handleRetry CVReview cfg server).
Local Abbreviation uploadCV := (App.uploadCV CVReview cfg).
Local Abbreviation pollReview := (Api.pollReview CVReview cfg server).
Local Abbreviation upload_url :=
  (Api.BASE_URL cfg ++ Api.ENDPOINTS_UPLOAD cfg)%string.

Local Open Scope list_scope.

(** [pollReview] ends, and what it adds are GETs of the review, callbacks
    and waits. *)
Lemma pollReview_ends (reviewId : string)
    (onProgress : option Api.Callback) (w : Api.World) :
  exists (out : Api.Outcome CVReview) (new : list Api.Effect),
    pollReview reviewId onProgress w
    = (Some out,
       {| Api.sent := Api.sent w + Api.fetches new;
          Api.effects := Api.effects w ++ new |}) /\
    Forall (Api.poll_effect cfg reviewId) new.
Proof.
  unfold Api.pollReview.
  destruct (poll_loop_ends cfg server reviewId onProgress
              (Api.MAX_POLL_ATTEMPTS cfg)
              (Api.enough_fuel (Api.MAX_POLL_ATTEMPTS cfg)) 0 w)
    as (out & new & E & _ & F); [unfold Api.enough_fuel; lia |].
  exists out, new. split; assumption.
Qed.

Lemma last_cons_default {A : Type} (l : list A) (x d : A) :
  last (x :: l) d = last l x.
Proof.
  revert x d. induction l as [| y l IH]; intros x d; [reflexivity |].
  change (last (x :: y :: l) d) with (last (y :: l) d).
  rewrite !IH. reflexivity.
Qed.

(** The last of the states the callbacks set has the progress all of them
    add up to. *)
Lemma polling_states_last (new : list Api.Effect) (prev : AppState) :
  last (polling_states CVReview new prev) prev
  = {| currentStep := currentStep CVReview prev;
       reviewId := reviewId CVReview prev;
       review := review CVReview prev;
       isLoading := isLoading CVReview prev;
       error := error CVReview prev;
       uploadProgress := progress_after new (uploadProgress CVReview prev) |}.
Proof.
  revert prev. induction new as [| e new IH]; intros prev.
  - destruct prev; reflexivity.
  - destruct e as [m u | s0 | ms]; cbn [App.polling_states].
    + rewrite IH. reflexivity.
    + rewrite last_cons_default, IH. reflexivity.
    + rewrite IH. reflexivity.
Qed.

(** The state the [k]-th callback sets *)
Lemma polling_states_nth (new : list Api.Effect) :
  forall (prev s : AppState) (k : nat),
    uploadProgress CVReview prev <= 90 ->
    nth_error (polling_states CVReview new prev) k = Some s ->
    s = {| currentStep := currentStep CVReview prev;
           reviewId := reviewId CVReview prev;
           review := review CVReview prev;
           isLoading := isLoading CVReview prev;
           error := error CVReview prev;
           uploadProgress :=
             Z.min (uploadProgress CVReview prev + 15 * (Z.of_nat k + 1)) 90 |}.
Proof.
  induction new as [| e new IH]; intros prev s k Hp H.
  - destruct k; discriminate H.
  - destruct e as [m u | s0 | ms]; cbn [App.polling_states] in H;
      try (apply IH; assumption).
    destruct k as [| k]; cbn [nth_error] in H.
    + injection H as <-. unfold App.progress_callback, bump.
      f_equal; try lia.
    + apply IH in H; [| cbn; unfold bump; lia].
      rewrite H. cbn [App.progress_callback currentStep reviewId review
                        isLoading error uploadProgress].
      unfold bump. f_equal; try lia.
Qed.

Lemma polling_states_length (new : list Api.Effect) (prev : AppState) :
  Z.of_nat (length (polling_states CVReview new prev)) = callbacks new.
Proof.
  revert prev. induction new as [| e new IH]; intros prev; [reflexivity |].
  destruct e as [m u | s0 | ms]; cbn [App.polling_states callbacks length];
    try apply IH.
  rewrite Nat2Z.inj_succ, IH. lia.
Qed.

(** The state [handleFileUpload] leaves, without the states before it *)
Lemma handleFileUpload_eq (reply : Uploaded) (file : Helpers.File)
    (st : AppState) (w : Api.World) :
  handleFileUpload reply file st w
  = let validation := Helpers.validateFile formatFileSize file in
    if negb (Helpers.isValid validation) then
      ({| currentStep := ERROR; reviewId := reviewId CVReview st;
          review := review CVReview st;
          isLoading := isLoading CVReview st;
          error := Some (Api.JString
                           (Helpers.or_string (Helpers.v_error validation)
                              ERROR_UPLOAD));
          uploadProgress := uploadProgress CVReview st |}, w)
    else
      let st1 :=
        {| currentStep := PROCESSING; reviewId := reviewId CVReview st;
           review := review CVReview st; isLoading := true; error := None;
           uploadProgress := 0 |} in
      match uploadCV reply file w with
      | (inl thrown, w1) =>
          (App.upload_failed CVReview (Helpers.caught thrown) st1, w1)
      | (inr uploadResponse, w1) =>
          let '(polled, w2) :=
            pollReview (u_review_id uploadResponse) (Some (fun _ => None)) w1 in
          let new := skipn (length (Api.effects w1)) (Api.effects w2) in
          let st3 :=
            {| currentStep := PROCESSING;
               reviewId := Some (u_review_id uploadResponse);
               review := review CVReview st; isLoading := true; error := None;
               uploadProgress := progress_after new 20 |} in
          match polled with
          | None => (st3, w2)
          | Some (Api.Throws e) =>
              (App.upload_failed CVReview (Helpers.caught e) st3, w2)
          | Some (Api.Returns r) =>
              match Api.status r, Api.review CVReview r with
              | Api.FAILED, _ =>
                  (App.upload_failed CVReview
                     (Helpers.ErrorObject
                        (Helpers.or_string (Api.error_message CVReview r)
                           ERROR_PROCESSING)) st3, w2)
              | Api.COMPLETED, Some _ =>
                  ({| currentStep := RESULTS;
                      reviewId := Some (u_review_id uploadResponse);
                      review := Some r; isLoading := false; error := None;
                      uploadProgress := 100 |}, w2)
              | _, _ =>
                  (App.upload_failed CVReview
                     (Helpers.ErrorObject ERROR_PROCESSING) st3, w2)
              end
          end
      end.
Proof.
  unfold App.handleFileUpload, App.handleFileUpload_states. cbn zeta.
  destruct (negb _); [reflexivity |].
  destruct (uploadCV reply file w) as [[thrown | up] w1]; [reflexivity |].
  destruct (pollReview _ _ w1) as [polled w2].
  rewrite polling_states_last. cbn [currentStep reviewId review isLoading
                                     error uploadProgress].
  assert (L : forall (a b x : AppState) l,
            last (a :: b :: l ++ [x]) st = x).
  { intros a b x l. change (a :: b :: l ++ [x]) with ((a :: b :: l) ++ [x]).
    apply last_last. }
  destruct polled as [[r | e] |].
  - destruct (Api.status r); try (rewrite L; reflexivity).
    destruct (Api.review CVReview r); rewrite L; reflexivity.
  - rewrite L. reflexivity.
  - rewrite app_nil_r, !last_cons_default, polling_states_last. reflexivity.
Qed.

(** A file that [validateFile] rejects is not sent: the handler makes no
    request at all, and shows the error step with the message of the
    validation, leaving the rest of the state as it was. *)
Theorem invalid_file_not_sent (reply : Uploaded) (file : Helpers.File)
    (st : AppState) (w : Api.World) :
  Helpers.isValid (Helpers.validateFile formatFileSize file) = false ->
  exists msg,
    Helpers.v_error (Helpers.validateFile formatFileSize file) = Some msg /\
    msg <> EmptyString /\
    handleFileUpload reply file st w
    = ({| currentStep := ERROR;
          reviewId := reviewId CVReview st;
          review := review CVReview st;
          isLoading := isLoading CVReview st;
          error := Some (Api.JString msg);
          uploadProgress := uploadProgress CVReview st |}, w).
Proof.
  intros Hv. rewrite handleFileUpload_eq. cbn zeta. rewrite Hv. cbn [negb].
  revert Hv. unfold Helpers.validateFile.
  destruct (negb (Helpers.includes _ _)); cbn.
  - intros _. eexists. split; [reflexivity |]. split; [discriminate |].
    reflexivity.
  - destruct (Helpers.size file >? _); cbn; [| discriminate].
    intros _. eexists. split; [reflexivity |]. split; [discriminate |].
    reflexivity.
Qed.

Lemma skipn_own_length {A : Type} (a b : list A) :
  skipn (length a) (a ++ b) = b.
Proof. induction a as [| x a IH]; [reflexivity | exact IH]. Qed.

Lemma poll_effect_reads_only (reviewId : string) (new : list Api.Effect) :
  Forall (Api.poll_effect cfg reviewId) new -> Forall reads_only new.
Proof.
  intros H. eapply Forall_impl; [| exact H].
  intros [m u | st0 | ms]; cbn; tauto.
Qed.

(** A file that passes validation: the handler always comes to an end,
    with [isLoading] off, in the results step or in the error step. It
    makes one POST of the file, first, and after it nothing but GETs. It
    shows results only for a review that is [COMPLETED] and has its
    content, with the progress at 100 and no error; otherwise it shows the
    error step with a message, the progress at 0 and the review it had
    before. *)
Theorem handleFileUpload_ends (reply : Uploaded) (file : Helpers.File)
    (st : AppState) (w : Api.World) :
  Helpers.isValid (Helpers.validateFile formatFileSize file) = true ->
  let '(st', w') := handleFileUpload reply file st w in
  isLoading CVReview st' = false /\
  (exists rest,
     Api.effects w' = Api.effects w ++ Api.Fetch "POST" upload_url :: rest /\
     Forall reads_only rest) /\
  ((currentStep CVReview st' = RESULTS /\
    uploadProgress CVReview st' = 100 /\
    error CVReview st' = None /\
    exists r, review CVReview st' = Some r /\
              Api.status r = Api.COMPLETED /\
              Api.review CVReview r <> None) \/
   (currentStep CVReview st' = ERROR /\
    uploadProgress CVReview st' = 0 /\
    (exists msg, error CVReview st' = Some msg) /\
    review CVReview st' = review CVReview st)).
Proof.
  intros Hv. rewrite handleFileUpload_eq. cbn zeta. rewrite Hv. cbn [negb].
  assert (Hfail : forall e st0 (w0 : Api.World) rest,
            review CVReview st0 = review CVReview st ->
            Api.effects w0
            = Api.effects w ++ Api.Fetch "POST" upload_url :: rest ->
            Forall reads_only rest ->
            let '(st', w') := (App.upload_failed CVReview e st0, w0) in
            isLoading CVReview st' = false /\
            (exists rest,
               Api.effects w'
               = Api.effects w ++ Api.Fetch "POST" upload_url :: rest /\
               Forall reads_only rest) /\
            ((currentStep CVReview st' = RESULTS /\
              uploadProgress CVReview st' = 100 /\
              error CVReview st' = None /\
              exists r, review CVReview st' = Some r /\
                        Api.status r = Api.COMPLETED /\
                        Api.review CVReview r <> None) \/
             (currentStep CVReview st' = ERROR /\
              uploadProgress CVReview st' = 0 /\
              (exists msg, error CVReview st' = Some msg) /\
              review CVReview st' = review CVReview st))).
  { intros e st0 w0 rest Hr He Hf. cbn. split; [reflexivity |].
    split; [exists rest; split; assumption |].
    right. repeat split; [eexists; reflexivity | exact Hr]. }
  unfold App.uploadCV, bind, modify, ret.
  destruct reply as [message | [message | up] | code statusText json].
  - apply (Hfail _ _ _ []); [reflexivity | reflexivity | constructor].
  - apply (Hfail _ _ _ []); [reflexivity | reflexivity | constructor].
  - destruct (pollReview_ends (u_review_id up) (Some (fun _ => None))
                {| Api.sent := S (Api.sent w);
                   Api.effects := Api.effects w
                     ++ [Api.Fetch "POST" upload_url] |})
      as (out & new & E & F).
    rewrite E. cbn [Api.effects Api.sent].
    rewrite skipn_own_length.
    apply poll_effect_reads_only in F.
    assert (Heff : (Api.effects w ++ [Api.Fetch "POST" upload_url]) ++ new
                   = Api.effects w ++ Api.Fetch "POST" upload_url :: new)
      by (rewrite <- app_assoc; reflexivity).
    destruct out as [r | e].
    + destruct (Api.status r) eqn:Es;
        try (apply (Hfail _ _ _ new); [reflexivity | exact Heff | exact F]).
      destruct (Api.review CVReview r) as [content |] eqn:Er;
        [| apply (Hfail _ _ _ new); [reflexivity | exact Heff | exact F]].
      cbn. split; [reflexivity |].
      split; [exists new; split; [exact Heff | exact F] |].
      left. repeat split. exists r. repeat split; [exact Es |].
      rewrite Er. discriminate.
    + apply (Hfail _ _ _ new); [reflexivity | exact Heff | exact F].
  - destruct (Api.handleResponse CVReview (Api.NotOk code statusText json));
      apply (Hfail _ _ _ []); try reflexivity; constructor.
Qed.

(** When the upload fails, whether [fetch] rejects, the body is no JSON
    or the response is not [ok], the handler does not poll: the POST is
    the only request it makes, and it shows the error step. *)
Theorem failed_upload_not_polled (reply : Uploaded) (file : Helpers.File)
    (st : AppState) (w : Api.World) :
  Helpers.isValid (Helpers.validateFile formatFileSize file) = true ->
  (forall up, reply <> UploadOk (inr up)) ->
  let '(st', w') := handleFileUpload reply file st w in
  w' = {| Api.sent := S (Api.sent w);
          Api.effects := Api.effects w ++ [Api.Fetch "POST" upload_url] |} /\
  currentStep CVReview st' = ERROR /\
  reviewId CVReview st' = reviewId CVReview st.
Proof.
  intros Hv Hup. rewrite handleFileUpload_eq. cbn zeta. rewrite Hv.
  cbn [negb].
  unfold App.uploadCV, bind, modify, ret.
  destruct reply as [message | [message | up] | code statusText json].
  - repeat split.
  - repeat split.
  - exfalso. apply (Hup up). reflexivity.
  - destruct (Api.handleResponse CVReview (Api.NotOk code statusText json));
      repeat split.
Qed.

(** The progress [handleFileUpload] shows. For a valid file whose upload
    is accepted the handler sets, in this order: the processing step
    with progress 0; the review id with progress 20; one state for each
    progress callback of the poll, the [k]-th of them with the smaller
    of [20 + 15 k] and 90 as progress, and otherwise as the state before
    it; and the state it leaves, with progress 100 for the results and 0
    for an error. So while the poll goes on the progress never goes
    back, and it never passes 90. *)
Theorem polling_progress (reply : Uploaded) (file : Helpers.File)
    (st : AppState) (w : Api.World) (up : UploadResponse) :
  Helpers.isValid (Helpers.validateFile formatFileSize file) = true ->
  reply = UploadOk (inr up) ->
  let '(states, w') := handleFileUpload_states reply file st w in
  let shown (p : Z) : AppState :=
    {| currentStep := PROCESSING; reviewId := Some (u_review_id up);
       review := review CVReview st; isLoading := true; error := None;
       uploadProgress := p |} in
  exists (during : list AppState) (final : AppState),
    states
    = {| currentStep := PROCESSING; reviewId := reviewId CVReview st;
         review := review CVReview st; isLoading := true; error := None;
         uploadProgress := 0 |}
      :: shown 20 :: during ++ [final] /\
    (final, w') = handleFileUpload reply file st w /\
    Z.of_nat (length during)
    = callbacks (skipn (length (Api.effects w)) (Api.effects w')) /\
    (forall (k : nat) (s : AppState),
       nth_error during k = Some s ->
       s = shown (Z.min (20 + 15 * (Z.of_nat k + 1)) 90)) /\
    (uploadProgress CVReview final = 100 \/
     uploadProgress CVReview final = 0).
Proof.
  intros Hv ->. unfold App.handleFileUpload, App.handleFileUpload_states.
  rewrite Hv. cbn [negb].
  unfold App.uploadCV, bind, modify, ret. cbn zeta.
  destruct (pollReview_ends (u_review_id up) (Some (fun _ => None))
              {| Api.sent := S (Api.sent w);
                 Api.effects := Api.effects w
                   ++ [Api.Fetch "POST" upload_url] |})
    as (out & new & E & F).
  rewrite E. cbn [Api.effects Api.sent fst snd].
  rewrite skipn_own_length.
  set (st2 := {| currentStep := PROCESSING;
                 reviewId := Some (u_review_id up);
                 review := review CVReview st; isLoading := true;
                 error := None; uploadProgress := 20 |}).
  assert (Hnew : skipn (length (Api.effects w))
                   ((Api.effects w ++ [Api.Fetch "POST" upload_url]) ++ new)
                 = Api.Fetch "POST" upload_url :: new).
  { rewrite <- app_assoc. apply skipn_own_length. }
  assert (Hlast : forall (a b x : AppState) l,
            last (a :: b :: l ++ [x]) st = x).
  { intros a b x l. change (a :: b :: l ++ [x]) with ((a :: b :: l) ++ [x]).
    apply last_last. }
  assert (G : forall final : AppState,
            uploadProgress CVReview final = 100 \/
            uploadProgress CVReview final = 0 ->
            exists during final0,
              {| currentStep := PROCESSING; reviewId := reviewId CVReview st;
                 review := review CVReview st; isLoading := true;
                 error := None; uploadProgress := 0 |}
              :: st2 :: polling_states CVReview new st2 ++ [final]
              = {| currentStep := PROCESSING; reviewId := reviewId CVReview st;
                   review := review CVReview st; isLoading := true;
                   error := None; uploadProgress := 0 |}
                :: st2 :: during ++ [final0] /\
              (final0,
               {| Api.sent := S (Api.sent w) + Api.fetches new;
                  Api.effects :=
                    (Api.effects w ++ [Api.Fetch "POST" upload_url]) ++ new |})
              = (last
                   ({| currentStep := PROCESSING;
                       reviewId := reviewId CVReview st;
                       review := review CVReview st; isLoading := true;
                       error := None; uploadProgress := 0 |}
                    :: st2 :: polling_states CVReview new st2 ++ [final]) st,
                 {| Api.sent := S (Api.sent w) + Api.fetches new;
                    Api.effects :=
                      (Api.effects w ++ [Api.Fetch "POST" upload_url])
                      ++ new |}) /\
              Z.of_nat (length during)
              = callbacks
                  (skipn (length (Api.effects w))
                     ((Api.effects w ++ [Api.Fetch "POST" upload_url])
                      ++ new)) /\
              (forall (k : nat) (s : AppState),
                 nth_error during k = Some s ->
                 s = {| currentStep := PROCESSING;
                        reviewId := Some (u_review_id up);
                        review := review CVReview st; isLoading := true;
                        error := None;
                        uploadProgress :=
                          Z.min (20 + 15 * (Z.of_nat k + 1)) 90 |}) /\
              (uploadProgress CVReview final0 = 100 \/
               uploadProgress CVReview final0 = 0)).
  { intros final Hf. exists (polling_states CVReview new st2), final.
    split; [reflexivity |]. split; [rewrite Hlast; reflexivity |].
    split; [rewrite Hnew; cbn [callbacks]; apply polling_states_length |].
    split; [| exact Hf].
    intros k s Hk.
    apply (polling_states_nth new st2 s k) in Hk; [exact Hk | cbn; lia]. }
  destruct out as [r | e].
  - destruct (Api.status r); try (apply G; right; reflexivity).
    destruct (Api.review CVReview r);
      apply G; [left | right]; reflexivity.
  - apply G. right. reflexivity.
Qed.


End AppProperties.

(* ===================================================================== *)
(** * Properties of [debounce]                                            *)
(* ===================================================================== *)

Section DebounceProperties.

Context {Args : Type} (wait : Z).

Import Debounce.

Local Abbreviation State := (Debounce.State Args).
Local Abbreviation run := (Debounce.run Args wait).
Local Abbreviation idle := (Debounce.idle Args).
Local Abbreviation passed := (Debounce.passed Args).

Local Open Scope list_scope.

Local Abbreviation burst := (Debounce.burst Args).

Lemma run_app (e1 e2 : list (Debounce.Event Args)) (s : State) :
  run (e1 ++ e2) s = run e2 (run e1 s).
Proof. apply fold_left_app. Qed.

Lemma burst_keeps_ran (calls : list (Z * Args)) (s : State) :
  ran (run (burst calls) s) = ran s.
Proof.
  revert s. induction calls as [| c calls IH]; intros s; [reflexivity |].
  unfold Debounce.burst, Debounce.run in *. cbn [map fold_left]. rewrite IH.
  reflexivity.
Qed.

(** However many calls a burst has and however long it lasts, as long as
    the event loop does not get to run a timer in between: once the loop
    is free, [wait] or more after the last call, [func] is called exactly
    once, with the arguments of the last call. The earlier calls, and a
    timer that was pending before the burst, are dropped. *)
Theorem debounce_burst (calls : list (Z * Args)) (t_last : Z)
    (a_last : Args) (s : State) (t : Z) :
  let s1 := run (burst (calls ++ [(t_last, a_last)])) s in
  clock s1 + wait <= t ->
  ran s1 = ran s /\
  timeout s1 = Some (clock s1 + wait, a_last) /\
  ran (idle t s1) = ran s ++ [a_last] /\
  timeout (idle t s1) = None.
Proof.
  cbn zeta. unfold Debounce.burst. rewrite map_app, run_app. cbn [map].
  fold (burst calls). pose proof (burst_keeps_ran calls s) as Hr.
  set (s0 := run (burst calls) s) in *.
  unfold Debounce.run at 1 2 3 4 5 6. cbn [fold_left Debounce.run1].
  unfold Debounce.invoke. cbn [clock timeout ran fst snd]. intros Ht.
  split; [exact Hr |]. split; [reflexivity |].
  unfold Debounce.idle. cbn [clock timeout ran].
  assert (E : (Z.max (clock s0) t_last + wait
               <=? Z.max (Z.max (clock s0) t_last) t) = true)
    by (apply Z.leb_le; lia).
  rewrite E. cbn. rewrite Hr. split; reflexivity.
Qed.

(** [func] is called no more often than the debounced function was,
    counting a timer that was already pending, and only with arguments
    that were passed to the debounced function. *)
Theorem debounce_calls_bounded (events : list (Debounce.Event Args))
    (s : State) :
  exists new : list Args,
    ran (run events s) = ran s ++ new /\
    (length new
     <= length (passed events)
        + match timeout s with Some _ => 1 | None => 0 end)%nat /\
    forall a, In a new ->
              In a (passed events) \/ exists due, timeout s = Some (due, a).
Proof.
  revert s. induction events as [| e events IH]; intros s.
  - exists []. cbn. rewrite app_nil_r. split; [reflexivity |].
    split; [lia | intros a []].
  - change (run (e :: events) s)
      with (run events (Debounce.run1 Args wait s e)).
    destruct e as [t a | t]; cbn [Debounce.run1 Debounce.passed].
    + destruct (IH (Debounce.invoke Args wait t a s)) as (new & E & L & I).
      exists new. rewrite E. cbn in *. split; [reflexivity |].
      split; [destruct (timeout s); lia |].
      intros x Hx. destruct (I x Hx) as [H | [due H]]; [auto |].
      injection H as _ <-. left. left. reflexivity.
    + destruct (IH (idle t s)) as (new & E & L & I).
      unfold Debounce.idle in *.
      destruct (timeout s) as [[due a] |] eqn:Et.
      * destruct (due <=? Z.max (clock s) t).
        -- exists (a :: new). rewrite E. cbn in *.
           rewrite <- app_assoc. split; [reflexivity |].
           split; [lia |].
           intros x [<- | Hx]; [right; exists due; reflexivity |].
           destruct (I x Hx) as [H | [d H]]; [auto | discriminate H].
        -- exists new. rewrite E. cbn in *.
           split; [reflexivity |]. split; [exact L |]. exact I.
      * exists new. rewrite E. cbn in *. split; [reflexivity |].
        split; [exact L |].
        intros x Hx. destruct (I x Hx) as [H | [d H]]; [auto | discriminate H].
Qed.

End DebounceProperties.

(* ===================================================================== *)
(** * The further properties on concrete inputs                           *)
(* ===================================================================== *)

Lemma calls_keep_witness :
  let '(rs, s') :=
    GoUse.calls fmt_string
      [GoUse.CallProcess Go.Background (Some "resume.pdf");
       GoUse.CallGetStatus;
       GoUse.CallReset;
       GoUse.CallProcess Go.Background None;
       GoUse.CallClose;
       GoUse.CallGetStatus] go_fresh in
  Go.config (fst s') = Go.DefaultConfig /\
  Go.createdAt (fst s') = 0 /\
  rs = [GoUse.Processed
          (Some {| Go.r_Status := "success";
                   Go.r_ProcessedAt := 100 * Go.Millisecond;
                   Go.r_DataSize := 10;
                   Go.r_ProcessingTime := 100 * Go.Millisecond;
                   Go.r_Message :=
                     "Configuration processing completed successfully" |},
           None);
        GoUse.StatusIs Go.StatusCompleted;
        GoUse.ResetDone;
        GoUse.Processed
          (None, Some (Go.Errorf_w "validation failed: "
                         (Go.Errorf "data cannot be nil")));
        GoUse.Closed None;
        GoUse.StatusIs Go.StatusFailed].
Proof.
  pose proof (calls_keep fmt_string
                [GoUse.CallProcess Go.Background (Some "resume.pdf");
                 GoUse.CallGetStatus;
                 GoUse.CallReset;
                 GoUse.CallProcess Go.Background None;
                 GoUse.CallClose;
                 GoUse.CallGetStatus] go_fresh) as H.
  destruct (GoUse.calls fmt_string _ go_fresh) as [rs s'] eqn:E.
  assert (Hs : Go.status (fst go_fresh) <> Go.StatusProcessing)
    by discriminate.
  destruct (H Hs) as (H1 & H2 & _ & _).
  split; [exact H1 |]. split; [exact H2 |].
  vm_compute in E. injection E as <- _. reflexivity.
Defined.

Lemma ProcessAsync_live_witness :
  Go.Done_at Go.Background = None /\
  exists r,
    fst (Go.ProcessAsync fmt_string Go.Background None go_fresh) = Some r /\
    Go.r_Status r = "error" /\
    Go.r_Message r = "validation failed: data cannot be nil".
Proof.
  split; [reflexivity |].
  exact (ProcessAsync_live fmt_string Go.Background None go_fresh eq_refl).
Defined.

Lemma unserialisable_never_settles_witness :
  let tasks :=
    [Js.Fire; Js.CallProcess (Js.Val (Some "resume.pdf")); Js.Fire; Js.Fire] in
  let l0 : Js.Loop (option string) := Js.start (Js.new_ApiManager None) 0 in
  let l2 := Js.run (option string) string_or_function_length
              [Js.CallProcess (Js.Val None); Js.Fire] l0 in
  Js.status (fst (Js.self l2)) = Js.PROCESSING /\
  Js.timers l2 = [] /\
  Js.outcome 0
    (Js.settled (Js.run (option string) string_or_function_length tasks l2))
  = None.
Proof.
  cbn zeta.
  refine (unserialisable_never_settles string_or_function_length None
            (Js.start (Js.new_ApiManager None) 0) _ _ eq_refl eq_refl).
  split; constructor.
Defined.

Lemma reset_does_not_cancel_witness :
  let l2 := Js.run string plain_string_length
              [Js.CallProcess (Js.Val "resume.pdf"); Js.CallReset] js_loop0 in
  let l3 := Js.run string plain_string_length [Js.Fire] l2 in
  Js.status (fst (Js.self l2)) = Js.PENDING /\
  length (Js.timers l2) = 1%nat /\
  Js.status (fst (Js.self l3)) = Js.COMPLETED /\
  Js.settled l3
  = [(0%nat,
      Js.Resolved {| Js.r_status := "success"; Js.r_processedAt := 100;
                     Js.r_dataSize := 12; Js.r_processingTime := 100 |})].
Proof.
  exact (reset_does_not_cancel plain_string_length "resume.pdf" 12 js_loop0
           eq_refl eq_refl).
Defined.

Lemma pollReview_total_wait_witness :
  0 <= Api.POLL_INTERVAL Api.API_CONFIG /\
  exists (out : Api.Outcome unit) (new : list Api.Effect),
    Api.pollReview unit Api.API_CONFIG server_stuck "r1" None api_world0
    = (Some out,
       {| Api.sent := Api.fetches new; Api.effects := new |}) /\
    ApiUse.total_wait new <= 120000.
Proof.
  split; [discriminate |].
  destruct (pollReview_total_wait Api.API_CONFIG server_stuck "r1" None
              api_world0) as (out & new & E & _ & _ & _ & _ & H);
    [discriminate |].
  exists out, new. split; [exact E | exact (H eq_refl eq_refl)].
Defined.

Lemma pollReview_returns_terminal_witness :
  exists w',
    Api.pollReview unit quick_poll server_done_second "r1" None api_world0
    = (Some (Api.Returns (review_in Api.COMPLETED)), w') /\
    (Api.status (review_in Api.COMPLETED) = Api.COMPLETED \/
     Api.status (review_in Api.COMPLETED) = Api.FAILED) /\
    exists n, (0 <= n < Api.sent w')%nat /\
              Api.observe unit server_done_second n
              = inr (review_in Api.COMPLETED).
Proof.
  exists (snd (Api.pollReview unit quick_poll server_done_second "r1" None
                 api_world0)).
  assert (E : Api.pollReview unit quick_poll server_done_second "r1" None
                api_world0
              = (Some (Api.Returns (review_in Api.COMPLETED)),
                 snd (Api.pollReview unit quick_poll server_done_second "r1"
                        None api_world0)))
    by (vm_compute; reflexivity).
  split; [exact E |].
  exact (pollReview_returns_terminal quick_poll server_done_second "r1" None
           api_world0 _ (review_in Api.COMPLETED) E).
Defined.

Lemma callback_error_retried_witness :
  (* the review is complete, the callback throws: the review is asked for
     again, three times in all, and the callback's error is thrown *)
  Api.pollReview unit quick_poll server_full "r1" (Some throwing_callback)
    api_world0
  = (Some (Api.Throws (Api.ThrowError "callback failed")),
     {| Api.sent := 3;
        Api.effects :=
          [Api.Fetch "GET" "http://localhost:8000/api/review/r1";
           Api.Progress Api.COMPLETED;
           Api.SetTimeout 50;
           Api.Fetch "GET" "http://localhost:8000/api/review/r1";
           Api.Progress Api.COMPLETED;
           Api.SetTimeout 50;
           Api.Fetch "GET" "http://localhost:8000/api/review/r1";
           Api.Progress Api.COMPLETED] |}).
Proof.
  unfold Api.pollReview, Api.enough_fuel. cbn [Api.MAX_POLL_ATTEMPTS quick_poll].
  change (S (Z.to_nat 3)) with 4%nat.
  rewrite (callback_error_retried quick_poll server_full "r1"
             throwing_callback 3 0 3 api_world0 review_full
             (Api.ThrowError "callback failed") eq_refl eq_refl eq_refl).
  reflexivity.
Defined.

Lemma invalid_file_not_sent_witness :
  Helpers.isValid (Helpers.validateFile ten_megabytes png_file) = false /\
  App.handleFileUpload unit ten_megabytes quick_poll server_full
    upload_accepted png_file (App.initial unit) api_world0
  = ({| App.currentStep := App.ERROR;
        App.reviewId := None;
        App.review := None;
        App.isLoading := false;
        App.error := Some (Api.JString "Please upload a PDF file only.");
        App.uploadProgress := 0 |}, api_world0).
Proof.
  split; [reflexivity |].
  destruct (invalid_file_not_sent ten_megabytes quick_poll server_full
              upload_accepted png_file (App.initial unit) api_world0 eq_refl)
    as (msg & Hm & _ & H).
  rewrite H. cbn in Hm. injection Hm as <-. reflexivity.
Defined.

Lemma handleFileUpload_ends_witness :
  Helpers.isValid (Helpers.validateFile ten_megabytes pdf_file) = true /\
  let '(st', w') :=
    App.handleFileUpload unit ten_megabytes quick_poll server_full
      upload_accepted pdf_file (App.initial unit) api_world0 in
  App.currentStep unit st' = App.RESULTS /\
  App.review unit st' = Some review_full /\
  App.uploadProgress unit st' = 100 /\
  App.isLoading unit st' = false /\
  Api.effects w'
  = [Api.Fetch "POST" "http://localhost:8000/api/upload";
     Api.Fetch "GET" "http://localhost:8000/api/review/r1";
     Api.Progress Api.COMPLETED].
Proof.
  split; [reflexivity |].
  pose proof (handleFileUpload_ends ten_megabytes quick_poll server_full
                upload_accepted pdf_file (App.initial unit) api_world0
                eq_refl) as H.
  destruct (App.handleFileUpload unit ten_megabytes quick_poll server_full
              upload_accepted pdf_file (App.initial unit) api_world0)
    as [st' w'] eqn:E.
  destruct H as (H1 & _ & _).
  vm_compute in E. injection E as <- <-.
  split; [reflexivity |]. split; [reflexivity |]. split; [reflexivity |].
  split; [exact H1 | reflexivity].
Defined.

Lemma failed_upload_not_polled_witness :
  Helpers.isValid (Helpers.validateFile ten_megabytes pdf_file) = true /\
  let '(st', w') :=
    App.handleFileUpload unit ten_megabytes quick_poll server_full
      (App.UploadNotOk 413 "Payload Too Large" None) pdf_file
      (App.initial unit) api_world0 in
  Api.effects w' = [Api.Fetch "POST" "http://localhost:8000/api/upload"] /\
  App.currentStep unit st' = App.ERROR /\
  App.error unit st' = Some (Api.JString "Payload Too Large").
Proof.
  split; [reflexivity |].
  pose proof (failed_upload_not_polled ten_megabytes quick_poll server_full
                (App.UploadNotOk 413 "Payload Too Large" None) pdf_file
                (App.initial unit) api_world0 eq_refl) as H.
  destruct (App.handleFileUpload unit ten_megabytes quick_poll server_full
              (App.UploadNotOk 413 "Payload Too Large" None) pdf_file
              (App.initial unit) api_world0) as [st' w'] eqn:E.
  assert (Hno : forall up,
            App.UploadNotOk 413 "Payload Too Large" None
            <> App.UploadOk (inr up)) by discriminate.
  destruct (H Hno) as (H1 & H2 & _).
  split; [rewrite H1; reflexivity |]. split; [exact H2 |].
  vm_compute in E. injection E as <- _. reflexivity.
Defined.

Lemma polling_progress_witness :
  Helpers.isValid (Helpers.validateFile ten_megabytes pdf_file) = true /\
  let '(states, w') :=
    App.handleFileUpload_states unit ten_megabytes quick_poll server_slow
      upload_accepted pdf_file (App.initial unit) api_world0 in
  exists (during : list (App.AppState unit)) (final : App.AppState unit),
    states
    = {| App.currentStep := App.PROCESSING; App.reviewId := None;
         App.review := None; App.isLoading := true; App.error := None;
         App.uploadProgress := 0 |}
      :: {| App.currentStep := App.PROCESSING; App.reviewId := Some "r1";
            App.review := None; App.isLoading := true; App.error := None;
            App.uploadProgress := 20 |}
      :: during ++ [final] /\
    map (App.uploadProgress unit) during = [35; 50; 65] /\
    App.currentStep unit final = App.RESULTS /\
    App.uploadProgress unit final = 100.
Proof.
  split; [reflexivity |].
  pose proof (polling_progress ten_megabytes quick_poll server_slow
                upload_accepted pdf_file (App.initial unit) api_world0
                _ eq_refl eq_refl) as H.
  destruct (App.handleFileUpload_states unit ten_megabytes quick_poll
              server_slow upload_accepted pdf_file (App.initial unit)
              api_world0) as [states w'].
  destruct H as (during & final & H1 & H2 & H3 & H4 & _).
  vm_compute in H2. injection H2 as -> ->.
  exists during. eexists. split; [exact H1 |].
  split; [| split; reflexivity].
  change (Z.of_nat (length during) = 3) in H3.
  destruct during as [| s1 [| s2 [| s3 [| s4 rest]]]];
    try (cbn [length] in H3; lia).
  rewrite (H4 0%nat s1 eq_refl), (H4 1%nat s2 eq_refl),
    (H4 2%nat s3 eq_refl).
  reflexivity.
Defined.

Lemma debounce_burst_witness :
  let s1 :=
    Debounce.run string 300
      (Debounce.burst string [(0, "r"); (100, "re"); (250, "res")])
      debounce_start in
  Debounce.clock s1 + 300 <= 550 /\
  Debounce.ran (Debounce.idle string 550 s1) = ["res"] /\
  Debounce.ran (Debounce.idle string 549 s1) = [].
Proof.
  cbn zeta. split; [discriminate |].
  destruct (debounce_burst 300 [(0, "r"); (100, "re")] 250 "res"
              debounce_start 550) as (_ & _ & H & _); [discriminate |].
  split; [exact H | reflexivity].
Defined.
